(** * craw-hot: a shallow embedding of [craw_hot.py]

    The development follows the layout of the script: the Python values the
    script handles (text, JSON, exceptions), the host the process runs on
    (sub-processes, HTTP, clock, random numbers), then one Rocq definition
    per method of [BrowserClient], [TwitterApiClient], [PostCrawler],
    [UserManager], [ResultFileManager] and [CrawlHot], and finally the
    properties of these definitions.

    Conventions.
    - A Python [str] is a [string] holding the UTF-8 bytes of the text.
      Character classes ([str.strip], [str.isdigit], [str.lower], the regex
      classes [\w] and [\d]) are taken on the ASCII range; the script only
      meets control-surface output and x.com URLs there.
    - Python [int] is [Z], Python [float] is [Q].
    - A method of an object with mutable fields is a function in the monad
      [M]: it takes the process state and returns a result, which is either
      a value or a raised exception, with the state it leaves behind.  State
      changes made before an exception is raised are kept, as in Python. *)

From Stdlib Require Import String Ascii List ZArith QArith Qround Bool Lia.
From Stdlib Require Import DecimalString Permutation.
Import ListNotations.

Set Warnings "-register-all".

Local Open Scope string_scope.
Local Open Scope Z_scope.

(** ** Python text *)

Module PyStr.

Definition nl : string := String (ascii_of_nat 10) EmptyString.
Definition cr : string := String (ascii_of_nat 13) EmptyString.
Definition dquote : string := String (ascii_of_nat 34) EmptyString.

(** [str.isspace] on one ASCII character: TAB..CR, FS..US and the blank. *)
Definition is_space (c : ascii) : bool :=
  let n := nat_of_ascii c in
  ((9 <=? n)%nat && (n <=? 13)%nat) || ((28 <=? n)%nat && (n <=? 32)%nat).

Definition is_digit (c : ascii) : bool :=
  let n := nat_of_ascii c in ((48 <=? n)%nat && (n <=? 57)%nat).

(** The regex class [\w] on ASCII: letters, digits and the underscore. *)
Definition is_word (c : ascii) : bool :=
  let n := nat_of_ascii c in
  is_digit c || ((65 <=? n)%nat && (n <=? 90)%nat)
             || ((97 <=? n)%nat && (n <=? 122)%nat) || (n =? 95)%nat.

Definition lower_ascii (c : ascii) : ascii :=
  let n := nat_of_ascii c in
  if ((65 <=? n)%nat && (n <=? 90)%nat)%bool then ascii_of_nat (n + 32) else c.

Fixpoint lower (s : string) : string :=
  match s with
  | EmptyString => EmptyString
  | String c r => String (lower_ascii c) (lower r)
  end.

Fixpoint rev_onto (s acc : string) : string :=
  match s with
  | EmptyString => acc
  | String c r => rev_onto r (String c acc)
  end.

Definition rev (s : string) : string := rev_onto s EmptyString.

(** [s.lstrip()] and [s.lstrip(ch)]: drop the leading characters that
    satisfy [p]. *)
Fixpoint drop_while (p : ascii -> bool) (s : string) : string :=
  match s with
  | EmptyString => EmptyString
  | String c r => if p c then drop_while p r else s
  end.

Definition lstrip (s : string) : string := drop_while is_space s.
Definition rstrip (s : string) : string := rev (drop_while is_space (rev s)).
Definition strip (s : string) : string := rstrip (lstrip s).

Definition lstrip_char (ch : ascii) (s : string) : string :=
  drop_while (Ascii.eqb ch) s.

Fixpoint all_chars (p : ascii -> bool) (s : string) : bool :=
  match s with
  | EmptyString => true
  | String c r => p c && all_chars p r
  end.

Definition is_empty (s : string) : bool :=
  match s with EmptyString => true | _ => false end.

(** [s.isdigit()]: at least one character and all of them digits. *)
Definition isdigit (s : string) : bool :=
  negb (is_empty s) && all_chars is_digit s.

Definition startswith (p s : string) : bool := String.prefix p s.

(** [s.startswith((p1, p2, ...))] *)
Definition startswith_any (ps : list string) (s : string) : bool :=
  existsb (fun p => startswith p s) ps.

(** When [p] is a prefix of [s], what follows it. *)
Fixpoint drop_prefix (p s : string) : option string :=
  match p, s with
  | EmptyString, _ => Some s
  | String a p', String b s' => if Ascii.eqb a b then drop_prefix p' s' else None
  | String _ _, EmptyString => None
  end.

(** [sub in s] *)
Fixpoint contains (sub s : string) : bool :=
  startswith sub s ||
  match s with
  | EmptyString => false
  | String _ r => contains sub r
  end.

(** [s.split(sep)] for a non-empty separator: [skip] counts the characters
    of an occurrence of [sep] still to be passed over, [cur] holds the
    current piece, last character first. *)
Fixpoint split_go (sep : string) (skip : nat) (cur : string) (s : string)
  : list string :=
  match s with
  | EmptyString => [rev cur]
  | String c r =>
      match skip with
      | S k => split_go sep k cur r
      | O =>
          if startswith sep s
          then rev cur :: split_go sep (String.length sep - 1) EmptyString r
          else split_go sep 0 (String c cur) r
      end
  end.

Definition split (sep s : string) : list string :=
  split_go sep 0 EmptyString s.

(** The characters that end a line of a file read in text mode. *)
Definition is_line_break (c : ascii) : bool :=
  let n := nat_of_ascii c in ((n =? 10)%nat || (n =? 13)%nat).

(** [for line in f] on a file opened in text mode, each line without its
    end: with universal newlines a line ends at [\n], at [\r] and at
    [\r\n]. A [\r\n] is cut twice here and gives one more empty line. *)
Fixpoint text_lines (s : string) : list string :=
  match s with
  | EmptyString => [EmptyString]
  | String c r =>
      if is_line_break c then EmptyString :: text_lines r
      else match text_lines r with
           | l :: ls => String c l :: ls
           | [] => [String c EmptyString]
           end
  end.

(** The longest prefix of [s] whose characters satisfy [p], and the rest. *)
Fixpoint span (p : ascii -> bool) (s : string) : string * string :=
  match s with
  | EmptyString => (EmptyString, EmptyString)
  | String c r =>
      if p c then let '(a, b) := span p r in (String c a, b)
      else (EmptyString, s)
  end.

Definition digit_val (c : ascii) : Z := Z.of_nat (nat_of_ascii c) - 48.

Fixpoint digits_val (acc : Z) (s : string) : Z :=
  match s with
  | EmptyString => acc
  | String c r => digits_val (10 * acc + digit_val c) r
  end.

(** Digits with single underscores between them, as [int] accepts:
    [after_digit] tells whether the previous character was a digit. *)
Fixpoint int_body (after_digit : bool) (acc : Z) (s : string) : option Z :=
  match s with
  | EmptyString => if after_digit then Some acc else None
  | String c r =>
      if is_digit c then int_body true (10 * acc + digit_val c) r
      else if (Ascii.eqb c "_" && after_digit)%bool then int_body false acc r
      else None
  end.

(** The digit characters of [s]. *)
Fixpoint digit_count (s : string) : Z :=
  match s with
  | EmptyString => 0
  | String c r => (if is_digit c then 1 else 0) + digit_count r
  end.

(** [sys.get_int_max_str_digits()], which the script leaves at the default
    of CPython: [int] refuses a text of more digits than that, whatever they
    are; the sign and the underscores are not counted. *)
Definition int_max_str_digits : Z := 4300.

Definition int_digits (r : string) : option Z :=
  if int_max_str_digits <? digit_count r then None else int_body false 0 r.

(** [int(s)] in base 10: blanks around, one optional sign, digits.
    [None] stands for [ValueError]. *)
Definition py_int (s : string) : option Z :=
  match strip s with
  | String "-" r => option_map Z.opp (int_digits r)
  | String "+" r => int_digits r
  | r => int_digits r
  end.

Definition of_nat (n : nat) : string := NilZero.string_of_uint (Nat.to_uint n).

(** [s[:n]] *)
Definition take (n : nat) (s : string) : string := String.substring 0 n s.

(** ["".join(l)] *)
Definition concat (l : list string) : string := String.concat "" l.

End PyStr.

(** ** Python values *)

(** What [json.loads] returns. [JNull] is Python's [None]; a [dict] is an
    association list in insertion order. *)
Inductive json : Type :=
| JNull
| JBool (b : bool)
| JInt (z : Z)
| JFloat (q : Q)
| JStr (s : string)
| JArr (l : list json)
| JObj (kv : list (string * json)).

Definition dict : Type := list (string * json).

(** [d.get(key)]; [None] here is the missing key. *)
Fixpoint dict_lookup (key : string) (d : dict) : option json :=
  match d with
  | [] => None
  | (k, v) :: r => if String.eqb k key then Some v else dict_lookup key r
  end.

(** [d.get(key)] as Python sees it: a missing key reads as [None]. *)
Definition dict_get (key : string) (d : dict) : json :=
  match dict_lookup key d with
  | Some v => v
  | None => JNull
  end.

(** Truth value of a Python object in a condition. *)
Definition truthy (v : json) : bool :=
  match v with
  | JNull => false
  | JBool b => b
  | JInt z => negb (z =? 0)
  | JFloat q => negb (Qeq_bool q 0)
  | JStr s => negb (PyStr.is_empty s)
  | JArr l => match l with [] => false | _ => true end
  | JObj kv => match kv with [] => false | _ => true end
  end.

(** The exception classes of the script and the built-in ones it can meet. *)
Inductive exn : Type :=
| NoPostsFoundError (msg : string)
| CrawlTimeoutError (username : string) (timeout : Z)
| TimeoutExpired
| JSONDecodeError
| RecursionError
| ValueError
| TypeError
| AttributeError
| Exception (msg : string).

Inductive result (A : Type) : Type :=
| Ok (a : A)
| Raise (e : exn).
Arguments Ok {A} a.
Arguments Raise {A} e.

(** ** Configuration *)

Record Config : Type := mkConfig {
  page_load_timeout : Z;
  scroll_check_interval : Q;
  scroll_max_attempts : Z;
  scroll_no_new_threshold : Z;
  scroll_max_consecutive_errors : Z;
  scroll_early_stop_on_yesterday : bool;
  user_crawl_timeout : Z;
  max_retries : Z;
  browser_action_max_attempts : Z;
  content_fetch_workers : Z;
  user_crawl_workers : Z;
  browser_max_restarts : Z;
  browser_restart_backoff : Z
}.

(** [Config()] *)
Definition default_config : Config := {|
  page_load_timeout := 5;
  scroll_check_interval := 1 # 2;
  scroll_max_attempts := 10;
  scroll_no_new_threshold := 2;
  scroll_max_consecutive_errors := 3;
  scroll_early_stop_on_yesterday := true;
  user_crawl_timeout := 120;
  max_retries := 5;
  browser_action_max_attempts := 2;
  content_fetch_workers := 10;
  user_crawl_workers := 5;
  browser_max_restarts := 10;
  browser_restart_backoff := 30
|}.

(** ** The host *)

(** [subprocess.run(args, capture_output=True, text=True, timeout=t)]:
    a completed process, or one of the exceptions it raises. *)
Record CompletedProcess : Type := mkProc {
  returncode : Z;
  stdout : string;
  stderr : string
}.

Inductive run_outcome : Type :=
| Completed (p : CompletedProcess)
| RunTimeout
| RunFailure (msg : string).

(** [requests.get(url, headers=..., timeout=t)]: a response with its status
    code and what [resp.json()] gives, any JSON value ([None] here when it
    raises), or a raised exception. The annotations of [_fetch_via_fxtwitter]
    and [_fetch_via_syndication] say [Dict]; nothing checks it. *)
Inductive http_outcome : Type :=
| Response (status_code : Z) (body : option json)
| RequestFailure (msg : string).

(** How the join on the worker thread of [_retry_with_timeout] ends:
    the worker returned before the timer fired; or the timer fired and the
    worker returned within the five seconds of grace; or the join timed out
    with the worker still running, after the first [done] events of its run
    and with the counter of restarts and the handle of the client as the
    worker has them at that time. *)
Inductive race : Type :=
| WorkerFirst
| TimerThenWorker
| WorkerPending (done : nat) (restarts : Z) (handle : option json).

(** Everything outside the process. [World] is the state of the outside;
    each primitive the script calls is a transition on it. *)
Class Host (World : Type) : Type := {
  subprocess_run : list string -> Z -> World -> run_outcome * World;
  requests_get : string -> Z -> World -> http_outcome * World;
  (** [time.time()], in seconds *)
  time_time : World -> Q * World;
  (** [random.uniform(a, b)] *)
  random_uniform : Q -> Q -> World -> Q * World;
  (** [datetime.now().strftime('%Y-%m-%d %H:%M:%S')] *)
  datetime_now : World -> string * World;
  (** the text of [users.txt], when the file exists *)
  read_users_file : World -> option string;
  (** the outcome of [thread.join(timeout + 5)] against the timer *)
  join_race : Z -> World -> race * World;
  (** [json.loads] on a [str]: the value, or the exception raised, which is
      [json.JSONDecodeError] on a text that is not JSON and can be another
      one on a text that is, [RecursionError] on a value nested too deep
      and [ValueError] on an integer of more digits than [int] converts *)
  json_loads : string -> result json
}.

(** ** Log lines and the trace of a run *)

Inductive level : Type := INFO | WARN | ERROR | DEBUG.

(** One constructor per call of the logger, with the values the line shows. *)
Inductive message : Type :=
| FailedToParseJSON (excerpt : string)
| CannotFindValidOutput (first_lines : list string)
| DetectedTabNotFound
| CommandFailed (err : string)
| CommandTimedOut
| BrowserActionError (e : exn)
| AlreadyRestarted (count : Z)
| AttemptingRestart (count limit : Z)
| StoppingBrowser
| StartingBrowser
| BrowserRestarted
| BrowserCheckFailed
| BrowserRestartFailed (e : exn)
| BrowserNotAvailable
| Navigating (url : string)
| NoTargetId
| EvaluateResultType (v : json)
| EvaluateResultRepr (v : json)
| ResultIsList (n : nat)
| ParsedEvaluateResult (v : json)
| DoubleParsedEvaluateResult (v : json)
| FailedToParseEvaluateResult
| ContentLoaded
| ContentNotLoaded (timeout : Z)
| FxtwitterStatus (code : Z)
| FxtwitterError (msg : string)
| SyndicationStatus (code : Z)
| SyndicationError (msg : string)
| CannotExtractTweetId (url : string)
| FetchedVia (source url : string)
| FailedToFetch (url : string)
| StartingCrawl (username : string)
| PageLoaded
| ScrollNumber (n limit : Z)
| FoundNewUrls (n : nat)
| NoNewPosts (count : Z)
| NoNewPostsStopping
| DetectedYesterday
| FailedToParseUrls
| TooManyErrors (username : string)
| CollectedUrls (n : nat) (username : string)
| UsersFileNotFound
| LoadedUsers (n : nat)
| CreatedTxt
| FetchingContent (n : nat)
| FetchedPost (user : string) (index total completed all : nat)
| ErrorFetching (url : string) (e : exn)
| MarkdownSaved
| ExceptionLine (e : exn)
| AttemptNumber (attempt limit : Z)
| NoPostsInWindow (username : string)
| AttemptFailed (attempt : Z) (e : exn)
| RetryingIn (wait : Q)
| AllAttemptsFailed (username : string)
| NoUsersToCrawl
| StartingConcurrentCrawl (workers : Z)
| UserPosts (user : string) (n completed total : nat)
| UserNoPosts (user : string) (completed total : nat)
| FailedToCrawl (user : string) (e : exn)
| SummaryRule
| SummaryTitle
| SummaryTotalUsers (n : nat)
| SummaryTotalPosts (n : nat)
| SummaryBlank
| SummaryUser (user : string) (n : nat).

Inductive event : Type :=
| Log (lv : level) (m : message)
| Cmd (args : list string) (timeout : Z)
| Get (url : string) (timeout : Z)
| Sleep (seconds : Q).

(** ** Process state and the monad of methods *)

Section Monad.

Context {World : Type}.

(** The mutable state of the process: the outside world, the fields of the
    one [BrowserClient] ([restart_count]; [target_id], which [__init__]
    does not assign, so [None] is the missing attribute), the trace of what
    was done, and the chunks written to the two result files. *)
Record Sys : Type := mkSys {
  world : World;
  restart_count : Z;
  target_id : option json;
  trace : list event;
  txt_file : list string;
  md_file : option string
}.

Definition M (A : Type) : Type := Sys -> result A * Sys.

Definition ret {A} (a : A) : M A := fun s => (Ok a, s).
Definition raise {A} (e : exn) : M A := fun s => (Raise e, s).

Definition bind {A B} (m : M A) (k : A -> M B) : M B :=
  fun s =>
    match m s with
    | (Ok a, s') => k a s'
    | (Raise e, s') => (Raise e, s')
    end.

(** [try: m  except Exception as e: h e] *)
Definition try_except {A} (m : M A) (h : exn -> M A) : M A :=
  fun s =>
    match m s with
    | (Ok a, s') => (Ok a, s')
    | (Raise e, s') => h e s'
    end.

(** [try: m  except json.JSONDecodeError: h] *)
Definition try_except_json {A} (m : M A) (h : M A) : M A :=
  fun s =>
    match m s with
    | (Raise JSONDecodeError, s') => h s'
    | other => other
    end.

Definition emit (e : event) : M unit :=
  fun s => (Ok tt, mkSys (world s) (restart_count s) (target_id s)
                         (trace s ++ [e]) (txt_file s) (md_file s)).

Definition log (lv : level) (m : message) : M unit := emit (Log lv m).

(** A primitive of the host, run on the world held in the state. *)
Definition on_world {A} (f : World -> A * World) : M A :=
  fun s =>
    let '(a, w) := f (world s) in
    (Ok a, mkSys w (restart_count s) (target_id s)
                 (trace s) (txt_file s) (md_file s)).

Definition get_restart_count : M Z := fun s => (Ok (restart_count s), s).
Definition set_restart_count (n : Z) : M unit :=
  fun s => (Ok tt, mkSys (world s) n (target_id s)
                         (trace s) (txt_file s) (md_file s)).

(** Reading [self.target_id] before any assignment is an [AttributeError]. *)
Definition get_target_id : M json :=
  fun s =>
    match target_id s with
    | Some v => (Ok v, s)
    | None => (Raise AttributeError, s)
    end.
Definition set_target_id (v : json) : M unit :=
  fun s => (Ok tt, mkSys (world s) (restart_count s) (Some v)
                         (trace s) (txt_file s) (md_file s)).

(** [time.sleep(d)] *)
Definition sleep (d : Q) : M unit := emit (Sleep d).

(** [f.write(chunk)] on the incremental result file. *)
Definition write_txt (chunk : string) : M unit :=
  fun s => (Ok tt, mkSys (world s) (restart_count s) (target_id s)
                         (trace s) (txt_file s ++ [chunk]) (md_file s)).

(** [open(filepath, "w")] on the incremental result file. *)
Definition truncate_txt : M unit :=
  fun s => (Ok tt, mkSys (world s) (restart_count s) (target_id s)
                         (trace s) [] (md_file s)).

(** [open(md_filepath, "w")] followed by one [f.write(text)]. *)
Definition write_md (text : string) : M unit :=
  fun s => (Ok tt, mkSys (world s) (restart_count s) (target_id s)
                         (trace s) (txt_file s) (Some text)).

End Monad.

Arguments Sys : clear implicits.
Arguments M : clear implicits.

Declare Scope py_scope.
Delimit Scope py_scope with py.
Notation "x <- m ;; k" := (bind m (fun x => k))
  (at level 100, m at next level, right associativity) : py_scope.
Notation "m ;; k" := (bind m (fun _ => k))
  (at level 100, right associativity) : py_scope.

Definition Qltb (a b : Q) : bool := (Qnum a * QDen b <? Qnum b * QDen a)%Z.

(** What one pass of a loop body asks for. *)
Inductive flow (A : Type) : Type :=
| Next
| Break
| Return (a : A).
Arguments Next {A}.
Arguments Break {A}.
Arguments Return {A} a.

(** ** The script *)

Section Process.

Context {World : Type} {host : Host World}.
Variable config : Config.

Local Open Scope py_scope.
Local Abbreviation M := (M World).

(** *** BrowserClient *)

(** [_run_command]: every call is recorded in the trace before the host
    runs it. *)
Definition _run_command (args : list string) (timeout : Z) : M CompletedProcess :=
  emit (Cmd args timeout) ;;
  o <- on_world (subprocess_run args timeout) ;;
  match o with
  | Completed p => ret p
  | RunTimeout => raise TimeoutExpired
  | RunFailure msg => raise (Exception msg)
  end.

Definition decorative_prefixes : list string := ["│"; "├"; "╯"; "◇"].

Definition ok_result (v : json) : dict := [("ok", JBool true); ("result", v)].

(** What the first loop of [_parse_output] ends with. *)
Inductive scan : Type :=
| JsonStart (i : nat)
| Scalar (d : dict)
| IntRaises
| NoStart.

Fixpoint scan_lines (i : nat) (lines : list string) : scan :=
  match lines with
  | [] => NoStart
  | line :: rest =>
      let line_stripped := PyStr.strip line in
      if PyStr.startswith_any decorative_prefixes line_stripped
      then scan_lines (S i) rest
      else if negb (PyStr.is_empty line_stripped)
              && (PyStr.startswith "{" line_stripped
                  || PyStr.startswith PyStr.dquote line_stripped
                  || PyStr.startswith "[" line_stripped)
      then JsonStart i
      else if String.eqb line_stripped "true" then Scalar (ok_result (JBool true))
      else if String.eqb line_stripped "false" then Scalar (ok_result (JBool false))
      else if PyStr.isdigit (PyStr.lstrip_char "-" line_stripped)
      then match PyStr.py_int line_stripped with
           | Some z => Scalar (ok_result (JInt z))
           | None => IntRaises
           end
      else scan_lines (S i) rest
  end.

(** The branches on the type of a decoded [response]. *)
Definition wrap_response (response : json) : dict :=
  match response with
  | JStr _ => ok_result response
  | JObj d =>
      if truthy (dict_get "ok" d) then d
      else ok_result (dict_get "result" d)
  | _ => ok_result response
  end.

(** The loop [for j in range(json_start + 1, len(lines))]: the text merged
    so far and, when some merge decoded, the value returned. Only
    [json.JSONDecodeError] is caught there. *)
Fixpoint merge_lines (json_text : string) (rest : list string)
  : result (string * option dict) :=
  match rest with
  | [] => Ok (json_text, None)
  | line :: rest' =>
      let json_text := json_text ++ PyStr.nl ++ line in
      match json_loads json_text with
      | Ok response => Ok (json_text, Some (wrap_response response))
      | Raise JSONDecodeError => merge_lines json_text rest'
      | Raise e => Raise e
      end
  end.

Definition _parse_output (output : string) : M (option dict) :=
  let lines := PyStr.split PyStr.nl (PyStr.strip output) in
  let not_found :=
    log DEBUG (CannotFindValidOutput (firstn 10 lines)) ;; ret None in
  match scan_lines 0 lines with
  | Scalar d => ret (Some d)
  | IntRaises => raise ValueError
  | NoStart => not_found
  | JsonStart json_start =>
      match merge_lines (nth json_start lines "") (skipn (S json_start) lines) with
      | Raise e => raise e
      | Ok (_, Some d) => ret (Some d)
      | Ok (json_text, None) =>
          match json_loads json_text with
          | Ok response => ret (Some (wrap_response response))
          | Raise JSONDecodeError =>
              log WARN (FailedToParseJSON (PyStr.take 100 json_text)) ;;
              not_found
          | Raise e => raise e
          end
      end
  end.

Definition _check_tab_not_found (result : CompletedProcess) : bool :=
  PyStr.contains "tab not found" (PyStr.lower (stderr result ++ stdout result)).

Definition check_status : M bool :=
  try_except
    (result <- _run_command ["openclaw"; "browser"; "status"] 10 ;;
     ret ((returncode result =? 0)
          && PyStr.contains "enabled: true" (stdout result)))
    (fun _ => ret false).

Definition _restart_browser : M bool :=
  count <- get_restart_count ;;
  if browser_max_restarts config <=? count then
    log WARN (AlreadyRestarted count) ;;
    ret false
  else
    set_restart_count (count + 1) ;;
    log INFO (AttemptingRestart (count + 1) (browser_max_restarts config)) ;;
    try_except
      (log INFO StoppingBrowser ;;
       _run_command ["openclaw"; "browser"; "stop"] 30 ;;
       sleep 2 ;;
       log INFO StartingBrowser ;;
       _run_command ["openclaw"; "browser"; "start"] 30 ;;
       sleep (inject_Z (browser_restart_backoff config)) ;;
       ok <- check_status ;;
       if ok : bool then log INFO BrowserRestarted ;; ret true
       else log ERROR BrowserCheckFailed ;; ret false)
      (fun e => log ERROR (BrowserRestartFailed e) ;; ret false).

(** What an attempt of [_execute_action] does with the completed process. *)
Definition handle_result (attempt : Z) (result : CompletedProcess)
  : M (flow (option dict)) :=
  let check_returncode : M (flow (option dict)) :=
    if returncode result =? 0 then
      parsed <- _parse_output (stdout result) ;;
      ret (Return parsed)
    else
      log ERROR (CommandFailed (stderr result)) ;;
      ret (Return None) in
  if _check_tab_not_found result then
    if attempt <? browser_action_max_attempts config then
      log WARN DetectedTabNotFound ;;
      restarted <- _restart_browser ;;
      if restarted : bool then ret Next else ret (Return None)
    else check_returncode
  else check_returncode.

(** The body of the [try] of one attempt of [_execute_action]. *)
Definition attempt_body (attempt : Z) (cmd : list string)
  : M (flow (option dict)) :=
  result <- _run_command cmd 30 ;;
  handle_result attempt result.

(** The two [except] clauses of [_execute_action]. *)
Definition attempt_handler (e : exn) : M (flow (option dict)) :=
  match e with
  | TimeoutExpired => log ERROR CommandTimedOut ;; ret (Return None)
  | _ => log ERROR (BrowserActionError e) ;; ret (Return None)
  end.

(** [for attempt in range(attempt, attempt + remaining)] *)
Fixpoint execute_attempts (remaining : nat) (attempt : Z) (cmd : list string)
  : M (option dict) :=
  match remaining with
  | O => ret None
  | S remaining' =>
      f <- try_except (attempt_body attempt cmd) attempt_handler ;;
      match f with
      | Return r => ret r
      | Next | Break => execute_attempts remaining' (attempt + 1) cmd
      end
  end.

(** [_execute_action(action, cmd=cmd)]; no caller passes [timeout]. *)
Definition _execute_action (cmd : list string) : M (option dict) :=
  execute_attempts (Z.to_nat (browser_action_max_attempts config)) 1 cmd.

Definition ensure_available : M bool :=
  ok <- check_status ;;
  if ok : bool then ret true
  else
    log WARN BrowserNotAvailable ;;
    try_except
      (_run_command ["openclaw"; "browser"; "start"] 30 ;;
       sleep 3 ;;
       check_status)
      (fun _ => ret false).

Definition navigate (url : string) : M bool :=
  log INFO (Navigating url) ;;
  result <- _execute_action ["openclaw"; "browser"; "navigate"; "--json"; url] ;;
  match result with
  | Some ((_ :: _) as d) => set_target_id (dict_get "targetId" d) ;; ret true
  | _ => ret false
  end.

Definition json_prefixes : list string := ["["; "{"].

(** The decoding of a string result of [evaluate], up to two levels. The
    [except] clause is for [json.JSONDecodeError] alone: any other exception
    of [json.loads] leaves [evaluate]. *)
Definition decode_evaluate_string (text : string) : M json :=
  match json_loads text with
  | Raise JSONDecodeError => log WARN FailedToParseEvaluateResult ;; ret JNull
  | Raise e => raise e
  | Ok result_value =>
      log DEBUG (ParsedEvaluateResult result_value) ;;
      match result_value with
      | JStr inner =>
          if PyStr.startswith_any json_prefixes (PyStr.strip inner) then
            match json_loads inner with
            | Raise JSONDecodeError =>
                log WARN FailedToParseEvaluateResult ;; ret JNull
            | Raise e => raise e
            | Ok twice =>
                log DEBUG (DoubleParsedEvaluateResult twice) ;; ret twice
            end
          else ret result_value
      | _ => ret result_value
      end
  end.

(** [evaluate]; the returned [JNull] is Python's [None]. A [target_id]
    that is true but not a [str] makes [subprocess.run] raise [TypeError]
    on its argument list inside the [try] of [_execute_action]. *)
Definition evaluate (js_code : string) : M json :=
  tid <- get_target_id ;;
  if negb (truthy tid) then
    log WARN NoTargetId ;; ret JNull
  else
    result <-
      match tid with
      | JStr t =>
          _execute_action ["openclaw"; "browser"; "evaluate";
                           "--target-id"; t; "--fn"; js_code]
      | _ =>
          if 1 <=? browser_action_max_attempts config
          then log ERROR (BrowserActionError TypeError) ;; ret None
          else ret None
      end ;;
    match result with
    | Some ((_ :: _) as d) =>
        let result_value := dict_get "result" d in
        log DEBUG (EvaluateResultType result_value) ;;
        log DEBUG (EvaluateResultRepr result_value) ;;
        match result_value with
        | JArr l => log DEBUG (ResultIsList (List.length l)) ;; ret result_value
        | JStr text =>
            if PyStr.startswith_any json_prefixes (PyStr.strip text)
            then decode_evaluate_string text
            else ret result_value
        | _ => ret result_value
        end
    | _ => ret JNull
    end.

Definition press (key : string) : M bool :=
  result <- _execute_action ["openclaw"; "browser"; "press"; key] ;;
  match result with
  | Some _ => ret true
  | None => ret false
  end.

Definition content_loaded_js : string :=
  "document.querySelectorAll('article').length > 0".

(** The [while] loop of [wait_for_content_loaded]. Every pass that does
    not return sleeps [scroll_check_interval], so with a clock that moves
    forward by at least the time slept, [passes] bounds the passes whose
    test can still succeed; the test after the last one fails. *)
Fixpoint wait_loop (passes : nat) (start_time : Q) (timeout : Z) : M bool :=
  now <- on_world time_time ;;
  let expired := log WARN (ContentNotLoaded timeout) ;; ret false in
  match passes with
  | O => expired
  | S passes' =>
      if Qltb (now - start_time) (inject_Z timeout) then
        result <- evaluate content_loaded_js ;;
        match result with
        | JBool true => log DEBUG ContentLoaded ;; ret true
        | _ =>
            sleep (scroll_check_interval config) ;;
            wait_loop passes' start_time timeout
        end
      else expired
  end.

Definition wait_passes (timeout : Z) : nat :=
  Z.to_nat (Qceiling (inject_Z timeout / scroll_check_interval config)).

Definition wait_for_content_loaded (timeout : Z) : M bool :=
  start_time <- on_world time_time ;;
  wait_loop (wait_passes timeout) start_time timeout.

(** *** TwitterApiClient *)

(** [re.sub(r'(x\.com|twitter\.com)', 'api.fxtwitter.com', url)]: every
    occurrence, scanning from the left; [skip] counts the characters of the
    occurrence just replaced that are still to be passed over. *)
Fixpoint sub_hosts (skip : nat) (s : string) : string :=
  match s with
  | EmptyString => EmptyString
  | String c r =>
      match skip with
      | S k => sub_hosts k r
      | O =>
          if PyStr.startswith "x.com" s
          then "api.fxtwitter.com" ++ sub_hosts 4 r
          else if PyStr.startswith "twitter.com" s
          then "api.fxtwitter.com" ++ sub_hosts 10 r
          else String c (sub_hosts 0 r)
      end
  end.

(** Both sources return what [resp.json()] gave, whatever its type, and
    [None], here [JNull], after a warning. *)
Definition _fetch_via_fxtwitter (url : string) : M json :=
  let api_url := sub_hosts 0 url in
  emit (Get api_url 15) ;;
  resp <- on_world (requests_get api_url 15) ;;
  match resp with
  | Response status_code body =>
      if status_code =? 200 then
        match body with
        | Some payload => ret payload
        | None => log WARN (FxtwitterError "json") ;; ret JNull
        end
      else log WARN (FxtwitterStatus status_code) ;; ret JNull
  | RequestFailure msg => log WARN (FxtwitterError msg) ;; ret JNull
  end.

Definition _fetch_via_syndication (tweet_id : string) : M json :=
  let url := "https://cdn.syndication.twimg.com/tweet-result?id="
             ++ tweet_id ++ "&token=0" in
  emit (Get url 10) ;;
  resp <- on_world (requests_get url 10) ;;
  match resp with
  | Response status_code body =>
      if status_code =? 200 then
        match body with
        | Some payload => ret payload
        | None => log WARN (SyndicationError "json") ;; ret JNull
        end
      else log WARN (SyndicationStatus status_code) ;; ret JNull
  | RequestFailure msg => log WARN (SyndicationError msg) ;; ret JNull
  end.

(** A match of [(?:x\.com|twitter\.com)/\w+<keyword>(\d+)] that starts at
    the first character of [s], with [host] the alternative tried. After the
    greedy [\w+] only the longest run of word characters can be followed by
    the [/] that opens [keyword], so no shorter run needs trying. *)
Definition match_host_at (host_name keyword s : string) : option string :=
  match PyStr.drop_prefix (host_name ++ "/") s with
  | None => None
  | Some after_slash =>
      let '(name, after_name) := PyStr.span PyStr.is_word after_slash in
      if PyStr.is_empty name then None
      else
        match PyStr.drop_prefix keyword after_name with
        | None => None
        | Some after_keyword =>
            let '(digits, _) := PyStr.span PyStr.is_digit after_keyword in
            if PyStr.is_empty digits then None else Some digits
        end
  end.

Definition match_at (keyword s : string) : option string :=
  match match_host_at "x.com" keyword s with
  | Some digits => Some digits
  | None => match_host_at "twitter.com" keyword s
  end.

(** [re.search(pattern, url)] followed by [match.group(1)]: the leftmost
    position where the pattern matches. *)
Fixpoint re_search (keyword s : string) : option string :=
  match match_at keyword s with
  | Some digits => Some digits
  | None =>
      match s with
      | EmptyString => None
      | String _ r => re_search keyword r
      end
  end.

Definition _extract_tweet_id (url : string) : option string :=
  match re_search "/status/" url with
  | Some tweet_id => Some tweet_id
  | None => re_search "/statuses/" url
  end.

(** The dictionary [{"data": data, "source": source}]. *)
Record fetched : Type := mkFetched {
  data : dict;
  source : string
}.

(** [data and data.get(key)]. A false payload ([None], an empty container,
    zero, [False]) ends the test before the lookup. A true one is asked
    [.get(key)], which only a dictionary has: on a list, a string, a number
    or [True] the lookup raises [AttributeError]. The test gives the payload
    when it is a dictionary whose [key] holds a true value. *)
Definition marked (key : string) (payload : json) : result (option dict) :=
  if truthy payload then
    match payload with
    | JObj d => Ok (if truthy (dict_get key d) then Some d else None)
    | _ => Raise AttributeError
    end
  else Ok None.

Definition fetch_post (url : string) : M (option fetched) :=
  match _extract_tweet_id url with
  | None | Some EmptyString =>
      log WARN (CannotExtractTweetId url) ;; ret None
  | Some tweet_id =>
      primary <- _fetch_via_fxtwitter url ;;
      match marked "tweet" primary with
      | Raise e => raise e
      | Ok (Some d) =>
          log DEBUG (FetchedVia "fxtwitter" url) ;;
          ret (Some (mkFetched d "fxtwitter"))
      | Ok None =>
          secondary <- _fetch_via_syndication tweet_id ;;
          match marked "text" secondary with
          | Raise e => raise e
          | Ok (Some d) =>
              log DEBUG (FetchedVia "syndication" url) ;;
              ret (Some (mkFetched d "syndication"))
          | Ok None => log WARN (FailedToFetch url) ;; ret None
          end
      end
  end.

(** *** PostFormatter *)

(** [format_as_markdown(post_data, source, url)]. How a payload is rendered
    is presentation; the rendering is any function of the payload, the source
    name and the URL, and it may raise (a payload field of an unexpected
    type). *)
Variable format_as_markdown : dict -> string -> string -> result string.

(** *** PostCrawler *)

Definition _get_scroll_js : string :=
  String.concat PyStr.nl [
    "(() => {";
    "            const articles = document.querySelectorAll('article');";
    "            const now = new Date();";
    "            const oneDayAgo = new Date(now.getTime() - 24 * 60 * 60 * 1000);";
    "            const result = [];";
    "";
    "            for (let i = 0; i < articles.length; i++) {";
    "                const article = articles[i];";
    "                const timeElement = article.querySelector('time');";
    "                if (!timeElement) continue;";
    "";
    "                const datetime = timeElement.getAttribute('datetime');";
    "                if (!datetime) continue;";
    "";
    "                const tweetDate = new Date(datetime);";
    "                if (tweetDate < oneDayAgo) continue;";
    "";
    "                const links = article.querySelectorAll('a[href*="
      ++ PyStr.dquote ++ "/status/" ++ PyStr.dquote ++ "]');";
    "                for (let j = 0; j < links.length; j++) {";
    "                    const link = links[j];";
    "                    const href = link.getAttribute('href');";
    "                    if (href && href.includes('/status/')) {";
    "                        const statusId = href.split('/status/')[1].split('/')[0];";
    "                        const fullUrl = 'https://x.com' + href.split('/status/')[0] + '/status/' + statusId;";
    "                        if (!result.includes(fullUrl)) {";
    "                            result.push(fullUrl);";
    "                        }";
    "                        break;";
    "                    }";
    "                }";
    "            }";
    "";
    "            return result";
    "        })()" ].

(** The local variables of [_scroll_and_collect]. *)
Record scroll_state : Type := mkScroll {
  urls : list string;
  seen_ids : list string;
  no_new_count : Z;
  consecutive_errors : Z;
  found_yesterday : bool
}.

Definition mem (u : string) (l : list string) : bool :=
  existsb (String.eqb u) l.

Fixpoint chars (s : string) : list string :=
  match s with
  | EmptyString => []
  | String c r => String c EmptyString :: chars r
  end.

Fixpoint all_strings (l : list json) : option (list string) :=
  match l with
  | [] => Some []
  | JStr s :: r => option_map (cons s) (all_strings r)
  | _ :: _ => None
  end.

(** What [for u in page_urls] goes through: the items of a list, the
    characters of a string, the keys of a dictionary; anything else is not
    iterable. The collector is typed [List[str]]: a list with an item that is
    not a string falls outside it and is rejected here with [TypeError]. *)
Definition iterate (page_urls : json) : result (list string) :=
  match page_urls with
  | JArr l =>
      match all_strings l with
      | Some us => Ok us
      | None => Raise TypeError
      end
  | JStr s => Ok (chars s)
  | JObj kv => Ok (map fst kv)
  | _ => Raise TypeError
  end.

(** [result if isinstance(result, list) else json.loads(result)]:
    [json.loads] raises [TypeError] on what is not text. *)
Definition page_urls_of (result : json) : M json :=
  match result with
  | JArr _ => ret result
  | JStr text =>
      match json_loads text with
      | Ok v => ret v
      | Raise e => raise e
      end
  | _ => raise TypeError
  end.

(** The test on the first collected URL: [true] when the loop is to stop. *)
Definition first_url_is_old (st : scroll_state) : M bool :=
  match urls st with
  | [] => ret false
  | first_url :: _ =>
      let tweet_id := last (PyStr.split "/status/" first_url) "" in
      if PyStr.is_empty tweet_id then ret false
      else
        match PyStr.py_int tweet_id with
        | None => raise ValueError
        | Some tweet_timestamp =>
            now <- on_world time_time ;;
            let current_ts := (now * 1000)%Q in
            let one_day_ago := (current_ts - inject_Z (24 * 60 * 60 * 1000))%Q in
            if Qltb (inject_Z tweet_timestamp) one_day_ago
            then log INFO DetectedYesterday ;; ret true
            else ret false
        end
  end.

(** The body of the [try] of one pass, for a [result] that is not [None]. *)
Definition collect_page (scroll_num : Z) (result : json) (st : scroll_state)
  : M (flow unit * scroll_state) :=
  page_urls <- page_urls_of result ;;
  match iterate page_urls with
  | Raise e => raise e
  | Ok items =>
      let new_urls := filter (fun u => negb (mem u (seen_ids st))) items in
      match new_urls with
      | _ :: _ =>
          log DEBUG (FoundNewUrls (List.length new_urls)) ;;
          ret (Next, mkScroll (urls st ++ new_urls) (seen_ids st ++ new_urls)
                              0 (consecutive_errors st) (found_yesterday st))
      | [] =>
          let st1 := mkScroll (urls st) (seen_ids st) (no_new_count st + 1)
                              (consecutive_errors st) (found_yesterday st) in
          log DEBUG (NoNewPosts (no_new_count st1)) ;;
          if scroll_no_new_threshold config <=? no_new_count st1 then
            log INFO NoNewPostsStopping ;; ret (Break, st1)
          else if scroll_early_stop_on_yesterday config
                  && (scroll_num =? 1)
                  && negb (match urls st1 with [] => true | _ => false end)
          then
            old <- first_url_is_old st1 ;;
            if old : bool
            then ret (Break, mkScroll (urls st1) (seen_ids st1) (no_new_count st1)
                                      (consecutive_errors st1) true)
            else ret (Next, st1)
          else ret (Next, st1)
      end
  end.

(** One pass of the [for] loop of [_scroll_and_collect]. *)
Definition scroll_pass (username : string) (scroll_num : Z) (st : scroll_state)
  : M (flow unit * scroll_state) :=
  log DEBUG (ScrollNumber scroll_num (scroll_max_attempts config)) ;;
  result <- evaluate _get_scroll_js ;;
  r <- match result with
       | JNull =>
           ret (Next, mkScroll (urls st) (seen_ids st) (no_new_count st)
                               (consecutive_errors st + 1) (found_yesterday st))
       | _ =>
           let st0 := mkScroll (urls st) (seen_ids st) (no_new_count st)
                               0 (found_yesterday st) in
           try_except_json
             (collect_page scroll_num result st0)
             (log ERROR FailedToParseUrls ;;
              ret (Next, mkScroll (urls st0) (seen_ids st0) (no_new_count st0)
                                  (consecutive_errors st0 + 1)
                                  (found_yesterday st0)))
       end ;;
  let '(f, st') := r in
  match f with
  | Next =>
      if scroll_max_consecutive_errors config <=? consecutive_errors st' then
        log ERROR (TooManyErrors username) ;; ret (Break, st')
      else if found_yesterday st' then ret (Break, st')
      else if scroll_num <? scroll_max_attempts config then
        press "PageDown" ;;
        d <- on_world (random_uniform (scroll_check_interval config)
                                      (scroll_check_interval config * 2)) ;;
        sleep d ;;
        ret (Next, st')
      else ret (Next, st')
  | _ => ret (f, st')
  end.

(** [for scroll_num in range(scroll_num, scroll_num + remaining)] *)
Fixpoint scroll_loop (remaining : nat) (username : string) (scroll_num : Z)
  (st : scroll_state) : M scroll_state :=
  match remaining with
  | O => ret st
  | S remaining' =>
      r <- scroll_pass username scroll_num st ;;
      let '(f, st') := r in
      match f with
      | Next => scroll_loop remaining' username (scroll_num + 1) st'
      | _ => ret st'
      end
  end.

Definition _scroll_and_collect (username : string) : M (list string) :=
  st <- scroll_loop (Z.to_nat (scroll_max_attempts config)) username 1
                    (mkScroll [] [] 0 0 false) ;;
  log INFO (CollectedUrls (List.length (urls st)) username) ;;
  ret (urls st).

Definition crawl_user (username : string) : M (list string) :=
  log INFO (StartingCrawl username) ;;
  available <- ensure_available ;;
  if negb available then raise (Exception "Browser not available")
  else
    navigated <- navigate ("https://x.com/" ++ username) ;;
    if negb navigated then raise (Exception ("Failed to navigate to @" ++ username))
    else
      loaded <- wait_for_content_loaded (page_load_timeout config) ;;
      (if loaded : bool then log DEBUG PageLoaded
       else d <- on_world (random_uniform 1 2) ;; sleep d) ;;
      collected <- _scroll_and_collect username ;;
      match collected with
      | [] => raise (NoPostsFoundError
                       ("No posts found for @" ++ username ++ " in the last 24 hours"))
      | _ => ret collected
      end.

(** *** UserManager *)

(** The names [load] keeps of the text of the file: the lines, stripped,
    that are neither blank nor comments. The empty lines [text_lines] adds
    are blank lines. *)
Definition names_of (text : string) : list string :=
  filter (fun line => negb (PyStr.is_empty line)
                      && negb (PyStr.startswith "#" line))
         (map PyStr.strip (PyStr.text_lines text)).

Definition load : M (list string) :=
  fun s =>
    match read_users_file (world s) with
    | None => (log WARN UsersFileNotFound ;; ret []) s
    | Some text =>
        let users := names_of text in
        (log INFO (LoadedUsers (List.length users)) ;; ret users) s
    end.

(** *** ResultFileManager *)

Definition create_txt (timestamp : string) (users : list string) : M unit :=
  truncate_txt ;;
  write_txt ("# Crawl Results - " ++ timestamp ++ PyStr.nl) ;;
  write_txt ("# Total users: " ++ PyStr.of_nat (List.length users) ++ PyStr.nl) ;;
  write_txt ("# Started at: " ++ timestamp ++ PyStr.nl ++ PyStr.nl) ;;
  log INFO CreatedTxt.

Fixpoint write_lines (lines : list string) : M unit :=
  match lines with
  | [] => ret tt
  | line :: rest => write_txt (line ++ PyStr.nl) ;; write_lines rest
  end.

Definition user_heading (username : string) (posts current total : nat) : string :=
  "# @" ++ username ++ " (" ++ PyStr.of_nat posts ++ " posts) - ["
        ++ PyStr.of_nat current ++ "/" ++ PyStr.of_nat total ++ "]" ++ PyStr.nl.

Definition append_user_results (username : string) (user_urls : list string)
  (current total : nat) : M unit :=
  write_txt (user_heading username (List.length user_urls) current total) ;;
  write_lines user_urls ;;
  write_txt PyStr.nl.

Definition finalize_txt (total_posts : nat) : M unit :=
  now <- on_world datetime_now ;;
  write_txt (PyStr.nl ++ "# Completed at: " ++ now ++ PyStr.nl) ;;
  write_txt ("# Total posts: " ++ PyStr.of_nat total_posts ++ PyStr.nl).

(** [Dict[str, List[str]]], in insertion order. *)
Definition results : Type := list (string * list string).

(** [d[key] = value]: an existing key keeps its place. *)
Fixpoint results_set (key : string) (value : list string) (d : results) : results :=
  match d with
  | [] => [(key, value)]
  | (k, v) :: rest =>
      if String.eqb k key then (k, value) :: rest
      else (k, v) :: results_set key value rest
  end.

Definition total_posts_of (d : results) : nat :=
  list_sum (map (fun kv => List.length (snd kv)) d).

Record post_info : Type := mkInfo {
  info_user : string;
  info_url : string;
  info_index : nat;
  info_total : nat;
  section_start : nat
}.

Definition fetching_line : string := "> 正在获取内容..." ++ PyStr.nl ++ PyStr.nl.

Definition post_heading (i : nat) : string :=
  PyStr.nl ++ "### 帖子 " ++ PyStr.of_nat i ++ PyStr.nl ++ PyStr.nl.

Definition url_line (url : string) : string :=
  "- URL: " ++ url ++ PyStr.nl ++ PyStr.nl.

Definition rule_line : string := "---" ++ PyStr.nl ++ PyStr.nl.

(** The four items appended for one post when it is submitted. *)
Definition placeholder (i : nat) (url : string) : list string :=
  [post_heading i; fetching_line; url_line url; rule_line].

(** The single item written when a fetch comes back without content. *)
Definition unavailable (i : nat) (url : string) : string :=
  post_heading i ++ "> ⚠️ 无法获取帖子内容" ++ PyStr.nl ++ PyStr.nl
               ++ url_line url ++ rule_line.

(** The single item written when a fetch comes back with content. *)
Definition rendered (markdown : string) : string :=
  markdown ++ PyStr.nl ++ PyStr.nl ++ rule_line.

Definition md_header (timestamp : string) (d : results) : list string :=
  [ "# X 帖子抓取结果";
    PyStr.nl ++ "**抓取时间:** " ++ timestamp;
    "**总用户数:** " ++ PyStr.of_nat (List.length d);
    "**总帖子数:** " ++ PyStr.of_nat (total_posts_of d);
    PyStr.nl ++ "---" ++ PyStr.nl ].

Definition user_section_heading (user : string) (n : nat) : list string :=
  [ PyStr.nl ++ "## @" ++ user ++ " 的帖子 (" ++ PyStr.of_nat n ++ " 条)" ++ PyStr.nl;
    "---" ++ PyStr.nl ].

(** [for i, url in enumerate(urls, i)] of [save_markdown]. *)
Fixpoint layout_posts (user : string) (total i : nat) (user_urls : list string)
  (content : list string) (post_infos : list post_info)
  : list string * list post_info :=
  match user_urls with
  | [] => (content, post_infos)
  | url :: rest =>
      let info := mkInfo user url i total (List.length content) in
      layout_posts user total (S i) rest
                   (content ++ placeholder i url) (post_infos ++ [info])
  end.

(** [for user, urls in results.items()] of [save_markdown]. *)
Fixpoint layout_users (d : results) (content : list string)
  (post_infos : list post_info) : list string * list post_info :=
  match d with
  | [] => (content, post_infos)
  | (user, user_urls) :: rest =>
      match user_urls with
      | [] => layout_users rest content post_infos
      | _ =>
          let '(content', post_infos') :=
            layout_posts user (List.length user_urls) 1 user_urls
              (content ++ user_section_heading user (List.length user_urls))
              post_infos in
          layout_users rest content' post_infos'
      end
  end.

(** [content[i] = x] for an index inside the list. *)
Fixpoint list_set (i : nat) (x : string) (l : list string) : list string :=
  match l, i with
  | [], _ => []
  | _ :: r, O => x :: r
  | y :: r, S i' => y :: list_set i' x r
  end.

Definition fetch_content (info : post_info) : M (option string) :=
  post_data <- fetch_post (info_url info) ;;
  match post_data with
  | Some f =>
      match format_as_markdown (data f) (source f) (info_url info) with
      | Ok markdown => ret (Some markdown)
      | Raise e => raise e
      end
  | None => ret None
  end.

(** The body of [for future in as_completed(futures)] for the future of
    [info], the fetch being run when its turn to complete comes. *)
Definition complete_one (info : post_info) (completed all : nat)
  (content : list string) : M (list string) :=
  try_except
    (markdown <- fetch_content info ;;
     match markdown with
     | Some ((String _ _) as text) =>
         log INFO (FetchedPost (info_user info) (info_index info)
                               (info_total info) completed all) ;;
         ret (list_set (section_start info) (rendered text) content)
     | _ =>
         ret (list_set (section_start info)
                       (unavailable (info_index info) (info_url info)) content)
     end)
    (fun e => log ERROR (ErrorFetching (info_url info) e) ;; ret content).

(** [order] lists the positions in [post_infos] of the futures in the order
    in which they complete. *)
Fixpoint complete_all (order : list nat) (post_infos : list post_info)
  (completed : nat) (content : list string) : M (list string) :=
  match order with
  | [] => ret content
  | k :: rest =>
      match nth_error post_infos k with
      | None => complete_all rest post_infos completed content
      | Some info =>
          content' <- complete_one info (S completed) (List.length post_infos)
                                   content ;;
          complete_all rest post_infos (S completed) content'
      end
  end.

Definition save_markdown (d : results) (timestamp : string) (order : list nat)
  : M unit :=
  let '(content, post_infos) := layout_users d (md_header timestamp d) [] in
  log INFO (FetchingContent (List.length post_infos)) ;;
  final <- complete_all order post_infos 0 content ;;
  write_md (PyStr.concat final) ;;
  log INFO MarkdownSaved.

(** *** CrawlHot *)

(** Where the process stands when the join gives up on a worker that
    started in [s] and whose run, if left to end, leads to [e]: the worker
    has done the first [done] events of its run and has brought the client to
    [restarts] and [handle]; the world is the one of [e], which the join has
    just set. The result files are those of [s]: the supervised function is
    the crawl of one profile, which writes neither. *)
Definition standing (s e : Sys World) (done : nat) (restarts : Z)
  (handle : option json) : Sys World :=
  mkSys (world e) restarts handle
        (trace s ++ firstn done (skipn (List.length (trace s)) (trace e)))
        (txt_file s) (md_file s).

(** [if exception[0]: self.logger.error(...); return []] and
    [return result]. *)
Definition supervisor_returns (result : list string) (exception : option exn)
  : M (list string) :=
  match exception with
  | Some e => log ERROR (ExceptionLine e) ;; ret []
  | None => ret result
  end.

(** [_retry_with_timeout(func, username, timeout)]. The worker thread runs
    [func] and fills [result] and [exception]; the timer overwrites
    [exception] when it fires; the host tells how the join ended. A worker
    that has returned by then has done all of [func]. A worker that is still
    running is not stopped: the supervisor returns from where the worker
    stands, with [result] still empty since the worker fills it when [func]
    returns; what the worker does after that is no longer part of the
    call. *)
Definition _retry_with_timeout (func : M (list string)) (username : string)
  (timeout : Z) : M (list string) :=
  fun s =>
    let '(outcome, s1) := func s in
    let worker_result :=
      match outcome with Ok l => l | Raise _ => [] end in
    let worker_exception :=
      match outcome with
      | Ok _ | Raise (NoPostsFoundError _) => None
      | Raise e => Some e
      end in
    let timed_out := CrawlTimeoutError username timeout in
    (r <- on_world (join_race timeout) ;;
     match r with
     | WorkerFirst => supervisor_returns worker_result worker_exception
     | TimerThenWorker =>
         supervisor_returns worker_result
           (Some (match worker_exception with Some e => e | None => timed_out end))
     | WorkerPending done restarts handle =>
         fun s2 =>
           supervisor_returns [] (Some timed_out)
                              (standing s s2 done restarts handle)
     end) s1.

(** One pass of the [for] loop of [_retry_crawl_user]. *)
Definition retry_pass (username : string) (attempt : Z) : M (flow (list string)) :=
  try_except
    (log DEBUG (AttemptNumber attempt (max_retries config)) ;;
     collected <- crawl_user username ;;
     ret (Return collected))
    (fun e =>
       match e with
       | NoPostsFoundError _ =>
           log INFO (NoPostsInWindow username) ;; ret (Return [])
       | _ =>
           log ERROR (AttemptFailed attempt e) ;;
           if attempt <? max_retries config then
             u <- on_world (random_uniform 1 3) ;;
             let wait_time := (u * inject_Z attempt)%Q in
             log WARN (RetryingIn wait_time) ;;
             sleep wait_time ;;
             ret Next
           else ret Next
       end).

(** [for attempt in range(attempt, attempt + remaining)] *)
Fixpoint retry_loop (remaining : nat) (username : string) (attempt : Z)
  : M (list string) :=
  match remaining with
  | O => log ERROR (AllAttemptsFailed username) ;; ret []
  | S remaining' =>
      f <- retry_pass username attempt ;;
      match f with
      | Return collected => ret collected
      | _ => retry_loop remaining' username (attempt + 1)
      end
  end.

Definition _retry_crawl_user (username : string) : M (list string) :=
  retry_loop (Z.to_nat (max_retries config)) username 1.

(** [crawl_single_user]; the body runs with [browser_lock] held. *)
Definition crawl_single_user (username : string) : M (list string) :=
  _retry_with_timeout (_retry_crawl_user username) username
                      (user_crawl_timeout config).

Fixpoint summary_lines (d : results) : M unit :=
  match d with
  | [] => ret tt
  | (user, user_urls) :: rest =>
      log INFO (SummaryUser user (List.length user_urls)) ;; summary_lines rest
  end.

Definition _print_summary (d : results) : M unit :=
  log INFO SummaryRule ;;
  log INFO SummaryTitle ;;
  log INFO SummaryRule ;;
  log INFO (SummaryTotalUsers (List.length d)) ;;
  log INFO (SummaryTotalPosts (total_posts_of d)) ;;
  log INFO SummaryBlank ;;
  summary_lines d ;;
  log INFO SummaryRule.

(** The body of [for future in as_completed(future_to_user)] for the future
    of [user]. With [browser_lock] held around each [crawl_single_user], the
    crawls run one after the other; the crawl of [user] is run when its turn
    to complete comes. *)
Definition handle_user (user : string) (completed_count total : nat)
  (all_results : results) : M results :=
  try_except
    (user_urls <- crawl_single_user user ;;
     append_user_results user user_urls completed_count total ;;
     (match user_urls with
      | _ :: _ => log INFO (UserPosts user (List.length user_urls)
                                      completed_count total)
      | [] => log WARN (UserNoPosts user completed_count total)
      end) ;;
     ret (results_set user user_urls all_results))
    (fun e =>
       log ERROR (FailedToCrawl user e) ;;
       append_user_results user [] completed_count total ;;
       ret (results_set user [] all_results)).

(** [order] lists the positions in [users] of the futures in the order in
    which they complete. *)
Fixpoint handle_all (order : list nat) (users : list string)
  (completed_count : nat) (all_results : results) : M results :=
  match order with
  | [] => ret all_results
  | k :: rest =>
      match nth_error users k with
      | None => handle_all rest users completed_count all_results
      | Some user =>
          all_results' <- handle_user user (S completed_count)
                                      (List.length users) all_results ;;
          handle_all rest users (S completed_count) all_results'
      end
  end.

Definition crawl_all_users (crawl_order fetch_order : list nat) : M results :=
  users <- load ;;
  match users with
  | [] => log WARN NoUsersToCrawl ;; ret []
  | _ =>
      timestamp <- on_world datetime_now ;;
      create_txt timestamp users ;;
      log INFO (StartingConcurrentCrawl (user_crawl_workers config)) ;;
      all_results <- handle_all crawl_order users 0 [] ;;
      finalize_txt (total_posts_of all_results) ;;
      save_markdown all_results timestamp fetch_order ;;
      _print_summary all_results ;;
      ret all_results
  end.

End Process.

(** ** A scripted host

    A host whose answers are read off lists fixed in advance, one item per
    call; it is the host of the closed examples below. *)

Module Scripted.

(** *** A reader for the JSON texts of the examples

    Blanks, [null], [true], [false], integers, strings with the
    one-character escapes, arrays and objects. Texts with fractions,
    exponents or [\u] escapes are outside what it reads and are answered with
    [None]; no example uses one. *)

Definition is_json_blank (c : ascii) : bool :=
  let n := nat_of_ascii c in
  ((n =? 32) || (n =? 9) || (n =? 10) || (n =? 13))%nat.

Definition skip_blanks (s : string) : string := PyStr.drop_while is_json_blank s.

Definition unescape (c : ascii) : option ascii :=
  let n := nat_of_ascii c in
  if (n =? 34)%nat then Some c
  else if (n =? 92)%nat then Some c
  else if (n =? 47)%nat then Some c
  else if (n =? 98)%nat then Some (ascii_of_nat 8)
  else if (n =? 102)%nat then Some (ascii_of_nat 12)
  else if (n =? 110)%nat then Some (ascii_of_nat 10)
  else if (n =? 114)%nat then Some (ascii_of_nat 13)
  else if (n =? 116)%nat then Some (ascii_of_nat 9)
  else None.

(** The characters of a string literal after its opening quote, and what
    follows the closing quote. *)
Fixpoint read_string (escaped : bool) (s : string) : option (string * string) :=
  match s with
  | EmptyString => None
  | String c r =>
      let n := nat_of_ascii c in
      if escaped then
        match unescape c, read_string false r with
        | Some c', Some (body, rest) => Some (String c' body, rest)
        | _, _ => None
        end
      else if (n =? 34)%nat then Some (EmptyString, r)
      else if (n =? 92)%nat then read_string true r
      else if (n <? 32)%nat then None
      else
        match read_string false r with
        | Some (body, rest) => Some (String c body, rest)
        | None => None
        end
  end.

(** An integer literal without sign: no leading zero before another digit,
    and no fraction or exponent after it. *)
Definition read_digits (s : string) : option (Z * string) :=
  let '(digits, rest) := PyStr.span PyStr.is_digit s in
  match digits with
  | EmptyString => None
  | String "0" (String _ _) => None
  | _ =>
      match rest with
      | String "." _ | String "e" _ | String "E" _ => None
      | _ => Some (PyStr.digits_val 0 digits, rest)
      end
  end.

Fixpoint read_value (fuel : nat) (s : string) : option (json * string) :=
  match fuel with
  | O => None
  | S fuel' =>
      let s := skip_blanks s in
      match s with
      | String "n" _ => option_map (pair JNull) (PyStr.drop_prefix "null" s)
      | String "t" _ => option_map (pair (JBool true)) (PyStr.drop_prefix "true" s)
      | String "f" _ => option_map (pair (JBool false)) (PyStr.drop_prefix "false" s)
      | String "[" r =>
          match skip_blanks r with
          | String "]" r' => Some (JArr [], r')
          | r' => option_map (fun '(l, rest) => (JArr l, rest)) (read_items fuel' r')
          end
      | String "{" r =>
          match skip_blanks r with
          | String "}" r' => Some (JObj [], r')
          | r' => option_map (fun '(kv, rest) => (JObj kv, rest)) (read_members fuel' r')
          end
      | String "-" r =>
          option_map (fun '(z, rest) => (JInt (- z), rest)) (read_digits r)
      | String c r =>
          if (nat_of_ascii c =? 34)%nat
          then option_map (fun '(body, rest) => (JStr body, rest)) (read_string false r)
          else option_map (fun '(z, rest) => (JInt z, rest)) (read_digits s)
      | EmptyString => None
      end
  end

with read_items (fuel : nat) (s : string) : option (list json * string) :=
  match fuel with
  | O => None
  | S fuel' =>
      match read_value fuel' s with
      | None => None
      | Some (v, rest) =>
          match skip_blanks rest with
          | String "," r =>
              option_map (fun '(l, rest') => (v :: l, rest')) (read_items fuel' r)
          | String "]" r => Some ([v], r)
          | _ => None
          end
      end
  end

with read_members (fuel : nat) (s : string) : option (dict * string) :=
  match fuel with
  | O => None
  | S fuel' =>
      match skip_blanks s with
      | String c r =>
          if (nat_of_ascii c =? 34)%nat then
            match read_string false r with
            | None => None
            | Some (key, rest) =>
                match skip_blanks rest with
                | String ":" r1 =>
                    match read_value fuel' r1 with
                    | None => None
                    | Some (v, rest1) =>
                        match skip_blanks rest1 with
                        | String "," r2 =>
                            option_map (fun '(kv, rest') => ((key, v) :: kv, rest'))
                                       (read_members fuel' r2)
                        | String "}" r2 => Some ([(key, v)], r2)
                        | _ => None
                        end
                    end
                | _ => None
                end
            end
          else None
      | EmptyString => None
      end
  end.

Definition loads (text : string) : option json :=
  match read_value (2 * String.length text + 4) text with
  | Some (v, rest) =>
      match skip_blanks rest with
      | EmptyString => Some v
      | _ => None
      end
  | None => None
  end.

(** *** The script *)

Record script : Type := mkScript {
  processes : list run_outcome;
  responses : list http_outcome;
  clock : list Q;
  randoms : list Q;
  races : list race;
  users_text : option string;
  now_text : string
}.

Definition next_process (_ : list string) (_ : Z) (w : script)
  : run_outcome * script :=
  match processes w with
  | [] => (RunFailure "script exhausted", w)
  | o :: rest =>
      (o, mkScript rest (responses w) (clock w) (randoms w) (races w)
                   (users_text w) (now_text w))
  end.

Definition next_response (_ : string) (_ : Z) (w : script)
  : http_outcome * script :=
  match responses w with
  | [] => (RequestFailure "script exhausted", w)
  | o :: rest =>
      (o, mkScript (processes w) rest (clock w) (randoms w) (races w)
                   (users_text w) (now_text w))
  end.

Definition next_time (w : script) : Q * script :=
  match clock w with
  | [] => (0%Q, w)
  | t :: rest =>
      (t, mkScript (processes w) (responses w) rest (randoms w) (races w)
                   (users_text w) (now_text w))
  end.

Definition next_random (a _ : Q) (w : script) : Q * script :=
  match randoms w with
  | [] => (a, w)
  | x :: rest =>
      (x, mkScript (processes w) (responses w) (clock w) rest (races w)
                   (users_text w) (now_text w))
  end.

Definition next_race (_ : Z) (w : script) : race * script :=
  match races w with
  | [] => (WorkerFirst, w)
  | r :: rest =>
      (r, mkScript (processes w) (responses w) (clock w) (randoms w) rest
                   (users_text w) (now_text w))
  end.

#[global] Instance host : Host script := {|
  subprocess_run := next_process;
  requests_get := next_response;
  time_time := next_time;
  random_uniform := next_random;
  datetime_now := fun w => (now_text w, w);
  read_users_file := users_text;
  join_race := next_race;
  json_loads := fun text =>
    match loads text with
    | Some v => Ok v
    | None => Raise JSONDecodeError
    end
|}.

(** A process that exits with code 0 and prints [out]. *)
Definition prints (out : string) : run_outcome := Completed (mkProc 0 out "").

(** The state of a fresh process on the world [w]. *)
Definition boot (w : script) : Sys script := mkSys w 0 None [] [] None.

(** The host on which every command fails and every request fails. *)
Definition quiet : script := mkScript [] [] [] [] [] None "".

(** *** The scripts of the examples *)

Definition quoted (text : string) : string := PyStr.dquote ++ text ++ PyStr.dquote.

Definition first_post : string := "https://x.com/a/status/1".
Definition second_post : string := "https://x.com/a/status/2".

(** The reply of [evaluate] with one URL, and with two. *)
Definition one_url : string := "[" ++ quoted first_post ++ "]".
Definition two_urls : string :=
  "[" ++ quoted first_post ++ ", " ++ quoted second_post ++ "]".

(** The reply of [navigate] with a handle. *)
Definition navigated : string :=
  "{" ++ quoted "ok" ++ ": true, " ++ quoted "targetId" ++ ": " ++ quoted "T1" ++ "}".

(** A clock that reads 2027-01-15 08:00:00 UTC. *)
Definition morning : Q := 1800000000.

(** A page open on a feed whose first pass shows one post and whose later
    passes show a second one. *)
Definition growing_feed : Sys script :=
  mkSys (mkScript [prints one_url; prints "true"; prints two_urls; prints "true";
                   prints two_urls; prints "true"; prints two_urls]
                  [] [morning] [] [] None "")
        0 (Some (JStr "T1")) [] [] None.

(** A browser that is up, a profile that shows one post on every pass, and a
    timer that fires before the worker returns. *)
Definition slow_profile : script :=
  mkScript [prints "enabled: true"; prints navigated; prints "true";
            prints one_url; prints "true"; prints one_url; prints "true";
            prints one_url]
           [] [morning; morning] [] [TimerThenWorker] None "".

(** The same profile, with a worker that is still running when the join
    gives up: it has logged its attempt and the start of the crawl and sent
    its first command. *)
Definition stuck_profile : script :=
  mkScript [prints "enabled: true"; prints navigated; prints "true";
            prints one_url; prints "true"; prints one_url; prints "true";
            prints one_url]
           [] [morning; morning] [] [WorkerPending 3 0 None] None "".


(** A browser whose [navigate] answers [true], with no handle. *)
Definition bare_navigate : script :=
  mkScript [prints "true"] [] [] [] [] None "".

(** A command that fails with the session-loss marker on its error stream. *)
Definition lost_session : CompletedProcess := mkProc 1 "" "Error: tab not found".

(** A client that has used its ten restarts, facing a lost session. *)
Definition spent_client : Sys script :=
  mkSys (mkScript [Completed lost_session] [] [] [] [] None "")
        10 (Some (JStr "T1")) [] [] None.

(** A list of two profiles with a comment line, on the quiet host. *)
Definition two_profiles : script :=
  mkScript [] [] [] [] []
           (Some ("alice" ++ PyStr.nl ++ "# friends" ++ PyStr.nl ++ "bob" ++ PyStr.nl))
           "2027-01-15 08:00:00".

(** A list whose lines end in [\r\n], [\r] and [\n], with a blank line, a
    comment, blanks around a name, and a name listed twice. *)
Definition mixed_list : script :=
  mkScript [] [] [] [] []
           (Some ("john doe" ++ PyStr.cr ++ PyStr.nl
                  ++ "  alice " ++ PyStr.cr
                  ++ PyStr.nl ++ "# friends" ++ PyStr.nl
                  ++ "john doe"))
           "2027-01-15 08:00:00".

(** A list of two profiles and a browser that serves one crawl, of a profile
    that shows one post on every pass, and then stops answering. *)
Definition one_success : script :=
  mkScript [prints "enabled: true"; prints navigated; prints "true";
            prints one_url; prints "true"; prints one_url; prints "true";
            prints one_url]
           [] [morning; morning] [] []
           (Some ("alice" ++ PyStr.nl ++ "# friends" ++ PyStr.nl ++ "bob" ++ PyStr.nl))
           "2027-01-15 08:00:00".

(** A primary source that answers with a post. *)
Definition answering : script :=
  mkScript [] [Response 200 (Some (JObj [("tweet", JObj [("text", JStr "hi")])]))]
           [] [] [] None "".

(** A primary source that answers 200 with a JSON text that is a string, not
    an object, before a secondary source that has the post. *)
Definition answering_with_text : script :=
  mkScript []
           [Response 200 (Some (JStr "down"));
            Response 200 (Some (JObj [("text", JStr "hi")]))]
           [] [] [] None "".

(** A line of [n] digits. *)
Fixpoint sevens (n : nat) : string :=
  match n with
  | O => EmptyString
  | S k => String "7" (sevens k)
  end.

(** A rendering that gives the same body for every payload. *)
Definition plain_body (_ : dict) (_ _ : string) : result string := Ok "BODY".

Definition alice_post : string := "https://x.com/alice/status/1".
Definition alice_results : list (string * list string) := [("alice", [alice_post])].

End Scripted.

(** ** Observations on runs, used in the statements *)

Section Observations.

Context {World : Type} {host : Host World}.
Variable config : Config.

Local Open Scope py_scope.

(** The state [s] with the events [evs] added to its trace. *)
Definition add_trace (s : Sys World) (evs : list event) : Sys World :=
  mkSys (world s) (restart_count s) (target_id s) (trace s ++ evs)
        (txt_file s) (md_file s).

(** The state [s] on another world. *)
Definition with_world (s : Sys World) (w : World) : Sys World :=
  mkSys w (restart_count s) (target_id s) (trace s) (txt_file s) (md_file s).

(** The state [s] with the chunks [chunks] appended to the result file. *)
Definition add_txt (s : Sys World) (chunks : list string) : Sys World :=
  mkSys (world s) (restart_count s) (target_id s) (trace s)
        (txt_file s ++ chunks) (md_file s).

(** The profiles at the positions listed in [order]. *)
Definition picked (users : list string) (order : list nat) : list string :=
  flat_map (fun k => match nth_error users k with
                     | Some user => [user]
                     | None => []
                     end) order.

Definition is_log (e : event) : bool :=
  match e with Log _ _ => true | _ => false end.

(** The URLs requested over HTTP, in order. *)
Fixpoint gets (evs : list event) : list string :=
  match evs with
  | [] => []
  | Get url _ :: rest => url :: gets rest
  | _ :: rest => gets rest
  end.

Definition stop_command : list string := ["openclaw"; "browser"; "stop"].

Fixpoint same_args (a b : list string) : bool :=
  match a, b with
  | [], [] => true
  | x :: a', y :: b' => String.eqb x y && same_args a' b'
  | _, _ => false
  end.

Definition is_stop (e : event) : bool :=
  match e with
  | Cmd args _ => same_args args stop_command
  | _ => false
  end.

(** The restarts performed so far: the stop commands sent. *)
Definition restarts_performed (s : Sys World) : Z :=
  Z.of_nat (List.length (filter is_stop (trace s))).

(** The runs of the command [cmd] by [_execute_action], which gives every
    command 30 seconds. *)
Definition is_run (cmd : list string) (e : event) : bool :=
  match e with
  | Cmd args timeout => same_args args cmd && (timeout =? 30)
  | _ => false
  end.

Definition commands_run (cmd : list string) (s : Sys World) : Z :=
  Z.of_nat (List.length (filter (is_run cmd) (trace s))).

Definition not_run (cmd : list string) (e : event) : bool := negb (is_run cmd e).

Definition runs_are (cmd : list string) (n : Z) (s : Sys World) : Prop :=
  commands_run cmd s = n.

(** The commands the client sends on its own account: stop, start and
    status. [navigate], [evaluate] and [press] send none of them. *)
Definition is_service (cmd : list string) : bool :=
  same_args stop_command cmd
  || same_args ["openclaw"; "browser"; "start"] cmd
  || same_args ["openclaw"; "browser"; "status"] cmd.

(** Calls of the public methods of a [BrowserClient]. *)
Inductive call : Type :=
| CallNavigate (url : string)
| CallEvaluate (js_code : string)
| CallPress (key : string)
| CallCheckStatus
| CallEnsureAvailable
| CallWaitForContentLoaded (timeout : Z).

(** One call, whatever it returns or raises. *)
Definition run_call (c : call) : M World unit :=
  try_except
    (match c with
     | CallNavigate url => navigate config url ;; ret tt
     | CallEvaluate js_code => evaluate config js_code ;; ret tt
     | CallPress key => press config key ;; ret tt
     | CallCheckStatus => check_status ;; ret tt
     | CallEnsureAvailable => ensure_available ;; ret tt
     | CallWaitForContentLoaded timeout =>
         wait_for_content_loaded config timeout ;; ret tt
     end)
    (fun _ => ret tt).

Fixpoint run_history (h : list call) : M World unit :=
  match h with
  | [] => ret tt
  | c :: rest => run_call c ;; run_history rest
  end.

(** [evaluate] called on each script in turn. *)
Fixpoint evaluate_each (codes : list string) : M World (list json) :=
  match codes with
  | [] => ret []
  | js_code :: rest =>
      v <- evaluate config js_code ;;
      vs <- evaluate_each rest ;;
      ret (v :: vs)
  end.

(** The attempts started by [_retry_crawl_user], read off the log. *)
Definition is_attempt (e : event) : bool :=
  match e with Log DEBUG (AttemptNumber _ _) => true | _ => false end.

Definition attempts_started (evs : list event) : nat :=
  List.length (filter is_attempt evs).

(** The log lines written all over the script, as opposed to the two that
    mark a point of a loop: the announcement of a recovery and the start of
    an attempt. *)
Definition ordinary (m : message) : Prop :=
  match m with
  | DetectedTabNotFound | AttemptNumber _ _ => False
  | _ => True
  end.



(** The chunks [append_user_results] writes for one profile. *)
Definition user_entry (user : string) (user_urls : list string)
  (current total : nat) : list string :=
  user_heading user (List.length user_urls) current total
    :: map (fun u => u ++ PyStr.nl) user_urls ++ [PyStr.nl].

(** The chunks written for the profiles in [done], the first of them being
    number [completed + 1]. *)
Fixpoint user_entries (completed total : nat) (done : list (string * list string))
  : list string :=
  match done with
  | [] => []
  | (user, user_urls) :: rest =>
      user_entry user user_urls (S completed) total
        ++ user_entries (S completed) total rest
  end.


(** [config] with the early-stop heuristic switched to [b]. *)
Definition with_early_stop (b : bool) (c : Config) : Config :=
  mkConfig (page_load_timeout c) (scroll_check_interval c)
           (scroll_max_attempts c) (scroll_no_new_threshold c)
           (scroll_max_consecutive_errors c) b (user_crawl_timeout c)
           (max_retries c) (browser_action_max_attempts c)
           (content_fetch_workers c) (user_crawl_workers c)
           (browser_max_restarts c) (browser_restart_backoff c).

Definition keeps {A} (P : Sys World -> Prop) (m : M World A) : Prop :=
  forall s, P s -> P (snd (m s)).

Definition not_stop (e : event) : bool := negb (is_stop e).

Definition any_event (_ : event) : bool := true.

(** The counter of the client agrees with the stop commands sent and stays
    within the limit. *)
Definition budget_inv (s : Sys World) : Prop :=
  restarts_performed s = restart_count s
  /\ restart_count s <= browser_max_restarts config.

(** A restart has been counted and its stop command is still to be sent. *)
Definition budget_pending (s : Sys World) : Prop :=
  restarts_performed s + 1 = restart_count s
  /\ restart_count s <= browser_max_restarts config.

(** The state of a client right after [__init__], on the world [w]. *)
Definition fresh (w : World) : Sys World := mkSys w 0 None [] [] None.

Definition is_detection (e : event) : bool :=
  match e with Log WARN DetectedTabNotFound => true | _ => false end.

(** The recoveries attempted so far: each call of [_restart_browser] from
    [_execute_action] follows the warning that announces it. *)
Definition recoveries_attempted (s : Sys World) : Z :=
  Z.of_nat (List.length (filter is_detection (trace s))).

Definition not_detection (e : event) : bool := negb (is_detection e).

Definition recoveries_are (n : Z) (s : Sys World) : Prop :=
  recoveries_attempted s = n.

Definition syndication_url (tweet_id : string) : string :=
  "https://cdn.syndication.twimg.com/tweet-result?id=" ++ tweet_id ++ "&token=0".





(** Every post submitted so far has its heading at [section_start] and the
    line that says its content is being fetched right after it. *)
Definition laid_out (content : list string) (post_infos : list post_info) : Prop :=
  forall info, In info post_infos ->
    nth_error content (section_start info) = Some (post_heading (info_index info))
    /\ nth_error content (S (section_start info)) = Some fetching_line.

Definition still_fetching (content : list string) (post_infos : list post_info)
  : Prop :=
  forall info, In info post_infos ->
    nth_error content (S (section_start info)) = Some fetching_line.

Definition txt_is (t : list string) (s : Sys World) : Prop := txt_file s = t.

(** The line the scheduler logs for a profile that has been handled. *)
Definition progress_line (user : string) (user_urls : list string)
  (completed total : nat) : event :=
  match user_urls with
  | _ :: _ => Log INFO (UserPosts user (List.length user_urls) completed total)
  | [] => Log WARN (UserNoPosts user completed total)
  end.

(** The three chunks [create_txt] writes and the two [finalize_txt] writes. *)
Definition txt_header (timestamp : string) (users : list string) : list string :=
  [ append "# Crawl Results - " (append timestamp PyStr.nl);
    append "# Total users: " (append (PyStr.of_nat (List.length users)) PyStr.nl);
    append "# Started at: " (append timestamp (append PyStr.nl PyStr.nl)) ].

Definition txt_footer (now : string) (total_posts : nat) : list string :=
  [ append PyStr.nl (append "# Completed at: " (append now PyStr.nl));
    append "# Total posts: " (append (PyStr.of_nat total_posts) PyStr.nl) ].

(** The entry of a profile in the result file, as the scheduler is to leave
    it: the heading with the name, the number of posts and the counter
    [current/total], one line per URL, and an empty line. *)
Definition entry_text (user : string) (user_urls : list string)
  (current total : nat) : list string :=
  append "# @"
    (append user
       (append " ("
          (append (PyStr.of_nat (List.length user_urls))
             (append " posts) - ["
                (append (PyStr.of_nat current)
                   (append "/" (append (PyStr.of_nat total) (append "]" PyStr.nl))))))))
    :: map (fun url => append url PyStr.nl) user_urls ++ [PyStr.nl].

(** The entries of the profiles in [done], the first of them being number
    [completed + 1]. *)
Fixpoint entries_text (completed total : nat) (done : list (string * list string))
  : list string :=
  match done with
  | [] => []
  | (user, user_urls) :: rest =>
      entry_text user user_urls (S completed) total
        ++ entries_text (S completed) total rest
  end.

(** The state in which the scheduler starts on the profiles, after [load]
    left [s0]: the clock has been read, the result file holds its header and
    two lines have been logged. *)
Definition crawl_start (users : list string) (s0 : Sys World) : Sys World :=
  mkSys (snd (datetime_now (world s0))) (restart_count s0) (target_id s0)
        ((trace s0 ++ [Log INFO CreatedTxt])
           ++ [Log INFO (StartingConcurrentCrawl (user_crawl_workers config))])
        (txt_header (fst (datetime_now (world s0))) users) (md_file s0).

(** [scheduled users total k s order done s']: from the state [s], with [k]
    profiles handled so far, the profiles at the positions [order] are
    handled one after the other and the state is then [s']. Each profile is
    crawled by [crawl_single_user] in the state its turn finds; [done] lists
    the profiles with the URLs their crawls returned; right after the crawl
    of a profile its entry is appended to the result file with the counter,
    and one line is logged. *)
Inductive scheduled (users : list string) (total : nat)
  : nat -> Sys World -> list nat -> list (string * list string) -> Sys World -> Prop :=
| scheduled_end (k : nat) (s : Sys World) : scheduled users total k s [] [] s
| scheduled_skip (k : nat) (s s' : Sys World) (i : nat) (order : list nat)
    (done : list (string * list string)) :
    nth_error users i = None ->
    scheduled users total k s order done s' ->
    scheduled users total k s (i :: order) done s'
| scheduled_step (k : nat) (s s1 s' : Sys World) (i : nat) (order : list nat)
    (done : list (string * list string)) (user : string)
    (user_urls : list string) :
    nth_error users i = Some user ->
    crawl_single_user config user s = (Ok user_urls, s1) ->
    scheduled users total (S k)
      (add_trace (add_txt s1 (entry_text user user_urls (S k) total))
                 [progress_line user user_urls (S k) total])
      order done s' ->
    scheduled users total k s (i :: order) ((user, user_urls) :: done) s'.

End Observations.

(** ** UserManager, the methods that write

    [load] reads the list of profiles; [add] and [remove] rewrite it. *)

(** A host whose [users.txt] can be written: the file then holds the text
    last written. *)
Class UsersFile (World : Type) {host : Host World} : Type := {
  write_users_file : string -> World -> World;
  read_after_write :
    forall (text : string) (w : World),
      read_users_file (write_users_file text w) = Some text
}.

(** The lines these methods log, one constructor per call of the logger. *)
Inductive user_line : Type :=
| UserAlreadyExists (username : string)
| AddedUser (username : string)
| UserNotFound (username : string)
| RemovedUser (username : string)
| SavedUsers (n : nat).

Module UserManager.

Section Methods.

Context {World : Type} {host : Host World} {file : UsersFile World}.

Local Open Scope py_scope.

(** The text [_save] writes: each name followed by a newline. *)
Definition render (users : list string) : string :=
  PyStr.concat (map (fun user => user ++ PyStr.nl) users).

(** [_save]; the lines a method logs are returned, in order, as its value. *)
Definition _save (users : list string) : M World (list (level * user_line)) :=
  on_world (fun w => (tt, write_users_file (render users) w)) ;;
  ret [(INFO, SavedUsers (List.length users))].

Definition add (username : string) : M World (list (level * user_line)) :=
  users <- load ;;
  if mem username users then ret [(WARN, UserAlreadyExists username)]
  else
    saved <- _save (users ++ [username])%list ;;
    ret (saved ++ [(INFO, AddedUser username)])%list.

(** [users.remove(username)]: the first occurrence goes. *)
Fixpoint remove_first (username : string) (users : list string) : list string :=
  match users with
  | [] => []
  | user :: rest =>
      if String.eqb username user then rest
      else user :: remove_first username rest
  end.

Definition remove (username : string) : M World (list (level * user_line)) :=
  users <- load ;;
  if negb (mem username users) then ret [(WARN, UserNotFound username)]
  else
    saved <- _save (remove_first username users) ;;
    ret (saved ++ [(INFO, RemovedUser username)])%list.

End Methods.

End UserManager.

(** The scripted host keeps the text written in [users_text]. *)
#[global] Instance scripted_users_file : UsersFile Scripted.script := {|
  write_users_file := fun text w =>
    Scripted.mkScript (Scripted.processes w) (Scripted.responses w)
                      (Scripted.clock w) (Scripted.randoms w) (Scripted.races w)
                      (Some text) (Scripted.now_text w);
  read_after_write := fun _ _ => eq_refl
|}.

(** ** A steady host

    A browser that is up and answers every command in the same way: a
    [navigate] gets a handle, any other command the same list of one URL.
    The clock stands still. *)

Module Steady.

Definition answer (args : list string) : run_outcome :=
  let verb := nth 2 args "" in
  if String.eqb verb "status" then Scripted.prints "enabled: true"
  else if String.eqb verb "navigate" then Scripted.prints Scripted.navigated
  else Scripted.prints Scripted.one_url.

#[global] Instance host : Host unit := {|
  subprocess_run := fun args _ w => (answer args, w);
  requests_get := fun _ _ w => (RequestFailure "offline", w);
  time_time := fun w => (0%Q, w);
  random_uniform := fun a _ w => (a, w);
  datetime_now := fun w => ("", w);
  read_users_file := fun _ => None;
  join_race := fun _ w => (WorkerFirst, w);
  json_loads := fun text =>
    match Scripted.loads text with
    | Some v => Ok v
    | None => Raise JSONDecodeError
    end
|}.

End Steady.

(** ** Further observations *)

Section MoreObservations.

Context {World : Type} {host : Host World}.
Variable config : Config.

(** [m] never raises. *)
Definition safe {A} (m : M World A) : Prop :=
  forall s, exists a s', m s = (Ok a, s').

(** Whenever [m] returns a value, the value satisfies [Q]. *)
Definition yields {A} (Q : A -> Prop) (m : M World A) : Prop :=
  forall s, match fst (m s) with Ok a => Q a | Raise _ => True end.

(** A reply of the control surface as the client hands it on. *)
Definition acknowledged (reply : option dict) : Prop :=
  match reply with
  | Some d => truthy (dict_get "ok" d) = true
  | None => True
  end.

Definition acknowledged_flow (f : flow (option dict)) : Prop :=
  match f with
  | Return reply => acknowledged reply
  | _ => True
  end.

(** [p] holds of the first character of [s], if there is one. *)
Definition ahead (p : ascii -> bool) (s : string) : bool :=
  match s with
  | String c _ => p c
  | EmptyString => true
  end.

Definition no_dot (c : ascii) : bool := negb (Ascii.eqb c ".").

(** The permalink of a post as the page script builds it. *)
Definition permalink (site user tweet_id : string) : string :=
  "https://" ++ site ++ "/" ++ user ++ "/status/" ++ tweet_id.

(** A printable ASCII character other than the blank. *)
Definition is_plain (c : ascii) : bool :=
  let n := nat_of_ascii c in ((33 <=? n)%nat && (n <=? 126)%nat).

(** A profile name as the list file holds it: not empty, made of plain
    characters, not a comment. *)
Definition plain_name (user : string) : bool :=
  negb (PyStr.is_empty user) && PyStr.all_chars is_plain user
  && negb (PyStr.startswith "#" user).

(** A name that a line of the list file can hold: not empty, no blank at
    either end, no line break inside, not a comment. *)
Definition listable (user : string) : bool :=
  negb (PyStr.is_empty user)
  && ahead (fun c => negb (PyStr.is_space c)) user
  && ahead (fun c => negb (PyStr.is_space c)) (PyStr.rev user)
  && PyStr.all_chars (fun c => negb (PyStr.is_line_break c)) user
  && negb (PyStr.startswith "#" user).

(** The strings a pass of the collector goes through for a value returned by
    [evaluate], when it goes through any. *)
Definition page_items (result : json) : option (list string) :=
  match result with
  | JArr l => all_strings l
  | JStr text =>
      match json_loads text with
      | Ok page_urls =>
          match iterate page_urls with
          | Ok items => Some items
          | Raise _ => None
          end
      | Raise _ => None
      end
  | _ => None
  end.

(** An exception of [json.loads] that [except json.JSONDecodeError] lets
    through. *)
Definition left_uncaught (e : exn) : Prop :=
  e <> JSONDecodeError /\ exists text : string, json_loads text = Raise e.

(** Whenever [m] raises, the exception satisfies [E]. *)
Definition raises_only {A} (E : exn -> Prop) (m : M World A) : Prop :=
  forall s, match fst (m s) with Ok _ => True | Raise e => E e end.




(** No page lists a URL twice. *)
Definition pages_are_distinct : Prop :=
  forall (js_code : string) (s s' : Sys World) (v : json) (items : list string),
    evaluate config js_code s = (Ok v, s') ->
    page_items v = Some items ->
    NoDup items.

(** The invariant of the collector: what was seen is what was collected,
    and nothing was collected twice. *)
Definition collected_once (st : scroll_state) : Prop :=
  seen_ids st = urls st /\ NoDup (urls st).

Definition handle_is (t : option json) (s : Sys World) : Prop := target_id s = t.

(** The page scripts sent: the [evaluate] commands. *)
Definition is_evaluate (e : event) : bool :=
  match e with
  | Cmd args _ => String.eqb (nth 2 args "") "evaluate"
  | _ => false
  end.

Definition not_evaluate (e : event) : bool := negb (is_evaluate e).

Definition scripts_sent (s : Sys World) : Z :=
  Z.of_nat (List.length (filter is_evaluate (trace s))).

Definition scripts_are (n : Z) (s : Sys World) : Prop := scripts_sent s = n.

(** [m] sends at most [b] page scripts, whether it returns or raises. *)
Definition sends_at_most {A} (b : Z) (m : M World A) : Prop :=
  forall s, scripts_sent (snd (m s)) <= scripts_sent s + b.

Definition is_cmd (e : event) : bool :=
  match e with Cmd _ _ => true | _ => false end.

Definition not_cmd (e : event) : bool := negb (is_cmd e).

(** The fields of the client and the commands sent so far. *)
Definition browser_is (n : Z) (t : option json) (cmds : list event)
  (s : Sys World) : Prop :=
  restart_count s = n /\ target_id s = t /\ filter is_cmd (trace s) = cmds.

(** The number of HTTP requests made so far. *)
Definition requests_made (s : Sys World) : nat := List.length (gets (trace s)).

(** [m] makes at most [b] HTTP requests, whether it returns or raises. *)
Definition requests_at_most {A} (b : nat) (m : M World A) : Prop :=
  forall s, (requests_made (snd (m s)) <= requests_made s + b)%nat.

(** The client's own fields and the stop commands sent. *)
Definition client_is (n : Z) (t : option json) (stops : Z) (s : Sys World) : Prop :=
  restart_count s = n /\ target_id s = t /\ restarts_performed s = stops.

End MoreObservations.

(** * Properties *)

Section Parser.

Context {World : Type} {host : Host World}.

Local Open Scope py_scope.

(** The parser touches nothing but the log: on every output it returns a
    result and a list of log lines that do not depend on the state. *)
Lemma parse_output_run (output : string) :
  exists (r : result (option dict)) (evs : list event),
    forallb is_log evs = true /\
    forall s : Sys World, _parse_output output s = (r, add_trace s evs).
Proof.
  unfold _parse_output.
  set (lines := PyStr.split PyStr.nl (PyStr.strip output)).
  destruct (scan_lines 0 lines) as [i | d | | ].
  - assert (Hraise : forall e : exn,
              exists (r : result (option dict)) (evs : list event),
                forallb is_log evs = true /\
                forall s : Sys World, raise e s = (r, add_trace s evs)).
    { intro e. exists (Raise e), []. split; [reflexivity | ].
      intros [w c t tr tx md]. unfold raise, add_trace. cbn. now rewrite app_nil_r. }
    destruct (merge_lines _ _) as [[json_text [d | ]] | e]; [ | | apply Hraise ].
    + exists (Ok (Some d)), []. split; [reflexivity | ].
      intros [w c t tr tx md]. unfold ret, add_trace. cbn. now rewrite app_nil_r.
    + destruct (json_loads json_text) as [response | e].
      * exists (Ok (Some (wrap_response response))), []. split; [reflexivity | ].
        intros [w c t tr tx md]. unfold ret, add_trace. cbn. now rewrite app_nil_r.
      * destruct e; try apply Hraise.
        exists (Ok None),
          [Log WARN (FailedToParseJSON (PyStr.take 100 json_text));
           Log DEBUG (CannotFindValidOutput (firstn 10 lines))].
        split; [reflexivity | ].
        intros [w c t tr tx md]. unfold add_trace, bind, log, emit, ret. cbn.
        now rewrite <- app_assoc.
  - exists (Ok (Some d)), []. split; [reflexivity | ].
    intros [w c t tr tx md]. unfold ret, add_trace. cbn. now rewrite app_nil_r.
  - exists (Raise ValueError), []. split; [reflexivity | ].
    intros [w c t tr tx md]. unfold raise, add_trace. cbn. now rewrite app_nil_r.
  - exists (Ok None), [Log DEBUG (CannotFindValidOutput (firstn 10 lines))].
    split; [reflexivity | ].
    intros [w c t tr tx md]. reflexivity.
Qed.

(** C9. The value [_parse_output] returns is a function of the raw text
    alone: it is the same from any two states of the client, it is the same
    when the parser is run a second time on the state the first run left,
    and a run changes no field of the state other than the log. *)
Theorem parse_output_pure (output : string) (s1 s2 : Sys World) :
  fst (_parse_output output s1) = fst (_parse_output output s2)
  /\ fst (_parse_output output (snd (_parse_output output s1)))
     = fst (_parse_output output s1)
  /\ world (snd (_parse_output output s1)) = world s1
  /\ restart_count (snd (_parse_output output s1)) = restart_count s1
  /\ target_id (snd (_parse_output output s1)) = target_id s1
  /\ txt_file (snd (_parse_output output s1)) = txt_file s1
  /\ md_file (snd (_parse_output output s1)) = md_file s1.
Proof.
  destruct (parse_output_run output) as (r & evs & _ & H).
  rewrite !H. cbn. repeat split; reflexivity.
Qed.

Lemma merge_lines_raises (rest : list string) (json_text : string) (e : exn) :
  merge_lines json_text rest = Raise e -> left_uncaught e.
Proof.
  revert json_text. induction rest as [ | line rest IH]; intro json_text;
    cbn [merge_lines]; [ discriminate | ].
  destruct (json_loads _) as [response | e'] eqn:E; [ discriminate | ].
  destruct e'; try apply IH;
    (intro H; inversion H; subst e; split; [ discriminate | eexists; exact E ]).
Qed.

(** What the parser returns, by what the scan of the lines ends with: a
    bare [true], [false] or integer line gives its value without any call of
    [json.loads]; an output with no payload gives [None]; from a line that
    starts a JSON value the parser returns, a value or [None], or raises what
    [json.loads] raised other than [json.JSONDecodeError]; [ValueError] comes
    from [int] on a line that [lstrip('-').isdigit()] let through. *)
Lemma parse_output_outcome (output : string) (s : Sys World) :
  match scan_lines 0 (PyStr.split PyStr.nl (PyStr.strip output)) with
  | Scalar d => fst (_parse_output output s) = Ok (Some d)
  | IntRaises => fst (_parse_output output s) = Raise ValueError
  | NoStart => fst (_parse_output output s) = Ok None
  | JsonStart _ =>
      match fst (_parse_output output s) with
      | Ok _ => True
      | Raise e => left_uncaught e
      end
  end.
Proof.
  unfold _parse_output.
  destruct (scan_lines 0 _) as [i | d | | ]; try reflexivity.
  destruct (merge_lines _ _) as [[json_text [d | ]] | e] eqn:Em; [ exact I | | ].
  - destruct (json_loads json_text) as [response | e] eqn:E; [ exact I | ].
    destruct e; try exact I; cbn; (split; [ discriminate | eexists; exact E ]).
  - cbn. exact (merge_lines_raises _ _ _ Em).
Qed.

(** A line with a decorative prefix is passed over. *)
Lemma scan_skips_decorative (i : nat) (line : string) (rest : list string) :
  PyStr.startswith_any decorative_prefixes (PyStr.strip line) = true ->
  scan_lines i (line :: rest) = scan_lines (S i) rest.
Proof. intro H. cbn [scan_lines]. now rewrite H. Qed.

(** Scalars after decorated lines, on any host. *)
Example parse_output_decorated (s : Sys World) :
  _parse_output ("│ openclaw" ++ PyStr.nl ++ "◇ done" ++ PyStr.nl ++ "-42") s
  = (Ok (Some (ok_result (JInt (-42)))), s)
  /\ _parse_output "false" s = (Ok (Some (ok_result (JBool false))), s).
Proof. split; reflexivity. Qed.

(** C8 (failing input). On the output [--5] the parser raises [ValueError]:
    the line passes the test [lstrip('-').isdigit()] and [int] rejects it. *)
Theorem parse_output_double_minus (s : Sys World) :
  _parse_output "--5" s = (Raise ValueError, s).
Proof. reflexivity. Qed.

End Parser.

(** ** Properties kept by every step

    [keeps P m]: from a state where [P] holds, [m] ends, with a value or an
    exception, in a state where [P] holds. *)

Section Keeps.

Context {World : Type} {host : Host World}.
Variable config : Config.
Variable format_as_markdown : dict -> string -> string -> result string.

Local Open Scope py_scope.

Variable P : Sys World -> Prop.
Variable allowed : event -> bool.

Hypothesis P_event :
  forall s e, allowed e = true -> P s -> P (add_trace s [e]).
Hypothesis P_world : forall s w, P s -> P (with_world s w).
Hypothesis P_target : forall s v, P s -> P (snd (set_target_id v s)).
Hypothesis logs_allowed :
  forall lv m, ordinary m -> allowed (Log lv m) = true.
Hypothesis sleeps_allowed : forall d, allowed (Sleep d) = true.
Hypothesis gets_allowed : forall url t, allowed (Get url t) = true.
Hypothesis P_standing :
  forall s e done restarts handle,
    P s -> P e -> P (standing s e done restarts handle).

Lemma keeps_ret {A} (a : A) : keeps P (ret a).
Proof. intros s H. exact H. Qed.

Lemma keeps_raise {A} (e : exn) : keeps P (@raise World A e).
Proof. intros s H. exact H. Qed.

Lemma keeps_bind {A B} (m : M World A) (k : A -> M World B) :
  keeps P m -> (forall a, keeps P (k a)) -> keeps P (bind m k).
Proof.
  intros Hm Hk s H. unfold bind. specialize (Hm s H).
  destruct (m s) as [[a | e] s']; cbn in *; [now apply Hk | exact Hm].
Qed.

Lemma keeps_try {A} (m : M World A) (h : exn -> M World A) :
  keeps P m -> (forall e, keeps P (h e)) -> keeps P (try_except m h).
Proof.
  intros Hm Hh s H. unfold try_except. specialize (Hm s H).
  destruct (m s) as [[a | e] s']; cbn in *; [exact Hm | now apply Hh].
Qed.

Lemma keeps_try_json {A} (m h : M World A) :
  keeps P m -> keeps P h -> keeps P (try_except_json m h).
Proof.
  intros Hm Hh s H. unfold try_except_json. specialize (Hm s H).
  destruct (m s) as [[a | e] s']; cbn [snd] in *; [ exact Hm | ].
  destruct e; try exact Hm. now apply Hh.
Qed.

Lemma keeps_emit (e : event) : allowed e = true -> keeps P (emit e).
Proof. intros He s H. now apply (P_event s e). Qed.

Lemma keeps_log (lv : level) (m : message) :
  ordinary m -> keeps P (log lv m).
Proof. intro H. now apply keeps_emit, logs_allowed. Qed.

Lemma keeps_sleep (d : Q) : keeps P (sleep d).
Proof. apply keeps_emit, sleeps_allowed. Qed.

Lemma keeps_on_world {A} (f : World -> A * World) : keeps P (on_world f).
Proof.
  intros s H. unfold on_world. destruct (f (world s)) as [a w] eqn:E.
  now apply (P_world s w).
Qed.

Lemma keeps_get_restart_count : keeps P get_restart_count.
Proof. intros s H. exact H. Qed.

Lemma keeps_get_target_id : keeps P get_target_id.
Proof. intros s H. unfold get_target_id. now destruct (target_id s). Qed.

Lemma keeps_set_target_id (v : json) : keeps P (set_target_id v).
Proof. intros s H. now apply P_target. Qed.

(** One step of a proof that a method keeps [P]: the rule of the construct
    at the head, or a case split on what a [match] inspects. *)
Local Ltac keeps_step :=
  first
    [ apply keeps_ret | apply keeps_raise | apply keeps_log; exact I
    | apply keeps_sleep
    | apply keeps_on_world | apply keeps_get_restart_count
    | apply keeps_get_target_id | apply keeps_set_target_id
    | apply keeps_emit; solve [ auto ]
    | solve [ auto ]
    | apply keeps_bind; [ | intro ]
    | apply keeps_try; [ | intro ]
    | match goal with
      | |- keeps _ (match ?x with _ => _ end) => destruct x
      | |- keeps _ (if ?x then _ else _) => destruct x
      end ].

Local Ltac keeps_auto := repeat keeps_step.

Lemma keeps_run_command (args : list string) (timeout : Z) :
  allowed (Cmd args timeout) = true -> keeps P (_run_command args timeout).
Proof. intro H. unfold _run_command. keeps_auto. Qed.

Lemma keeps_parse_output (output : string) : keeps P (_parse_output output).
Proof.
  unfold _parse_output.
  destruct (scan_lines 0 _);
    [ destruct (merge_lines _ _) as [[? [? | ]] | ?] | .. ];
    keeps_auto.
Qed.

Hypothesis status_allowed :
  forall t, allowed (Cmd ["openclaw"; "browser"; "status"] t) = true.
Hypothesis start_allowed :
  forall t, allowed (Cmd ["openclaw"; "browser"; "start"] t) = true.

Lemma keeps_check_status : keeps P check_status.
Proof.
  unfold check_status. apply keeps_try; [ | intro; apply keeps_ret ].
  apply keeps_bind; [ apply keeps_run_command, status_allowed | intro; apply keeps_ret ].
Qed.

(** The restart, when the stop command and the counter do not matter to [P]. *)
Lemma keeps_restart_when_free :
  (forall t, allowed (Cmd stop_command t) = true) ->
  (forall s n, P s -> P (snd (set_restart_count n s))) ->
  keeps P (_restart_browser config).
Proof.
  intros Hstop Hcount. unfold _restart_browser.
  apply keeps_bind; [ apply keeps_get_restart_count | intro count ].
  destruct (_ <=? _); [ keeps_auto | ].
  apply keeps_bind; [ intros s H; now apply Hcount | intro ].
  apply keeps_bind; [ apply keeps_log; exact I | intro ].
  apply keeps_try; [ | intro; keeps_auto ].
  apply keeps_bind; [ apply keeps_log; exact I | intro ].
  apply keeps_bind; [ apply keeps_run_command, Hstop | intro ].
  apply keeps_bind; [ apply keeps_sleep | intro ].
  apply keeps_bind; [ apply keeps_log; exact I | intro ].
  apply keeps_bind; [ apply keeps_run_command, start_allowed | intro ].
  apply keeps_bind; [ apply keeps_sleep | intro ].
  apply keeps_bind; [ apply keeps_check_status | intros [ | ] ]; keeps_auto.
Qed.

Hypothesis P_restart : keeps P (_restart_browser config).
Hypothesis detection_allowed : allowed (Log WARN DetectedTabNotFound) = true.

Lemma keeps_handle_result (attempt : Z) (result : CompletedProcess) :
  keeps P (handle_result config attempt result).
Proof.
  unfold handle_result.
  assert (Hcheck : keeps P
    (if returncode result =? 0
     then parsed <- _parse_output (stdout result) ;; ret (Return parsed)
     else log ERROR (CommandFailed (stderr result)) ;; ret (Return None))).
  { destruct (_ =? _).
    - apply keeps_bind; [ apply keeps_parse_output | intro; apply keeps_ret ].
    - keeps_auto. }
  destruct (_check_tab_not_found result); [ | exact Hcheck ].
  destruct (_ <? _); [ | exact Hcheck ].
  apply keeps_bind; [ apply keeps_emit, detection_allowed | intro ].
  apply keeps_bind; [ exact P_restart | intros [ | ] ]; apply keeps_ret.
Qed.

Lemma keeps_attempt_body (attempt : Z) (cmd : list string) :
  allowed (Cmd cmd 30) = true -> keeps P (attempt_body config attempt cmd).
Proof.
  intro Hcmd. unfold attempt_body.
  apply keeps_bind; [ now apply keeps_run_command | intro result ].
  apply keeps_handle_result.
Qed.

Lemma keeps_attempt_handler (e : exn) : keeps P (attempt_handler e).
Proof. unfold attempt_handler. destruct e; keeps_auto. Qed.

Lemma keeps_execute_attempts (remaining : nat) (attempt : Z) (cmd : list string) :
  allowed (Cmd cmd 30) = true ->
  keeps P (execute_attempts config remaining attempt cmd).
Proof.
  intro Hcmd. revert attempt.
  induction remaining as [ | n IH]; intro attempt; cbn [execute_attempts].
  - apply keeps_ret.
  - apply keeps_bind.
    + apply keeps_try; [ now apply keeps_attempt_body | apply keeps_attempt_handler ].
    + intros [ | | r]; [ apply IH | apply IH | apply keeps_ret ].
Qed.

Lemma keeps_execute_action (cmd : list string) :
  allowed (Cmd cmd 30) = true -> keeps P (_execute_action config cmd).
Proof. apply keeps_execute_attempts. Qed.

Hypothesis navigate_allowed :
  forall url, allowed (Cmd ["openclaw"; "browser"; "navigate"; "--json"; url] 30) = true.
Hypothesis evaluate_allowed :
  forall t js_code,
    allowed (Cmd ["openclaw"; "browser"; "evaluate"; "--target-id"; t;
                  "--fn"; js_code] 30) = true.
Hypothesis press_allowed :
  forall key, allowed (Cmd ["openclaw"; "browser"; "press"; key] 30) = true.

Lemma keeps_ensure_available : keeps P ensure_available.
Proof.
  unfold ensure_available.
  apply keeps_bind; [ apply keeps_check_status | intros [ | ] ]; [ apply keeps_ret | ].
  apply keeps_bind; [ apply keeps_log; exact I | intro ].
  apply keeps_try; [ | intro; apply keeps_ret ].
  apply keeps_bind; [ apply keeps_run_command, start_allowed | intro ].
  apply keeps_bind; [ apply keeps_sleep | intro; apply keeps_check_status ].
Qed.

Lemma keeps_navigate (url : string) : keeps P (navigate config url).
Proof.
  unfold navigate.
  apply keeps_bind; [ apply keeps_log; exact I | intro ].
  apply keeps_bind; [ apply keeps_execute_action, navigate_allowed | intro r ].
  destruct r as [[ | ? ?] | ]; keeps_auto.
Qed.

Lemma keeps_decode_evaluate_string (text : string) :
  keeps P (decode_evaluate_string text).
Proof.
  unfold decode_evaluate_string.
  destruct (json_loads text) as [v | e]; [ | keeps_auto ].
  apply keeps_bind; [ apply keeps_log; exact I | intro ].
  destruct v; try apply keeps_ret.
  destruct (PyStr.startswith_any _ _); [ | apply keeps_ret ].
  destruct (json_loads s); keeps_auto.
Qed.

Lemma keeps_evaluate (js_code : string) : keeps P (evaluate config js_code).
Proof.
  unfold evaluate.
  apply keeps_bind; [ apply keeps_get_target_id | intro tid ].
  destruct (negb (truthy tid)); [ keeps_auto | ].
  apply keeps_bind.
  - destruct tid; try (destruct (1 <=? _); keeps_auto).
    apply keeps_execute_action, evaluate_allowed.
  - intros [[ | ? d] | ]; try apply keeps_ret.
    apply keeps_bind; [ apply keeps_log; exact I | intro ].
    apply keeps_bind; [ apply keeps_log; exact I | intro ].
    destruct (dict_get "result" _); try apply keeps_ret.
    + destruct (PyStr.startswith_any _ _);
        [ apply keeps_decode_evaluate_string | apply keeps_ret ].
    + keeps_auto.
Qed.

Lemma keeps_press (key : string) : keeps P (press config key).
Proof.
  unfold press.
  apply keeps_bind; [ apply keeps_execute_action, press_allowed | intros [ ? | ] ];
    apply keeps_ret.
Qed.

Lemma keeps_wait_loop (passes : nat) (start_time : Q) (timeout : Z) :
  keeps P (wait_loop config passes start_time timeout).
Proof.
  induction passes as [ | n IH]; cbn [wait_loop].
  - keeps_auto.
  - apply keeps_bind; [ apply keeps_on_world | intro now ].
    destruct (Qltb _ _); [ | keeps_auto ].
    apply keeps_bind; [ apply keeps_evaluate | intro r ].
    destruct r as [ | [ | ] | | | | | ];
      try (apply keeps_bind; [ apply keeps_sleep | intro; exact IH ]).
    keeps_auto.
Qed.

Lemma keeps_wait_for_content_loaded (timeout : Z) :
  keeps P (wait_for_content_loaded config timeout).
Proof.
  unfold wait_for_content_loaded.
  apply keeps_bind; [ apply keeps_on_world | intro; apply keeps_wait_loop ].
Qed.

Lemma keeps_first_url_is_old (st : scroll_state) : keeps P (first_url_is_old st).
Proof.
  unfold first_url_is_old. destruct (urls st); [ apply keeps_ret | ].
  destruct (PyStr.is_empty _); [ apply keeps_ret | ].
  destruct (PyStr.py_int _); [ | apply keeps_raise ].
  apply keeps_bind; [ apply keeps_on_world | intro ].
  destruct (Qltb _ _); keeps_auto.
Qed.

Lemma keeps_collect_page (scroll_num : Z) (result : json) (st : scroll_state) :
  keeps P (collect_page config scroll_num result st).
Proof.
  unfold collect_page. apply keeps_bind.
  - unfold page_urls_of. destruct result; try apply keeps_raise; [ | apply keeps_ret ].
    destruct (json_loads s); [ apply keeps_ret | apply keeps_raise ].
  - intro page_urls. destruct (iterate page_urls); [ | apply keeps_raise ].
    destruct (filter _ _); [ | keeps_auto ].
    apply keeps_bind; [ apply keeps_log; exact I | intro ].
    destruct (_ <=? _); [ keeps_auto | ].
    destruct (_ && _); [ | apply keeps_ret ].
    apply keeps_bind; [ apply keeps_first_url_is_old | intros [ | ] ]; apply keeps_ret.
Qed.

Lemma keeps_scroll_pass (username : string) (scroll_num : Z) (st : scroll_state) :
  keeps P (scroll_pass config username scroll_num st).
Proof.
  unfold scroll_pass.
  apply keeps_bind; [ apply keeps_log; exact I | intro ].
  apply keeps_bind; [ apply keeps_evaluate | intro result ].
  apply keeps_bind.
  - assert (Hpage : forall st0 k, keeps P
      (try_except_json (collect_page config scroll_num result st0)
                       (log ERROR FailedToParseUrls ;; ret k))).
    { intros st0 k. apply keeps_try_json; [ apply keeps_collect_page | ].
      apply keeps_bind; [ apply keeps_log; exact I | intro; apply keeps_ret ]. }
    destruct result; try apply Hpage. apply keeps_ret.
  - intros [f st']. destruct f; try apply keeps_ret.
    destruct (_ <=? _); [ keeps_auto | ].
    destruct (found_yesterday st'); [ apply keeps_ret | ].
    destruct (_ <? _); [ | apply keeps_ret ].
    apply keeps_bind; [ apply keeps_press | intro ].
    apply keeps_bind; [ apply keeps_on_world | intro ].
    apply keeps_bind; [ apply keeps_sleep | intro; apply keeps_ret ].
Qed.

Lemma keeps_scroll_loop (remaining : nat) (username : string) (scroll_num : Z)
  (st : scroll_state) : keeps P (scroll_loop config remaining username scroll_num st).
Proof.
  revert scroll_num st.
  induction remaining as [ | n IH]; intros scroll_num st; cbn [scroll_loop].
  - apply keeps_ret.
  - apply keeps_bind; [ apply keeps_scroll_pass | intros [f st'] ].
    destruct f; [ apply IH | apply keeps_ret | apply keeps_ret ].
Qed.

Lemma keeps_scroll_and_collect (username : string) :
  keeps P (_scroll_and_collect config username).
Proof.
  unfold _scroll_and_collect.
  apply keeps_bind; [ apply keeps_scroll_loop | intro ].
  apply keeps_bind; [ apply keeps_log; exact I | intro; apply keeps_ret ].
Qed.

Lemma keeps_crawl_user (username : string) : keeps P (crawl_user config username).
Proof.
  unfold crawl_user.
  apply keeps_bind; [ apply keeps_log; exact I | intro ].
  apply keeps_bind; [ apply keeps_ensure_available | intros [ | ] ];
    [ | apply keeps_raise ].
  apply keeps_bind; [ apply keeps_navigate | intros [ | ] ]; [ | apply keeps_raise ].
  apply keeps_bind; [ apply keeps_wait_for_content_loaded | intro loaded ].
  apply keeps_bind.
  - destruct loaded; [ apply keeps_log; exact I | ].
    apply keeps_bind; [ apply keeps_on_world | intro; apply keeps_sleep ].
  - intro. apply keeps_bind; [ apply keeps_scroll_and_collect | intros [ | ? ?] ];
      [ apply keeps_raise | apply keeps_ret ].
Qed.

Hypothesis attempts_allowed :
  forall a l, allowed (Log DEBUG (AttemptNumber a l)) = true.

Lemma keeps_retry_pass (username : string) (attempt : Z) :
  keeps P (retry_pass config username attempt).
Proof.
  unfold retry_pass. apply keeps_try.
  - apply keeps_bind; [ apply keeps_emit, attempts_allowed | intro ].
    apply keeps_bind; [ apply keeps_crawl_user | intro; apply keeps_ret ].
  - intro e.
    assert (Hfail : keeps P
      (log ERROR (AttemptFailed attempt e) ;;
       if attempt <? max_retries config then
         u <- on_world (random_uniform 1 3) ;;
         let wait_time := (u * inject_Z attempt)%Q in
         log WARN (RetryingIn wait_time) ;; sleep wait_time ;; ret Next
       else ret (@Next (list string)))).
    { apply keeps_bind; [ apply keeps_log; exact I | intro ].
      destruct (_ <? _); [ | apply keeps_ret ].
      apply keeps_bind; [ apply keeps_on_world | intro ].
      apply keeps_bind; [ apply keeps_log; exact I | intro ].
      apply keeps_bind; [ apply keeps_sleep | intro; apply keeps_ret ]. }
    destruct e; try exact Hfail.
    apply keeps_bind; [ apply keeps_log; exact I | intro; apply keeps_ret ].
Qed.

Lemma keeps_retry_loop (remaining : nat) (username : string) (attempt : Z) :
  keeps P (retry_loop config remaining username attempt).
Proof.
  revert attempt. induction remaining as [ | n IH]; intro attempt; cbn [retry_loop].
  - apply keeps_bind; [ apply keeps_log; exact I | intro; apply keeps_ret ].
  - apply keeps_bind; [ apply keeps_retry_pass | intros [ | | ? ] ];
      [ apply IH | apply IH | apply keeps_ret ].
Qed.

Lemma keeps_supervisor_returns (result : list string) (exception : option exn) :
  keeps P (supervisor_returns result exception).
Proof. unfold supervisor_returns. destruct exception; keeps_auto. Qed.

Lemma keeps_retry_with_timeout (func : M World (list string))
  (username : string) (timeout : Z) :
  keeps P func -> keeps P (_retry_with_timeout func username timeout).
Proof.
  intros Hf s H. unfold _retry_with_timeout.
  specialize (Hf s H). destruct (func s) as [outcome s1]. cbn [snd] in Hf.
  pose proof (keeps_on_world (join_race timeout) s1 Hf) as Hw.
  unfold bind at 1. destruct (on_world (join_race timeout) s1) as [[r | e] s2];
    cbn [snd] in Hw |- *; [ | exact Hw ].
  destruct r as [ | | done restarts handle];
    apply keeps_supervisor_returns; try exact Hw.
  now apply P_standing.
Qed.

Lemma keeps_crawl_single_user (username : string) :
  keeps P (crawl_single_user config username).
Proof.
  unfold crawl_single_user, _retry_crawl_user.
  apply keeps_retry_with_timeout, keeps_retry_loop.
Qed.

(** *** The content fetch *)

Lemma keeps_fetch_via_fxtwitter (url : string) : keeps P (_fetch_via_fxtwitter url).
Proof.
  unfold _fetch_via_fxtwitter.
  apply keeps_bind; [ apply keeps_emit, gets_allowed | intro ].
  apply keeps_bind; [ apply keeps_on_world | intros [code [d | ] | msg] ];
    try destruct (_ =? _); keeps_auto.
Qed.

Lemma keeps_fetch_via_syndication (tweet_id : string) :
  keeps P (_fetch_via_syndication tweet_id).
Proof.
  unfold _fetch_via_syndication.
  apply keeps_bind; [ apply keeps_emit, gets_allowed | intro ].
  apply keeps_bind; [ apply keeps_on_world | intros [code [d | ] | msg] ];
    try destruct (_ =? _); keeps_auto.
Qed.

Lemma keeps_fetch_post (url : string) : keeps P (fetch_post url).
Proof.
  unfold fetch_post.
  destruct (_extract_tweet_id url) as [[ | c tweet_id] | ]; keeps_auto.
Qed.

Lemma keeps_fetch_content (info : post_info) :
  keeps P (fetch_content format_as_markdown info).
Proof.
  unfold fetch_content.
  apply keeps_bind; [ apply keeps_fetch_post | intros [f | ] ]; [ | apply keeps_ret ].
  destruct (format_as_markdown _ _ _); [ apply keeps_ret | apply keeps_raise ].
Qed.

Lemma keeps_complete_one (info : post_info) (completed all : nat)
  (content : list string) :
  keeps P (complete_one format_as_markdown info completed all content).
Proof.
  unfold complete_one. apply keeps_try; [ | intro; keeps_auto ].
  apply keeps_bind; [ apply keeps_fetch_content | intros [[ | ? ?] | ] ]; keeps_auto.
Qed.

Lemma keeps_complete_all (order : list nat) (post_infos : list post_info)
  (completed : nat) (content : list string) :
  keeps P (complete_all format_as_markdown order post_infos completed content).
Proof.
  revert completed content.
  induction order as [ | k rest IH]; intros completed content; cbn [complete_all].
  - apply keeps_ret.
  - destruct (nth_error post_infos k); [ | apply IH ].
    apply keeps_bind; [ apply keeps_complete_one | intro; apply IH ].
Qed.

End Keeps.

(** ** The restart budget *)

Section Budget.

Context {World : Type} {host : Host World}.
Variable config : Config.

Local Open Scope py_scope.

Lemma restarts_performed_add (s : Sys World) (e : event) :
  restarts_performed (add_trace s [e])
  = restarts_performed s + (if is_stop e then 1 else 0).
Proof.
  unfold restarts_performed, add_trace. cbn [trace].
  rewrite filter_app, length_app. cbn [filter].
  destruct (is_stop e); cbn [List.length]; lia.
Qed.

Lemma budget_event (s : Sys World) (e : event) :
  not_stop e = true -> (budget_inv config) s -> (budget_inv config) (add_trace s [e]).
Proof.
  unfold not_stop, budget_inv. intros He [H1 H2].
  rewrite restarts_performed_add. destruct (is_stop e); [ discriminate | ].
  cbn. split; lia.
Qed.

Lemma budget_world (s : Sys World) (w : World) :
  (budget_inv config) s -> (budget_inv config) (with_world s w).
Proof. exact (fun H => H). Qed.

Lemma budget_target (s : Sys World) (v : json) :
  (budget_inv config) s -> (budget_inv config) (snd (set_target_id v s)).
Proof. exact (fun H => H). Qed.

Lemma try_bind_emit {A} (e : event) (k : unit -> M World A)
  (h : exn -> M World A) (s : Sys World) :
  try_except (bind (emit e) k) h s = try_except (k tt) h (add_trace s [e]).
Proof. reflexivity. Qed.

Lemma try_bind_assoc {A B C} (m : M World A) (k1 : A -> M World B)
  (k2 : B -> M World C) (h : exn -> M World C) (s : Sys World) :
  try_except (bind (bind m k1) k2) h s
  = try_except (bind m (fun a => bind (k1 a) k2)) h s.
Proof. unfold try_except, bind. now destruct (m s) as [[a | e] s']. Qed.

Local Ltac side :=
  first [ exact budget_event | exact budget_world | exact budget_target
        | assumption | exact I | reflexivity | intros; reflexivity ].

Lemma budget_check_status : keeps (budget_inv config) (@check_status World host).
Proof. apply keeps_check_status with (allowed := not_stop); side. Qed.

Lemma bind_get_restart_count {A} (k : Z -> M World A) (s : Sys World) :
  bind get_restart_count k s = k (restart_count s) s.
Proof. reflexivity. Qed.

Lemma bind_set_restart_count {A} (n : Z) (k : unit -> M World A) (s : Sys World) :
  bind (set_restart_count n) k s
  = k tt (mkSys (world s) n (target_id s) (trace s) (txt_file s) (md_file s)).
Proof. reflexivity. Qed.

Lemma bind_emit {A} (e : event) (k : unit -> M World A) (s : Sys World) :
  bind (emit e) k s = k tt (add_trace s [e]).
Proof. reflexivity. Qed.

Lemma bind_log {A} (lv : level) (m : message) (k : unit -> M World A)
  (s : Sys World) :
  bind (log lv m) k s = k tt (add_trace s [Log lv m]).
Proof. reflexivity. Qed.

Lemma budget_restart : keeps (budget_inv config) (_restart_browser config).
Proof.
  intros s [H1 H2]. unfold _restart_browser.
  rewrite bind_get_restart_count.
  destruct (browser_max_restarts config <=? restart_count s) eqn:E.
  - apply (keeps_bind (budget_inv config)); [ | intro; apply keeps_ret | now split ].
    apply keeps_log with (allowed := not_stop); side.
  - apply Z.leb_gt in E.
    rewrite bind_set_restart_count, bind_log.
    set (s1 := add_trace _ _).
    assert (Hp : (budget_pending config) s1).
    { unfold budget_pending, s1. rewrite restarts_performed_add. cbn.
      unfold restarts_performed in *. cbn [trace]. lia. }
    clearbody s1. unfold log at 1. rewrite try_bind_emit.
    unfold _run_command at 1. rewrite try_bind_assoc, try_bind_emit.
    assert (Hi : (budget_inv config) (add_trace (add_trace s1 [Log INFO StoppingBrowser])
                                       [Cmd stop_command 30])).
    { destruct Hp as [Hp1 Hp2]. unfold budget_inv.
      rewrite !restarts_performed_add. cbn. split; lia. }
    cbv beta.
    match goal with
    | |- (budget_inv config) (snd (try_except ?m ?h ?s0)) =>
        cut (keeps (budget_inv config) (try_except m h)); [ intro K; exact (K s0 Hi) | ]
    end.
    apply keeps_try.
    + apply keeps_bind.
      * apply keeps_bind; [ apply keeps_on_world; side | ].
        intros [p | | msg]; [ apply keeps_ret | apply keeps_raise | apply keeps_raise ].
      * intro. apply keeps_bind; [ apply keeps_sleep with (allowed := not_stop); side | intro ].
        apply keeps_bind; [ apply keeps_log with (allowed := not_stop); side | intro ].
        apply keeps_bind;
          [ apply keeps_run_command with (allowed := not_stop); side | intro ].
        apply keeps_bind; [ apply keeps_sleep with (allowed := not_stop); side | intro ].
        apply keeps_bind; [ apply budget_check_status | intros [ | ] ];
          (apply keeps_bind;
            [ apply keeps_log with (allowed := not_stop); side
            | intro; apply keeps_ret ]).
    + intro e. apply keeps_bind;
        [ apply keeps_log with (allowed := not_stop); side | intro; apply keeps_ret ].
Qed.

Lemma budget_run_call (c : call) : keeps (budget_inv config) (run_call config c).
Proof.
  unfold run_call. apply keeps_try; [ | intro; apply keeps_ret ].
  destruct c; (apply keeps_bind; [ | intro; apply keeps_ret ]).
  - apply keeps_navigate with (allowed := not_stop);
      first [ side | exact budget_restart ].
  - apply keeps_evaluate with (allowed := not_stop);
      first [ side | exact budget_restart ].
  - apply keeps_press with (allowed := not_stop);
      first [ side | exact budget_restart ].
  - apply budget_check_status.
  - apply keeps_ensure_available with (allowed := not_stop); side.
  - apply keeps_wait_for_content_loaded with (allowed := not_stop);
      first [ side | exact budget_restart ].
Qed.

Lemma budget_run_history (h : list call) : keeps (budget_inv config) (run_history config h).
Proof.
  induction h as [ | c rest IH]; cbn [run_history].
  - apply keeps_ret.
  - apply keeps_bind; [ apply budget_run_call | intro; exact IH ].
Qed.

(** *** Recoveries within one command *)

Lemma recoveries_add (s : Sys World) (e : event) :
  recoveries_attempted (add_trace s [e])
  = recoveries_attempted s + (if is_detection e then 1 else 0).
Proof.
  unfold recoveries_attempted, add_trace. cbn [trace].
  rewrite filter_app, length_app. cbn [filter].
  destruct (is_detection e); cbn [List.length]; lia.
Qed.

Lemma recoveries_event (n : Z) (s : Sys World) (e : event) :
  not_detection e = true -> recoveries_are n s -> recoveries_are n (add_trace s [e]).
Proof.
  unfold not_detection, recoveries_are. intros He H.
  rewrite recoveries_add. destruct (is_detection e); [ discriminate | lia ].
Qed.

Local Ltac quiet n :=
  first [ exact (recoveries_event n) | exact (fun s w H => H)
        | exact (fun s v H => H) | assumption | exact I
        | intros lv m Hm; destruct lv, m; solve [ reflexivity | now elim Hm ]
        | reflexivity | intros; reflexivity ].

Lemma recoveries_restart (n : Z) : keeps (recoveries_are n) (_restart_browser config).
Proof.
  apply keeps_restart_when_free with (allowed := not_detection); quiet n.
Qed.

(** One attempt announces at most one recovery, and none when it is the
    last attempt allowed. *)
Lemma recoveries_attempt (attempt : Z) (cmd : list string) (s : Sys World) :
  recoveries_attempted
    (snd (try_except (attempt_body config attempt cmd) attempt_handler s))
  <= recoveries_attempted s
     + (if attempt <? browser_action_max_attempts config then 1 else 0).
Proof.
  set (n := recoveries_attempted s).
  assert (Hrun : keeps (recoveries_are n) (_run_command cmd 30)).
  { apply keeps_run_command with (allowed := not_detection); quiet n. }
  assert (Hhandler : forall k e,
             keeps (World := World) (recoveries_are k) (attempt_handler e)).
  { intros k e. apply keeps_attempt_handler with (allowed := not_detection); quiet k. }
  unfold try_except, attempt_body, handle_result, bind at 1.
  specialize (Hrun s eq_refl).
  destruct (_run_command cmd 30 s) as [[result | e] s1]; cbn [snd] in Hrun.
  2:{ rewrite (Hhandler n e s1 Hrun). destruct (_ <? _); lia. }
  assert (Hcheck : forall k s2, recoveries_are k s2 ->
    recoveries_are k
      (snd (match
              (if returncode result =? 0
               then bind (_parse_output (stdout result)) (fun parsed => ret (Return parsed))
               else bind (log ERROR (CommandFailed (stderr result)))
                         (fun _ => ret (Return None))) s2
            with
            | (Ok a, s') => (Ok a, s')
            | (Raise e, s') => attempt_handler e s'
            end))).
  { intros k s2 H2.
    apply (keeps_try (recoveries_are k) _ attempt_handler); [ | apply Hhandler | exact H2 ].
    destruct (_ =? _).
    - apply keeps_bind; [ | intro; apply keeps_ret ].
      apply keeps_parse_output with (allowed := not_detection); quiet k.
    - apply keeps_bind; [ | intro; apply keeps_ret ].
      apply keeps_log with (allowed := not_detection); quiet k. }
  destruct (_check_tab_not_found result).
  2:{ rewrite (Hcheck n s1 Hrun). destruct (_ <? _); lia. }
  destruct (attempt <? browser_action_max_attempts config).
  2:{ rewrite (Hcheck n s1 Hrun). lia. }
  rewrite bind_log.
  assert (H1 : recoveries_are (n + 1) (add_trace s1 [Log WARN DetectedTabNotFound])).
  { unfold recoveries_are. rewrite recoveries_add. cbn. unfold recoveries_are in Hrun. lia. }
  revert H1. generalize (add_trace s1 [Log WARN DetectedTabNotFound]). intros s2 H2.
  unfold bind. pose proof (recoveries_restart (n + 1) s2 H2) as H3.
  destruct (_restart_browser config s2) as [[[ | ] | e] s3]; cbn [snd] in *.
  - unfold ret. cbn [snd]. unfold recoveries_are in H3. lia.
  - unfold ret. cbn [snd]. unfold recoveries_are in H3. lia.
  - rewrite (Hhandler (n + 1) e s3 H3). lia.
Qed.

Lemma recoveries_execute_attempts (remaining : nat) (attempt : Z)
  (cmd : list string) (s : Sys World) :
  recoveries_attempted (snd (execute_attempts config remaining attempt cmd s))
  <= recoveries_attempted s
     + Z.max 0 (browser_action_max_attempts config - attempt).
Proof.
  revert attempt s. induction remaining as [ | r IH]; intros attempt s.
  - cbn. lia.
  - cbn [execute_attempts]. unfold bind at 1.
    pose proof (recoveries_attempt attempt cmd s) as H.
    destruct (try_except (attempt_body config attempt cmd) attempt_handler s)
      as [[f | e] s1]; cbn [snd] in *.
    + assert (Hle : (if attempt <? browser_action_max_attempts config then 1 else 0)
                    + Z.max 0 (browser_action_max_attempts config - (attempt + 1))
                    <= Z.max 0 (browser_action_max_attempts config - attempt)).
      { destruct (Z.ltb_spec attempt (browser_action_max_attempts config)); lia. }
      destruct f as [ | | v].
      * specialize (IH (attempt + 1) s1). lia.
      * specialize (IH (attempt + 1) s1). lia.
      * unfold ret. cbn [snd].
        destruct (Z.ltb_spec attempt (browser_action_max_attempts config)); lia.
    + destruct (Z.ltb_spec attempt (browser_action_max_attempts config)); lia.
Qed.

(** *** Runs of one command *)

Lemma same_args_refl (cmd : list string) : same_args cmd cmd = true.
Proof.
  induction cmd as [ | a r IH]; [ reflexivity | ].
  cbn. now rewrite String.eqb_refl.
Qed.

Lemma runs_add (cmd : list string) (s : Sys World) (e : event) :
  commands_run cmd (add_trace s [e])
  = commands_run cmd s + (if is_run cmd e then 1 else 0).
Proof.
  unfold commands_run, add_trace. cbn [trace].
  rewrite filter_app, length_app. cbn [filter].
  destruct (is_run cmd e); cbn [List.length]; lia.
Qed.

Lemma runs_event (cmd : list string) (n : Z) (s : Sys World) (e : event) :
  not_run cmd e = true -> runs_are cmd n s -> runs_are cmd n (add_trace s [e]).
Proof.
  unfold not_run, runs_are. intros He H.
  rewrite runs_add. destruct (is_run cmd e); [ discriminate | lia ].
Qed.

Section OneCommand.

Variable cmd : list string.
Hypothesis not_service : is_service cmd = false.

Lemma service_commands_apart (t : Z) :
  not_run cmd (Cmd stop_command t) = true
  /\ not_run cmd (Cmd ["openclaw"; "browser"; "start"] t) = true
  /\ not_run cmd (Cmd ["openclaw"; "browser"; "status"] t) = true.
Proof.
  unfold is_service in not_service.
  apply orb_false_iff in not_service. destruct not_service as [H12 H3].
  apply orb_false_iff in H12. destruct H12 as [H1 H2].
  unfold not_run, is_run. now rewrite H1, H2, H3.
Qed.

Local Ltac still n :=
  first [ exact (runs_event cmd n) | exact (fun s w H => H)
        | exact (fun s v H => H) | assumption | exact I
        | let t := fresh "t" in
          intro t; destruct (service_commands_apart t) as (A & B & C);
          first [ exact A | exact B | exact C ]
        | reflexivity | intros; reflexivity ].

Lemma runs_restart (n : Z) : keeps (runs_are cmd n) (_restart_browser config).
Proof. apply keeps_restart_when_free with (allowed := not_run cmd); still n. Qed.

(** One attempt runs the command once. *)
Lemma runs_attempt (attempt : Z) (s : Sys World) :
  commands_run cmd
    (snd (try_except (attempt_body config attempt cmd) attempt_handler s))
  = commands_run cmd s + 1.
Proof.
  unfold attempt_body, _run_command.
  rewrite try_bind_assoc, try_bind_emit. cbv beta.
  assert (H1 : runs_are cmd (commands_run cmd s + 1) (add_trace s [Cmd cmd 30])).
  { unfold runs_are. rewrite runs_add. unfold is_run.
    now rewrite same_args_refl. }
  revert H1. generalize (add_trace s [Cmd cmd 30]). intros s1 H1.
  match goal with
  | |- commands_run cmd (snd (try_except ?m ?h ?s0)) = ?n =>
      cut (keeps (runs_are cmd n) (try_except m h)); [ intro K; exact (K s0 H1) | ]
  end.
  apply keeps_try.
  - apply keeps_bind.
    + apply keeps_bind; [ apply keeps_on_world; still (commands_run cmd s + 1) | ].
      intros [p | | msg]; [ apply keeps_ret | apply keeps_raise | apply keeps_raise ].
    + intro result.
      apply keeps_handle_result with (allowed := not_run cmd);
        first [ exact (runs_restart (commands_run cmd s + 1))
              | still (commands_run cmd s + 1) ].
  - intro e. apply keeps_attempt_handler with (allowed := not_run cmd);
      still (commands_run cmd s + 1).
Qed.

Lemma runs_execute_attempts (remaining : nat) (attempt : Z) (s : Sys World) :
  commands_run cmd (snd (execute_attempts config remaining attempt cmd s))
  <= commands_run cmd s + Z.of_nat remaining.
Proof.
  revert attempt s. induction remaining as [ | r IH]; intros attempt s.
  - cbn. lia.
  - cbn [execute_attempts]. unfold bind at 1.
    pose proof (runs_attempt attempt s) as H.
    destruct (try_except (attempt_body config attempt cmd) attempt_handler s)
      as [[f | e] s1]; cbn [snd] in *.
    + destruct f as [ | | v].
      * specialize (IH (attempt + 1) s1). lia.
      * specialize (IH (attempt + 1) s1). lia.
      * unfold ret. cbn [snd]. lia.
    + lia.
Qed.

End OneCommand.

(** *** A session loss when the budget is spent *)

Lemma spent_budget_fails (cmd : list string) (s : Sys World)
  (p : CompletedProcess) (w : World) :
  subprocess_run cmd 30 (world s) = (Completed p, w) ->
  _check_tab_not_found p = true ->
  browser_max_restarts config <= restart_count s ->
  1 < browser_action_max_attempts config ->
  _execute_action config cmd s
  = (Ok None,
     add_trace (with_world s w)
       [Cmd cmd 30; Log WARN DetectedTabNotFound;
        Log WARN (AlreadyRestarted (restart_count s))]).
Proof.
  intros Hrun Htab Hspent Hattempts. unfold _execute_action.
  destruct (Z.to_nat (browser_action_max_attempts config)) as [ | r] eqn:E; [ lia | ].
  cbn [execute_attempts].
  unfold bind at 1, try_except, attempt_body, handle_result, bind at 1, _run_command.
  rewrite bind_emit. unfold bind at 1, on_world. cbn [world add_trace].
  rewrite Hrun. cbn [restart_count target_id trace txt_file md_file].
  unfold ret at 1. rewrite Htab.
  replace (1 <? browser_action_max_attempts config) with true
    by (symmetry; now apply Z.ltb_lt).
  rewrite bind_log. unfold bind at 1, _restart_browser.
  rewrite bind_get_restart_count. cbn [restart_count add_trace].
  replace (browser_max_restarts config <=? restart_count s) with true
    by (symmetry; now apply Z.leb_le).
  rewrite bind_log. unfold ret, add_trace, with_world.
  cbn [world restart_count target_id trace txt_file md_file].
  now rewrite <- !app_assoc.
Qed.

(** C2. With the default two attempts per command and a limit that is not
    negative: (1) after any history of calls on a fresh client, the stop
    commands sent are as many as the counter says and no more than
    [browser_max_restarts]; (2) once the counter has reached the limit, a
    command whose output carries the session-loss marker sends nothing after
    the command itself, neither stop nor start, and is reported as failed
    with [None]; (3) one command announces at most one recovery; (4) and it
    is run at most twice, the first time and one retry. *)
Theorem restart_budget_respected :
  0 <= browser_max_restarts config ->
  browser_action_max_attempts config = 2 ->
  (forall (w : World) (h : list call),
      let s := snd (run_history config h (fresh w)) in
      restarts_performed s = restart_count s
      /\ restarts_performed s <= browser_max_restarts config)
  /\ (forall (s : Sys World) (cmd : list string) (p : CompletedProcess) (w : World),
        subprocess_run cmd 30 (world s) = (Completed p, w) ->
        _check_tab_not_found p = true ->
        browser_max_restarts config <= restart_count s ->
        _execute_action config cmd s
        = (Ok None,
           add_trace (with_world s w)
             [Cmd cmd 30; Log WARN DetectedTabNotFound;
              Log WARN (AlreadyRestarted (restart_count s))]))
  /\ (forall (s : Sys World) (cmd : list string),
        recoveries_attempted (snd (_execute_action config cmd s))
        <= recoveries_attempted s + 1)
  /\ (forall (s : Sys World) (cmd : list string),
        is_service cmd = false ->
        commands_run cmd (snd (_execute_action config cmd s))
        <= commands_run cmd s + 2).
Proof.
  intros Hlimit Hattempts. repeat split.
  - apply (budget_run_history h (fresh w)). split; [ reflexivity | exact Hlimit ].
  - assert (H : (budget_inv config) (snd (run_history config h (fresh w)))).
    { apply budget_run_history. split; [ reflexivity | exact Hlimit ]. }
    destruct H as [H1 H2]. cbv zeta. lia.
  - intros s cmd p w Hrun Htab Hspent. apply spent_budget_fails with (p := p); auto.
    lia.
  - intros s cmd. unfold _execute_action.
    pose proof (recoveries_execute_attempts
                  (Z.to_nat (browser_action_max_attempts config)) 1 cmd s) as H.
    rewrite Hattempts in *. cbn in H. exact H.
  - intros s cmd Hcmd. unfold _execute_action.
    pose proof (runs_execute_attempts cmd Hcmd
                  (Z.to_nat (browser_action_max_attempts config)) 1 s) as H.
    rewrite Hattempts in *. cbn in H. exact H.
Qed.

End Budget.

(** ** The session handle *)

Section Session.

Context {World : Type} {host : Host World}.
Variable config : Config.

Local Open Scope py_scope.

Lemma add_trace_add_trace (s : Sys World) (a b : list event) :
  add_trace (add_trace s a) b = add_trace s (a ++ b).
Proof. unfold add_trace. cbn. now rewrite app_assoc. Qed.

Lemma add_trace_nil (s : Sys World) : add_trace s [] = s.
Proof. destruct s. unfold add_trace. cbn. now rewrite app_nil_r. Qed.

Lemma evaluate_without_handle (js_code : string) (s : Sys World) :
  target_id s = Some JNull ->
  evaluate config js_code s = (Ok JNull, add_trace s [Log WARN NoTargetId]).
Proof.
  intro H. unfold evaluate, bind at 1, get_target_id. rewrite H. reflexivity.
Qed.

Lemma evaluate_each_without_handle (codes : list string) (s : Sys World) :
  target_id s = Some JNull ->
  evaluate_each config codes s
  = (Ok (map (fun _ => JNull) codes),
     add_trace s (map (fun _ => Log WARN NoTargetId) codes)).
Proof.
  revert s. induction codes as [ | js_code rest IH]; intros s H.
  - cbn. now rewrite add_trace_nil.
  - cbn [evaluate_each map]. unfold bind at 1.
    rewrite (evaluate_without_handle js_code s H).
    unfold bind at 1. rewrite IH by exact H.
    unfold ret. now rewrite add_trace_add_trace.
Qed.

(** C10. When the command of [navigate] comes back with a non-empty reply
    that has no [targetId] key, [navigate] returns [True] and stores [None]
    as the handle; from that state every call of [evaluate] returns [None],
    adds one warning to the log and nothing else: no command is sent and the
    world is not touched. *)
Theorem navigate_without_target_id (url : string) (s s1 : Sys World) (d : dict) :
  _execute_action config ["openclaw"; "browser"; "navigate"; "--json"; url]
                  (add_trace s [Log INFO (Navigating url)])
  = (Ok (Some d), s1) ->
  d <> [] ->
  dict_lookup "targetId" d = None ->
  let s2 := mkSys (world s1) (restart_count s1) (Some JNull) (trace s1)
                  (txt_file s1) (md_file s1) in
  navigate config url s = (Ok true, s2)
  /\ forall codes : list string,
       evaluate_each config codes s2
       = (Ok (map (fun _ => JNull) codes),
          add_trace s2 (map (fun _ => Log WARN NoTargetId) codes)).
Proof.
  intros Hreply Hd Hkey s2. split.
  - unfold navigate. rewrite bind_log. unfold bind at 1. rewrite Hreply.
    destruct d as [ | kv d']; [ now elim Hd | ].
    unfold bind, set_target_id, ret, dict_get. now rewrite Hkey.
  - intro codes. now apply evaluate_each_without_handle.
Qed.

End Session.

(** ** The two content sources *)

Section Sources.

Context {World : Type} {host : Host World}.

Local Open Scope py_scope.



Lemma gets_app (a b : list event) : gets (a ++ b) = (gets a ++ gets b)%list.
Proof.
  induction a as [ | e a IH]; [ reflexivity | ].
  destruct e; cbn; now rewrite IH.
Qed.




Lemma append_assoc (a b c : string) : ((a ++ b) ++ c = a ++ (b ++ c))%string.
Proof. induction a as [ | x a IH]; cbn; [ reflexivity | now rewrite IH ]. Qed.

Lemma span_app (p : ascii -> bool) (a b : string) :
  PyStr.all_chars p a = true ->
  ahead (fun c => negb (p c)) b = true ->
  PyStr.span p (a ++ b) = (a, b).
Proof.
  intros Ha Hb. induction a as [ | x a IH]; cbn in *.
  - destruct b as [ | c b]; [ reflexivity | ].
    cbn in Hb |- *. apply negb_true_iff in Hb. now rewrite Hb.
  - apply andb_true_iff in Ha. destruct Ha as [Hx Ha].
    rewrite Hx, (IH Ha). reflexivity.
Qed.

Lemma span_all (p : ascii -> bool) (s : string) :
  PyStr.all_chars p (fst (PyStr.span p s)) = true.
Proof.
  induction s as [ | c s IH]; cbn; [ reflexivity | ].
  destruct (p c) eqn:E; [ | reflexivity ].
  destruct (PyStr.span p s) as [a b]. cbn in *. now rewrite E.
Qed.

Lemma drop_prefix_app (p s : string) : PyStr.drop_prefix p (p ++ s) = Some s.
Proof.
  induction p as [ | c p IH]; cbn; [ now destruct s | ].
  now rewrite Ascii.eqb_refl.
Qed.

Lemma match_host_at_permalink (site keyword user tweet_id rest : string) :
  PyStr.is_empty user = false ->
  PyStr.all_chars PyStr.is_word user = true ->
  ahead (fun c => negb (PyStr.is_word c)) keyword = true ->
  PyStr.is_empty keyword = false ->
  PyStr.isdigit tweet_id = true ->
  ahead (fun c => negb (PyStr.is_digit c)) rest = true ->
  match_host_at site keyword
    ((site ++ "/") ++ user ++ keyword ++ tweet_id ++ rest) = Some tweet_id.
Proof.
  intros Hu Hw Hk Hk' Hd Hr. unfold match_host_at.
  rewrite drop_prefix_app.
  rewrite (span_app PyStr.is_word user (keyword ++ tweet_id ++ rest) Hw).
  2:{ destruct keyword; [ discriminate | exact Hk ]. }
  rewrite Hu, drop_prefix_app.
  unfold PyStr.isdigit in Hd. apply andb_true_iff in Hd. destruct Hd as [Hn Hd].
  rewrite (span_app PyStr.is_digit tweet_id rest Hd Hr).
  apply negb_true_iff in Hn. now rewrite Hn.
Qed.

Lemma re_search_skip (keyword : string) (c : ascii) (r : string) :
  match_at keyword (String c r) = None ->
  re_search keyword (String c r) = re_search keyword r.
Proof. intro H. cbn [re_search]. now rewrite H. Qed.

Lemma re_search_here (keyword s digits : string) :
  match_at keyword s = Some digits -> re_search keyword s = Some digits.
Proof. intro H. destruct s; cbn [re_search]; now rewrite H. Qed.

Lemma extract_tweet_id_permalink (site user tweet_id rest : string) :
  site = "x.com" \/ site = "twitter.com" ->
  PyStr.is_empty user = false ->
  PyStr.all_chars PyStr.is_word user = true ->
  PyStr.isdigit tweet_id = true ->
  ahead (fun c => negb (PyStr.is_digit c)) rest = true ->
  _extract_tweet_id (permalink site user tweet_id ++ rest) = Some tweet_id.
Proof.
  intros Hsite Hu Hw Hd Hr.
  assert (Hm : match_host_at site "/status/"
                 ((site ++ "/") ++ user ++ "/status/" ++ tweet_id ++ rest)
               = Some tweet_id)
    by now apply match_host_at_permalink.
  unfold _extract_tweet_id, permalink.
  replace (("https://" ++ site ++ "/" ++ user ++ "/status/" ++ tweet_id) ++ rest)
    with ("https://" ++ (site ++ "/") ++ user ++ "/status/" ++ tweet_id ++ rest)
    by now rewrite !append_assoc.
  set (tail := (site ++ "/") ++ user ++ "/status/" ++ tweet_id ++ rest) in *.
  assert (Hs : re_search "/status/" tail = Some tweet_id).
  { apply re_search_here. unfold match_at.
    destruct Hsite as [-> | ->]; [ now rewrite Hm | ].
    rewrite Hm. reflexivity. }
  cbn [append].
  do 8 (rewrite re_search_skip by reflexivity).
  now rewrite Hs.
Qed.

Lemma match_host_at_digits (host_name keyword s digits : string) :
  match_host_at host_name keyword s = Some digits -> PyStr.isdigit digits = true.
Proof.
  unfold match_host_at.
  destruct (PyStr.drop_prefix _ s) as [after_slash | ]; [ | discriminate ].
  destruct (PyStr.span PyStr.is_word after_slash) as [name after_name].
  destruct (PyStr.is_empty name); [ discriminate | ].
  destruct (PyStr.drop_prefix keyword after_name) as [after_keyword | ];
    [ | discriminate ].
  pose proof (span_all PyStr.is_digit after_keyword) as Hall.
  destruct (PyStr.span PyStr.is_digit after_keyword) as [ds tl].
  destruct (PyStr.is_empty ds) eqn:E; [ discriminate | ].
  intro H. inversion H. subst ds. unfold PyStr.isdigit. rewrite E. exact Hall.
Qed.

Lemma re_search_digits (keyword s digits : string) :
  re_search keyword s = Some digits -> PyStr.isdigit digits = true.
Proof.
  induction s as [ | c s IH]; cbn [re_search]; unfold match_at.
  - destruct (match_host_at "x.com" keyword "") eqn:E1.
    + intro H. inversion H. subst. exact (match_host_at_digits _ _ _ _ E1).
    + destruct (match_host_at "twitter.com" keyword "") eqn:E2; [ | discriminate ].
      intro H. inversion H. subst. exact (match_host_at_digits _ _ _ _ E2).
  - destruct (match_host_at "x.com" keyword (String c s)) eqn:E1.
    + intro H. inversion H. subst. exact (match_host_at_digits _ _ _ _ E1).
    + destruct (match_host_at "twitter.com" keyword (String c s)) eqn:E2;
        [ | exact IH ].
      intro H. inversion H. subst. exact (match_host_at_digits _ _ _ _ E2).
Qed.







(** Each source is asked with exactly one request and answers with what the
    response holds or [None]; it never raises. *)
Lemma fxtwitter_run (url : string) (s : Sys World) :
  exists (payload : json) (s1 : Sys World),
    _fetch_via_fxtwitter url s = (Ok payload, s1)
    /\ gets (trace s1) = (gets (trace s) ++ [sub_hosts 0 url])%list.
Proof.
  unfold _fetch_via_fxtwitter. rewrite bind_emit. unfold bind at 1, on_world.
  destruct (requests_get _ _ _) as [[code [d | ] | msg] w];
    try destruct (code =? 200);
    eexists; eexists; (split; [ reflexivity | ]);
    cbn [trace add_trace]; rewrite ?gets_app; cbn; now rewrite ?app_nil_r.
Qed.

Lemma syndication_run (tweet_id : string) (s : Sys World) :
  exists (payload : json) (s1 : Sys World),
    _fetch_via_syndication tweet_id s = (Ok payload, s1)
    /\ gets (trace s1) = (gets (trace s) ++ [syndication_url tweet_id])%list.
Proof.
  unfold _fetch_via_syndication. rewrite bind_emit. unfold bind at 1, on_world.
  destruct (requests_get _ _ _) as [[code [d | ] | msg] w];
    try destruct (code =? 200);
    eexists; eexists; (split; [ reflexivity | ]);
    cbn [trace add_trace]; rewrite ?gets_app; cbn; now rewrite ?app_nil_r.
Qed.


End Sources.

(** ** The supervisor of one profile *)

Section Supervisor.

Context {World : Type} {host : Host World}.
Variable config : Config.

Local Open Scope py_scope.


Lemma bind_ext {A B} (m : M World A) (k1 k2 : A -> M World B) (s : Sys World) :
  (forall a s', k1 a s' = k2 a s') -> bind m k1 s = bind m k2 s.
Proof. intro H. unfold bind. destruct (m s) as [[a | e] s']; [ apply H | reflexivity ]. Qed.






(** *** Counting the attempts *)









(** *** The timeout *)


End Supervisor.

(** ** The scrolling loop *)

Section Collector.

Context {World : Type} {host : Host World}.
Variable config : Config.

Local Open Scope py_scope.

(** The test on the first URL sits in the branch taken when a pass brings
    no new URL. On the first pass the list of URLs is still empty there, and
    on the later passes [scroll_num] is not 1: the switch changes nothing. *)
Lemma collect_page_switch (b : bool) (scroll_num : Z) (result : json)
  (st : scroll_state) (s : Sys World) :
  scroll_num <> 1 \/ urls st = [] ->
  collect_page (with_early_stop b config) scroll_num result st s
  = collect_page config scroll_num result st s.
Proof.
  intro H. unfold collect_page. apply bind_ext. intros page_urls s1.
  destruct (iterate page_urls) as [items | e]; [ | reflexivity ].
  destruct (filter _ items); [ | reflexivity ].
  apply bind_ext. intros [] s2. cbn [no_new_count urls with_early_stop
    scroll_no_new_threshold scroll_early_stop_on_yesterday].
  destruct (_ <=? _); [ reflexivity | ].
  assert (Hoff : forall flag : bool,
             flag && (scroll_num =? 1)
             && negb match urls st with [] => true | _ :: _ => false end = false).
  { intro flag. destruct H as [H | H].
    - apply Z.eqb_neq in H. rewrite H. now rewrite andb_false_r.
    - rewrite H. now rewrite andb_false_r. }
  now rewrite !Hoff.
Qed.

Lemma scroll_pass_switch (b : bool) (username : string) (scroll_num : Z)
  (st : scroll_state) (s : Sys World) :
  scroll_num <> 1 \/ urls st = [] ->
  scroll_pass (with_early_stop b config) username scroll_num st s
  = scroll_pass config username scroll_num st s.
Proof.
  intro H. unfold scroll_pass. apply bind_ext. intros [] s1.
  change (evaluate (with_early_stop b config)) with (evaluate config).
  apply bind_ext. intros result s2.
  assert (Hsame : forall st0 h s0,
             urls st0 = urls st ->
             try_except_json
               (collect_page (with_early_stop b config) scroll_num result st0) h s0
             = try_except_json (collect_page config scroll_num result st0) h s0).
  { intros st0 h s0 Hst0. unfold try_except_json.
    rewrite collect_page_switch by (now rewrite Hst0). reflexivity. }
  unfold bind at 1 3.
  destruct result; try (rewrite Hsame by reflexivity); reflexivity.
Qed.

Lemma scroll_loop_switch (b : bool) (remaining : nat) (username : string)
  (scroll_num : Z) (st : scroll_state) (s : Sys World) :
  1 <= scroll_num ->
  (scroll_num = 1 -> urls st = []) ->
  scroll_loop (with_early_stop b config) remaining username scroll_num st s
  = scroll_loop config remaining username scroll_num st s.
Proof.
  revert scroll_num st s.
  induction remaining as [ | r IH]; intros scroll_num st s Hge Hfirst;
    [ reflexivity | ].
  cbn [scroll_loop]. unfold bind at 1 2.
  rewrite scroll_pass_switch.
  2:{ destruct (Z.eq_dec scroll_num 1); [ right; auto | now left ]. }
  destruct (scroll_pass config username scroll_num st s) as [[[f st'] | e] s1];
    [ | reflexivity ].
  destruct f; try reflexivity.
  apply IH; lia.
Qed.

(** The collector returns the same URLs and leaves the same state whether
    the early stop on yesterday's posts is switched on or off. *)
Lemma early_stop_switch_is_idle (b : bool) (username : string) (s : Sys World) :
  _scroll_and_collect (with_early_stop b config) username s
  = _scroll_and_collect config username s.
Proof.
  unfold _scroll_and_collect. unfold bind at 1 3.
  change (scroll_max_attempts (with_early_stop b config))
    with (scroll_max_attempts config).
  rewrite scroll_loop_switch; [ reflexivity | lia | reflexivity ].
Qed.

End Collector.

(** ** The report *)

Section Report.

Context {World : Type} {host : Host World}.
Variable config : Config.
Variable format_as_markdown : dict -> string -> string -> result string.

Local Open Scope py_scope.
Local Open Scope list_scope.

Lemma laid_out_app (content more : list string) (post_infos : list post_info) :
  laid_out content post_infos -> laid_out (content ++ more) post_infos.
Proof.
  intros H info Hin. destruct (H info Hin) as [H1 H2]. split.
  - rewrite nth_error_app1; [ exact H1 | ].
    apply nth_error_Some. now rewrite H1.
  - rewrite nth_error_app1; [ exact H2 | ].
    apply nth_error_Some. now rewrite H2.
Qed.

Lemma layout_posts_laid_out (user : string) (total i : nat)
  (user_urls content : list string) (post_infos : list post_info) :
  laid_out content post_infos ->
  laid_out (fst (layout_posts user total i user_urls content post_infos))
           (snd (layout_posts user total i user_urls content post_infos)).
Proof.
  revert i content post_infos.
  induction user_urls as [ | url rest IH]; intros i content post_infos H;
    [ exact H | ].
  cbn [layout_posts]. apply IH. intros info Hin.
  apply in_app_or in Hin. destruct Hin as [Hin | [<- | []]].
  - now apply (laid_out_app content (placeholder i url) post_infos H).
  - cbn [section_start info_index]. split.
    + rewrite nth_error_app2 by lia. now rewrite Nat.sub_diag.
    + rewrite nth_error_app2 by lia.
      replace (S (List.length content) - List.length content)%nat with 1%nat by lia.
      reflexivity.
Qed.

Lemma layout_users_laid_out (d : results) (content : list string)
  (post_infos : list post_info) :
  laid_out content post_infos ->
  laid_out (fst (layout_users d content post_infos))
           (snd (layout_users d content post_infos)).
Proof.
  revert content post_infos.
  induction d as [ | [user user_urls] rest IH]; intros content post_infos H;
    [ exact H | ].
  cbn [layout_users]. destruct user_urls as [ | url more]; [ now apply IH | ].
  pose proof (layout_posts_laid_out user (List.length (url :: more)) 1 (url :: more)
                (content ++ user_section_heading user (List.length (url :: more)))
                post_infos (laid_out_app _ _ _ H)) as H'.
  destruct (layout_posts _ _ _ _ _ _) as [content' post_infos'].
  now apply IH.
Qed.

Lemma heading_is_not_fetching_line (i : nat) : post_heading i <> fetching_line.
Proof. discriminate. Qed.

(** No section starts on the fetching line of another. *)
Lemma section_starts_apart (content : list string) (post_infos : list post_info)
  (a b : post_info) :
  laid_out content post_infos -> In a post_infos -> In b post_infos ->
  section_start b <> S (section_start a).
Proof.
  intros H Ha Hb E. destruct (H a Ha) as [_ H2]. destruct (H b Hb) as [H1 _].
  rewrite E, H2 in H1. injection H1 as H1.
  now apply (heading_is_not_fetching_line (info_index b)).
Qed.

Lemma nth_error_list_set_other (i j : nat) (x : string) (l : list string) :
  i <> j -> nth_error (list_set i x l) j = nth_error l j.
Proof.
  revert i j. induction l as [ | y r IH]; intros i j H; [ now destruct i | ].
  destruct i as [ | i'], j as [ | j']; cbn; try reflexivity; [ now elim H | ].
  apply IH. lia.
Qed.

(** Completing a post writes one item, at [section_start], or nothing. *)
Lemma complete_one_writes (info : post_info) (completed all : nat)
  (content : list string) (s : Sys World) :
  exists (content' : list string) (s' : Sys World),
    complete_one format_as_markdown info completed all content s = (Ok content', s')
    /\ (content' = content
        \/ exists x, content' = list_set (section_start info) x content).
Proof.
  unfold complete_one, try_except, bind at 1.
  destruct (fetch_content format_as_markdown info s) as [[markdown | e] s1].
  - destruct markdown as [[ | c text] | ].
    + eexists; eexists; split; [ reflexivity | right; eexists; reflexivity ].
    + rewrite bind_log.
      eexists; eexists; split; [ reflexivity | right; eexists; reflexivity ].
    + eexists; eexists; split; [ reflexivity | right; eexists; reflexivity ].
  - rewrite bind_log.
    eexists; eexists; split; [ reflexivity | left; reflexivity ].
Qed.

Lemma complete_all_leaves_lines (order : list nat) (post_infos : list post_info)
  (first : list string) (completed : nat) (content : list string) (s : Sys World) :
  laid_out first post_infos ->
  still_fetching content post_infos ->
  exists (final : list string) (s' : Sys World),
    complete_all format_as_markdown order post_infos completed content s
    = (Ok final, s')
    /\ still_fetching final post_infos.
Proof.
  intro Hfirst. revert completed content s.
  induction order as [ | k rest IH]; intros completed content s H.
  - exists content, s. now split.
  - cbn [complete_all]. destruct (nth_error post_infos k) as [info | ] eqn:E;
      [ | now apply IH ].
    unfold bind at 1.
    destruct (complete_one_writes info (S completed) (List.length post_infos)
                content s) as (content' & s1 & H1 & Hc).
    rewrite H1. apply IH.
    destruct Hc as [-> | [x ->]]; [ exact H | ].
    intros other Hin. rewrite nth_error_list_set_other; [ now apply H | ].
    apply (section_starts_apart first post_infos other info Hfirst Hin).
    eapply nth_error_In, E.
Qed.

(** Whatever the results, the order of completion, the answers of the two
    sources and the rendering, the document written has, for every post
    submitted, the line [> 正在获取内容...] still standing right after the
    item that was replaced. *)
Lemma placeholder_left_behind (d : results) (timestamp : string)
  (order : list nat) (s : Sys World) :
  exists (final : list string) (s' : Sys World),
    save_markdown format_as_markdown d timestamp order s = (Ok tt, s')
    /\ md_file s' = Some (PyStr.concat final)
    /\ still_fetching final (snd (layout_users d (md_header timestamp d) [])).
Proof.
  unfold save_markdown.
  pose proof (layout_users_laid_out d (md_header timestamp d) []
                (fun info (Hin : In info []) => match Hin with end)) as Hlaid.
  destruct (layout_users d (md_header timestamp d) []) as [content post_infos].
  cbn [fst snd] in *. rewrite bind_log.
  destruct (complete_all_leaves_lines order post_infos content 0 content
              (add_trace s [Log INFO (FetchingContent (List.length post_infos))])
              Hlaid (fun info Hin => proj2 (Hlaid info Hin)))
    as (final & s1 & H1 & Hleft).
  unfold bind at 1. rewrite H1.
  exists final. eexists. split; [ reflexivity | ]. split; [ reflexivity | exact Hleft ].
Qed.

End Report.

(** ** The scheduler *)

Section Scheduler.

Context {World : Type} {host : Host World}.
Variable config : Config.
Variable format_as_markdown : dict -> string -> string -> result string.

Local Open Scope py_scope.
Local Open Scope list_scope.

Local Ltac framed :=
  first [ exact (fun s e _ H => H) | exact (fun s w H => H)
        | exact (fun s v H => H) | assumption | exact I
        | reflexivity | intros; reflexivity ].

Lemma txt_restart (t : list string) : keeps (txt_is t) (_restart_browser config).
Proof. apply keeps_restart_when_free with (allowed := any_event); framed. Qed.

Lemma txt_crawl_single_user (t : list string) (username : string) :
  keeps (txt_is t) (crawl_single_user config username).
Proof.
  apply keeps_crawl_single_user with (allowed := any_event);
    first [ exact (txt_restart t) | exact (fun s e _ _ _ H _ => H) | framed ].
Qed.

Lemma crawl_single_user_returns (username : string) (s : Sys World) :
  exists l s1, crawl_single_user config username s = (Ok l, s1).
Proof.
  unfold crawl_single_user, _retry_with_timeout.
  destruct (_retry_crawl_user config username s) as [outcome s1].
  unfold bind at 1, on_world. destruct (join_race _ _) as [r w].
  destruct r, outcome as [l | e]; try destruct e; unfold supervisor_returns;
    cbv iota beta; try rewrite bind_log; eexists; eexists; reflexivity.
Qed.

Lemma add_txt_add_txt (s : Sys World) (a b : list string) :
  add_txt (add_txt s a) b = add_txt s (a ++ b).
Proof. unfold add_txt. cbn. now rewrite app_assoc. Qed.

Lemma bind_write_txt {A} (chunk : string) (k : unit -> M World A) (s : Sys World) :
  bind (write_txt chunk) k s = k tt (add_txt s [chunk]).
Proof. reflexivity. Qed.

Lemma write_lines_run (lines : list string) (s : Sys World) :
  write_lines lines s = (Ok tt, add_txt s (map (fun u => append u PyStr.nl) lines)).
Proof.
  revert s. induction lines as [ | line rest IH]; intro s.
  - destruct s. unfold add_txt. cbn. now rewrite app_nil_r.
  - cbn [write_lines map]. rewrite bind_write_txt, IH, add_txt_add_txt. reflexivity.
Qed.

Lemma append_user_results_run (username : string) (user_urls : list string)
  (current total : nat) (s : Sys World) :
  append_user_results username user_urls current total s
  = (Ok tt, add_txt s (user_entry username user_urls current total)).
Proof.
  unfold append_user_results. rewrite bind_write_txt. unfold bind at 1.
  rewrite write_lines_run. unfold write_txt, add_txt, user_entry.
  cbn [world restart_count target_id trace txt_file md_file].
  now rewrite <- !app_assoc.
Qed.

Lemma handle_user_run (user : string) (completed total : nat)
  (all_results : results) (s : Sys World) :
  exists (user_urls : list string) (s1 : Sys World),
    crawl_single_user config user s = (Ok user_urls, s1)
    /\ txt_file s1 = txt_file s
    /\ handle_user config user completed total all_results s
       = (Ok (results_set user user_urls all_results),
          add_trace (add_txt s1 (user_entry user user_urls completed total))
                    [progress_line user user_urls completed total]).
Proof.
  destruct (crawl_single_user_returns user s) as (l & s1 & H).
  exists l, s1. split; [ exact H | ]. split.
  - pose proof (txt_crawl_single_user (txt_file s) user s eq_refl) as Ht.
    now rewrite H in Ht.
  - unfold handle_user, try_except, bind at 1. rewrite H.
    unfold bind at 1. rewrite append_user_results_run.
    destruct l; rewrite bind_log; reflexivity.
Qed.

Lemma picked_all (earlier users : list string) :
  picked (earlier ++ users) (seq (List.length earlier) (List.length users)) = users.
Proof.
  revert earlier. induction users as [ | user rest IH]; intro earlier; [ reflexivity | ].
  cbn [List.length seq picked flat_map].
  rewrite nth_error_app2 by lia. rewrite Nat.sub_diag. cbn [nth_error app].
  f_equal. specialize (IH (earlier ++ [user])).
  rewrite <- app_assoc, length_app in IH. cbn [List.length app] in IH.
  rewrite Nat.add_1_r in IH. exact IH.
Qed.

Lemma picked_permutation (users : list string) (order : list nat) :
  Permutation order (seq 0 (List.length users)) ->
  Permutation (picked users order) users.
Proof.
  intro H. unfold picked.
  rewrite (Permutation_flat_map _ H).
  pose proof (picked_all [] users) as Hall. cbn [app List.length] in Hall.
  unfold picked in Hall. now rewrite Hall.
Qed.

Lemma txt_save_markdown (t : list string) (d : results) (timestamp : string)
  (order : list nat) :
  keeps (txt_is t) (save_markdown format_as_markdown d timestamp order).
Proof.
  unfold save_markdown.
  destruct (layout_users d (md_header timestamp d) []) as [content post_infos].
  apply keeps_bind; [ apply keeps_log with (allowed := any_event); framed | intro ].
  apply keeps_bind.
  - apply keeps_complete_all with (allowed := any_event); framed.
  - intro final. apply keeps_bind; [ intros s H; exact H | intro ].
    apply keeps_log with (allowed := any_event); framed.
Qed.

Lemma save_markdown_run (d : results) (timestamp : string) (order : list nat)
  (s : Sys World) :
  exists s', save_markdown format_as_markdown d timestamp order s = (Ok tt, s')
             /\ txt_file s' = txt_file s /\ md_file s' <> None.
Proof.
  destruct (placeholder_left_behind format_as_markdown d timestamp order s)
    as (final & s' & H & Hmd & _).
  exists s'. split; [ exact H | ]. split.
  - pose proof (txt_save_markdown (txt_file s) d timestamp order s eq_refl) as Ht.
    now rewrite H in Ht.
  - now rewrite Hmd.
Qed.

Lemma summary_lines_run (d : results) (s : Sys World) :
  exists evs, summary_lines d s = (Ok tt, add_trace s evs).
Proof.
  revert s. induction d as [ | [user user_urls] rest IH]; intro s.
  - exists []. now rewrite add_trace_nil.
  - cbn [summary_lines]. rewrite bind_log.
    destruct (IH (add_trace s [Log INFO (SummaryUser user (List.length user_urls))]))
      as (evs & H).
    rewrite H, add_trace_add_trace. eexists; reflexivity.
Qed.

Lemma print_summary_run (d : results) (s : Sys World) :
  exists evs, _print_summary d s = (Ok tt, add_trace s evs).
Proof.
  unfold _print_summary. rewrite !bind_log. unfold bind at 1.
  match goal with
  | |- context [summary_lines d ?st] =>
      destruct (summary_lines_run d st) as (evs & H)
  end.
  rewrite H. unfold log, emit.
  rewrite !add_trace_add_trace. eexists. unfold add_trace at 1.
  cbn [world restart_count target_id trace txt_file md_file add_trace].
  rewrite <- app_assoc. reflexivity.
Qed.

Lemma create_txt_run (timestamp : string) (users : list string) (s : Sys World) :
  create_txt timestamp users s
  = (Ok tt,
     mkSys (world s) (restart_count s) (target_id s)
           (trace s ++ [Log INFO CreatedTxt]) (txt_header timestamp users)
           (md_file s)).
Proof. reflexivity. Qed.

Lemma finalize_txt_run (total_posts : nat) (s : Sys World) :
  exists (finished : string) (w : World),
    finalize_txt total_posts s
    = (Ok tt, add_txt (with_world s w) (txt_footer finished total_posts)).
Proof.
  unfold finalize_txt, bind at 1, on_world.
  destruct (datetime_now (world s)) as [finished w].
  exists finished, w. rewrite bind_write_txt.
  unfold write_txt, add_txt, with_world, txt_footer.
  cbn [world restart_count target_id trace txt_file md_file].
  now rewrite <- app_assoc.
Qed.

Lemma entry_text_written (user : string) (user_urls : list string)
  (current total : nat) :
  user_entry user user_urls current total = entry_text user user_urls current total.
Proof. reflexivity. Qed.

Lemma handle_all_scheduled (order : list nat) (users : list string)
  (completed : nat) (all_results : results) (s : Sys World) :
  exists (done : list (string * list string)) (all_results' : results)
         (s' : Sys World),
    handle_all config order users completed all_results s = (Ok all_results', s')
    /\ scheduled config users (List.length users) completed s order done s'
    /\ txt_file s'
       = txt_file s ++ entries_text completed (List.length users) done
    /\ map fst done = picked users order.
Proof.
  revert completed all_results s.
  induction order as [ | k rest IH]; intros completed all_results s.
  - exists [], all_results, s. split; [ reflexivity | ].
    split; [ constructor | ]. split; [ | reflexivity ]. cbn. now rewrite app_nil_r.
  - cbn [handle_all picked flat_map].
    destruct (nth_error users k) as [user | ] eqn:E.
    + destruct (handle_user_run user (S completed) (List.length users) all_results s)
        as (user_urls & s1 & Hc & Ht & H).
      unfold bind at 1. rewrite H. rewrite entry_text_written.
      destruct (IH (S completed) (results_set user user_urls all_results)
                   (add_trace (add_txt s1 (entry_text user user_urls (S completed)
                                                      (List.length users)))
                              [progress_line user user_urls (S completed)
                                             (List.length users)]))
        as (done & all' & s' & H' & Hs' & Ht' & Hd).
      exists ((user, user_urls) :: done), all', s'. split; [ exact H' | ].
      split; [ exact (scheduled_step config users _ _ _ _ _ _ _ _ _ _ E Hc Hs') | ].
      split.
      * rewrite Ht'. cbn [txt_file add_trace add_txt entries_text]. rewrite Ht.
        now rewrite <- app_assoc.
      * cbn [map fst]. fold (picked users rest). now rewrite Hd.
    + destruct (IH completed all_results s) as (done & all' & s' & H' & Hs' & Ht' & Hd).
      exists done, all', s'. split; [ exact H' | ].
      split; [ now apply scheduled_skip | ]. split; [ exact Ht' | exact Hd ].
Qed.

(** C6. (1) Handling a profile never raises: the profile is crawled by
    [crawl_single_user], and whatever list that returns, empty when the
    crawl failed, the entry of the profile is appended to the result file
    right after, with the number of its posts and the counter
    [completed/total], its URLs one per line and an empty line; one line is
    logged. (2) When every profile completes once, in any order, the run goes
    to its end: each profile is crawled and its entry appended in the order
    of completion, the counter running from 1; the result file holds the
    header, these entries and the footer with the totals, and the markdown
    file is written. *)
Theorem scheduler_appends_every_profile :
  (forall (user : string) (completed total : nat) (all_results : results)
          (s : Sys World),
      exists (user_urls : list string) (s1 : Sys World),
        crawl_single_user config user s = (Ok user_urls, s1)
        /\ txt_file s1 = txt_file s
        /\ handle_user config user completed total all_results s
           = (Ok (results_set user user_urls all_results),
              add_trace (add_txt s1 (entry_text user user_urls completed total))
                        [progress_line user user_urls completed total]))
  /\ (forall (crawl_order fetch_order : list nat) (users : list string)
             (s s0 : Sys World),
        load s = (Ok users, s0) ->
        users <> [] ->
        Permutation crawl_order (seq 0 (List.length users)) ->
        exists (done : list (string * list string)) (all_results : results)
               (s2 s' : Sys World) (finished : string),
          crawl_all_users config format_as_markdown crawl_order fetch_order s
          = (Ok all_results, s')
          /\ scheduled config users (List.length users) 0
                       (crawl_start config users s0) crawl_order done s2
          /\ map fst done = picked users crawl_order
          /\ Permutation (map fst done) users
          /\ txt_file s'
             = txt_file (crawl_start config users s0)
               ++ entries_text 0 (List.length users) done
               ++ txt_footer finished (total_posts_of all_results)
          /\ md_file s' <> None).
Proof.
  split.
  - intros user completed total all_results s.
    destruct (handle_user_run user completed total all_results s)
      as (user_urls & s1 & H1 & Ht & H).
    exists user_urls, s1. now rewrite <- entry_text_written.
  - intros crawl_order fetch_order users s s0 Hload Hne Hperm.
    unfold crawl_all_users, bind at 1. rewrite Hload.
    destruct users as [ | user rest]; [ now elim Hne | ].
    set (users := user :: rest) in *.
    unfold bind at 1, on_world.
    assert (Hstart : crawl_start config users s0
                     = mkSys (snd (datetime_now (world s0))) (restart_count s0)
                             (target_id s0)
                             ((trace s0 ++ [Log INFO CreatedTxt])
                                ++ [Log INFO (StartingConcurrentCrawl
                                                (user_crawl_workers config))])
                             (txt_header (fst (datetime_now (world s0))) users)
                             (md_file s0)) by reflexivity.
    destruct (datetime_now (world s0)) as [started w1]. cbn [fst snd] in Hstart.
    unfold bind at 1. rewrite create_txt_run. rewrite bind_log.
    unfold bind at 1.
    match goal with
    | |- context [handle_all config crawl_order users 0 [] ?st] =>
        replace st with (crawl_start config users s0)
          by (rewrite Hstart; reflexivity);
        destruct (handle_all_scheduled crawl_order users 0 []
                    (crawl_start config users s0))
          as (done & all_results & s2 & H2 & Hs2 & Ht2 & Hd2)
    end.
    rewrite H2.
    destruct (finalize_txt_run (total_posts_of all_results) s2)
      as (finished & w2 & Hfin).
    unfold bind at 1. rewrite Hfin.
    unfold bind at 1.
    match goal with
    | |- context [save_markdown format_as_markdown all_results started fetch_order ?st] =>
        destruct (save_markdown_run all_results started fetch_order st)
          as (s3 & H3 & Ht3 & Hmd3)
    end.
    rewrite H3.
    destruct (print_summary_run all_results s3) as (evs & H4).
    unfold bind at 1. rewrite H4.
    exists done, all_results, s2, (add_trace s3 evs), finished.
    split; [ reflexivity | ]. split; [ exact Hs2 | ]. split; [ exact Hd2 | ].
    split; [ rewrite Hd2; now apply picked_permutation | ]. split.
    + cbn [txt_file add_trace]. rewrite Ht3.
      cbn [txt_file add_txt add_trace with_world]. rewrite Ht2.
      now rewrite <- app_assoc.
    + exact Hmd3.
Qed.

End Scheduler.

(** * Further properties *)

(** ** What the client returns and what it leaves untouched *)

Section Client.

Context {World : Type} {host : Host World}.
Variable config : Config.

Local Open Scope py_scope.

Lemma safe_ret {A} (a : A) : safe (World := World) (ret a).
Proof. intro s. now exists a, s. Qed.

Lemma safe_bind {A B} (m : M World A) (k : A -> M World B) :
  safe m -> (forall a, safe (k a)) -> safe (bind m k).
Proof.
  intros Hm Hk s. destruct (Hm s) as (a & s1 & E).
  unfold bind. rewrite E. apply Hk.
Qed.

Lemma safe_try {A} (m : M World A) (h : exn -> M World A) :
  (forall e, safe (h e)) -> safe (try_except m h).
Proof.
  intros Hh s. unfold try_except.
  destruct (m s) as [[a | e] s1]; [ now exists a, s1 | apply Hh ].
Qed.

Lemma safe_emit (e : event) : safe (World := World) (emit e).
Proof. intro s. now eexists _, _. Qed.

Lemma safe_log (lv : level) (m : message) : safe (World := World) (log lv m).
Proof. apply safe_emit. Qed.

Lemma safe_on_world {A} (f : World -> A * World) : safe (on_world f).
Proof. intro s. unfold on_world. destruct (f (world s)). now eexists _, _. Qed.

Lemma safe_log_ret {A} (lv : level) (m : message) (a : A) :
  safe (World := World) (log lv m ;; ret a).
Proof. apply safe_bind; [ apply safe_log | intro; apply safe_ret ]. Qed.

Lemma safe_check_status : safe (@check_status World host).
Proof. apply safe_try. intro. apply safe_ret. Qed.

Lemma safe_restart_browser : safe (_restart_browser config).
Proof.
  unfold _restart_browser. apply safe_bind; [ intro s; now exists (restart_count s), s | ].
  intro count. destruct (_ <=? _); [ apply safe_log_ret | ].
  apply safe_bind; [ intro s; now eexists _, _ | intro ].
  apply safe_bind; [ apply safe_log | intro ].
  apply safe_try. intro. apply safe_log_ret.
Qed.

Lemma safe_attempt_handler (e : exn) : safe (World := World) (attempt_handler e).
Proof. destruct e; apply safe_log_ret. Qed.

Lemma safe_execute_attempts (remaining : nat) (attempt : Z) (cmd : list string) :
  safe (execute_attempts config remaining attempt cmd).
Proof.
  revert attempt. induction remaining as [ | n IH]; intro attempt; cbn [execute_attempts].
  - apply safe_ret.
  - apply safe_bind; [ apply safe_try, safe_attempt_handler | ].
    intros [ | | r]; [ apply IH | apply IH | apply safe_ret ].
Qed.

Lemma yields_ret {A} (Q : A -> Prop) (a : A) : Q a -> yields (World := World) Q (ret a).
Proof. intros H s. exact H. Qed.

Lemma yields_bind {A B} (Q : B -> Prop) (m : M World A) (k : A -> M World B) :
  (forall a, yields Q (k a)) -> yields Q (bind m k).
Proof.
  intros Hk s. unfold bind. destruct (m s) as [[a | e] s1]; [ apply Hk | exact I ].
Qed.

Lemma yields_try {A} (Q : A -> Prop) (m : M World A) (h : exn -> M World A) :
  yields Q m -> (forall e, yields Q (h e)) -> yields Q (try_except m h).
Proof.
  intros Hm Hh s. unfold try_except. specialize (Hm s).
  destruct (m s) as [[a | e] s1]; [ exact Hm | apply Hh ].
Qed.

Lemma wrap_response_acknowledged (response : json) :
  truthy (dict_get "ok" (wrap_response response)) = true.
Proof.
  destruct response; try reflexivity. cbn [wrap_response].
  destruct (truthy (dict_get "ok" kv)) eqn:E; [ exact E | reflexivity ].
Qed.

Lemma scan_lines_acknowledged (lines : list string) (i : nat) (d : dict) :
  scan_lines i lines = Scalar d -> truthy (dict_get "ok" d) = true.
Proof.
  revert i. induction lines as [ | line rest IH]; intros i; cbn [scan_lines];
    [ discriminate | ].
  destruct (PyStr.startswith_any _ _); [ apply IH | ].
  destruct (_ && _); [ discriminate | ].
  destruct (String.eqb _ "true"); [ intro H; now inversion H | ].
  destruct (String.eqb _ "false"); [ intro H; now inversion H | ].
  destruct (PyStr.isdigit _); [ | apply IH ].
  destruct (PyStr.py_int _); [ intro H; now inversion H | discriminate ].
Qed.

Lemma merge_lines_acknowledged (rest : list string) (json_text text : string)
    (d : dict) :
  merge_lines json_text rest = Ok (text, Some d) -> truthy (dict_get "ok" d) = true.
Proof.
  revert json_text. induction rest as [ | line rest IH]; intro json_text;
    cbn [merge_lines]; [ discriminate | ].
  destruct (json_loads _) as [response | e].
  - intro H. inversion H. apply wrap_response_acknowledged.
  - destruct e; first [ apply IH | discriminate ].
Qed.

Lemma parse_output_yields (output : string) :
  yields (World := World) acknowledged (_parse_output output).
Proof.
  unfold _parse_output.
  destruct (scan_lines 0 _) as [i | d | | ] eqn:E.
  - destruct (merge_lines _ _) as [[json_text [d | ]] | e] eqn:Em.
    + apply yields_ret. cbn.
      apply (merge_lines_acknowledged _ _ _ d Em).
    + destruct (json_loads json_text) as [response | e].
      * apply yields_ret, wrap_response_acknowledged.
      * destruct e; first
          [ apply yields_bind; intro; apply yields_bind; intro; now apply yields_ret
          | intro s; exact I ].
    + intro s. exact I.
  - apply yields_ret. exact (scan_lines_acknowledged _ _ _ E).
  - intro s. exact I.
  - apply yields_bind. intro. now apply yields_ret.
Qed.

Lemma handle_result_yields (attempt : Z) (result : CompletedProcess) :
  yields acknowledged_flow (handle_result config attempt result).
Proof.
  unfold handle_result.
  assert (Hcheck : yields acknowledged_flow
    (if returncode result =? 0
     then parsed <- _parse_output (stdout result) ;; ret (Return parsed)
     else log ERROR (CommandFailed (stderr result)) ;; ret (Return None))).
  { destruct (_ =? _).
    - intro s. unfold bind. pose proof (parse_output_yields (stdout result) s) as H.
      destruct (_parse_output _ s) as [[r | e] s1]; [ exact H | exact I ].
    - apply yields_bind. intro. now apply yields_ret. }
  destruct (_check_tab_not_found result); [ | exact Hcheck ].
  destruct (_ <? _); [ | exact Hcheck ].
  apply yields_bind. intro. apply yields_bind. intros [ | ]; now apply yields_ret.
Qed.

Lemma execute_attempts_yields (remaining : nat) (attempt : Z) (cmd : list string) :
  yields acknowledged (execute_attempts config remaining attempt cmd).
Proof.
  revert attempt. induction remaining as [ | n IH]; intro attempt; cbn [execute_attempts].
  - now apply yields_ret.
  - intro s. unfold bind.
    assert (H : yields acknowledged_flow
                  (try_except (attempt_body config attempt cmd) attempt_handler)).
    { apply yields_try.
      - unfold attempt_body. apply yields_bind. intro. apply handle_result_yields.
      - intro e. destruct e; (apply yields_bind; intro; now apply yields_ret). }
    specialize (H s).
    destruct (try_except _ _ s) as [[[ | | r] | e] s1]; cbn in H |- *;
      [ apply IH | apply IH | exact H | exact I ].
Qed.

(** The handle is a field no command touches: only [navigate] assigns it. *)
Lemma handle_restart (t : option json) :
  keeps (handle_is t) (_restart_browser config).
Proof.
  apply keeps_restart_when_free with (allowed := any_event);
    first [ exact (fun s e _ H => H) | exact (fun s w H => H)
          | exact (fun s n H => H) | reflexivity | intros; reflexivity ].
Qed.

Lemma handle_execute_action (t : option json) (cmd : list string) :
  keeps (handle_is t) (_execute_action config cmd).
Proof.
  apply keeps_execute_action with (allowed := any_event);
    first [ exact (fun s e _ H => H) | exact (fun s w H => H)
          | exact (handle_restart t) | reflexivity | intros; reflexivity ].
Qed.

Lemma execute_action_run (cmd : list string) (s : Sys World) :
  exists (reply : option dict) (s' : Sys World),
    _execute_action config cmd s = (Ok reply, s')
    /\ acknowledged reply
    /\ target_id s' = target_id s.
Proof.
  destruct (safe_execute_attempts
              (Z.to_nat (browser_action_max_attempts config)) 1 cmd s)
    as (reply & s' & E).
  exists reply, s'. split; [ exact E | ].
  pose proof (execute_attempts_yields
                (Z.to_nat (browser_action_max_attempts config)) 1 cmd s) as Hy.
  pose proof (handle_execute_action (target_id s) cmd s eq_refl) as Hk.
  unfold _execute_action in Hk. rewrite E in Hy, Hk. now split.
Qed.

(** X1. [_execute_action] returns on every command, from every state and
    whatever the control surface does: a timeout, a failure to start the
    process, a session lost for good or an output on which the parser raises
    all end in [None]. A reply it returns holds a true [ok], so it is never
    the empty dictionary, and the handle of the page is left as it was. *)
Theorem execute_action_never_raises (cmd : list string) (s : Sys World) :
  exists (reply : option dict) (s' : Sys World),
    _execute_action config cmd s = (Ok reply, s')
    /\ match reply with
       | Some d => truthy (dict_get "ok" d) = true /\ d <> []
       | None => True
       end
    /\ target_id s' = target_id s.
Proof.
  destruct (execute_action_run cmd s) as (reply & s' & E & Hack & Ht).
  exists reply, s'. repeat split; try assumption.
  destruct reply as [d | ]; [ | exact I ].
  split; [ exact Hack | ]. intro Hd. subst d. discriminate Hack.
Qed.

Lemma client_event (n : Z) (t : option json) (k : Z) (s : Sys World) (e : event) :
  not_stop e = true -> client_is n t k s -> client_is n t k (add_trace s [e]).
Proof.
  unfold not_stop, client_is. intros He (H1 & H2 & H3).
  rewrite restarts_performed_add. destruct (is_stop e); [ discriminate | ].
  cbn. repeat split; try assumption. lia.
Qed.

Local Ltac gentle n t k :=
  first [ exact (client_event n t k) | exact (fun s w H => H)
        | assumption | exact I | reflexivity | intros; reflexivity ].

Lemma client_check_status (n : Z) (t : option json) (k : Z) :
  keeps (client_is n t k) (@check_status World host).
Proof. apply keeps_check_status with (allowed := not_stop); gentle n t k. Qed.

Lemma restart_browser_run (s : Sys World) :
  exists (ok : bool) (s' : Sys World),
    _restart_browser config s = (Ok ok, s')
    /\ if browser_max_restarts config <=? restart_count s
       then ok = false
            /\ s' = add_trace s [Log WARN (AlreadyRestarted (restart_count s))]
       else client_is (restart_count s + 1) (target_id s)
                      (restarts_performed s + 1) s'.
Proof.
  destruct (safe_restart_browser s) as (ok & s' & E). exists ok, s'.
  split; [ exact E | ].
  revert E. unfold _restart_browser. rewrite bind_get_restart_count.
  destruct (browser_max_restarts config <=? restart_count s) eqn:Hc.
  - rewrite bind_log. unfold ret. intro E. inversion E. now split.
  - rewrite bind_set_restart_count, bind_log.
    set (s1 := add_trace _ _).
    unfold log at 1. rewrite try_bind_emit.
    unfold _run_command at 1. rewrite try_bind_assoc, try_bind_emit.
    set (n := restart_count s + 1). set (k := restarts_performed s + 1).
    assert (Hi : client_is n (target_id s) k
                   (add_trace (add_trace s1 [Log INFO StoppingBrowser])
                              [Cmd stop_command 30])).
    { unfold client_is, s1. rewrite !restarts_performed_add. cbn.
      subst n k. unfold restarts_performed. cbn [trace].
      split; [ reflexivity | split; [ reflexivity | lia ] ]. }
    cbv beta. intro E.
    match type of E with
    | try_except ?m ?h ?s0 = _ =>
        assert (K : keeps (client_is n (target_id s) k) (try_except m h))
    end.
    { apply keeps_try.
      - apply keeps_bind.
        + apply keeps_bind; [ apply keeps_on_world; gentle n (target_id s) k | ].
          intros [p | | msg]; [ apply keeps_ret | apply keeps_raise | apply keeps_raise ].
        + intro.
          apply keeps_bind;
            [ apply keeps_sleep with (allowed := not_stop); gentle n (target_id s) k
            | intro ].
          apply keeps_bind;
            [ apply keeps_log with (allowed := not_stop); gentle n (target_id s) k
            | intro ].
          apply keeps_bind;
            [ apply keeps_run_command with (allowed := not_stop);
              gentle n (target_id s) k
            | intro ].
          apply keeps_bind;
            [ apply keeps_sleep with (allowed := not_stop); gentle n (target_id s) k
            | intro ].
          apply keeps_bind; [ apply client_check_status | intros [ | ] ];
            (apply keeps_bind;
              [ apply keeps_log with (allowed := not_stop); gentle n (target_id s) k
              | intro; apply keeps_ret ]).
      - intro e. apply keeps_bind;
          [ apply keeps_log with (allowed := not_stop); gentle n (target_id s) k
          | intro; apply keeps_ret ]. }
    apply (f_equal snd) in E. cbn [snd] in E. rewrite <- E. exact (K _ Hi).
Qed.

(** X2. [_restart_browser] never raises. With the budget spent it answers
    [False] after one warning and sends nothing. Otherwise the restart is
    counted before anything is sent and stays counted whether the stop, the
    start or the final status check fails: the counter goes up by one, one
    stop command is sent, and the handle of the page is left as it was. *)
Theorem restart_is_counted_once (s : Sys World) :
  exists (ok : bool) (s' : Sys World),
    _restart_browser config s = (Ok ok, s')
    /\ target_id s' = target_id s
    /\ if browser_max_restarts config <=? restart_count s
       then ok = false
            /\ s' = add_trace s [Log WARN (AlreadyRestarted (restart_count s))]
       else restart_count s' = restart_count s + 1
            /\ restarts_performed s' = restarts_performed s + 1.
Proof.
  destruct (restart_browser_run s) as (ok & s' & E & H). exists ok, s'.
  split; [ exact E | ].
  destruct (_ <=? _).
  - destruct H as [H1 H2]. subst s'. now repeat split.
  - destruct H as (H1 & H2 & H3). now repeat split.
Qed.

Lemma safe_ensure_available : safe (@ensure_available World host).
Proof.
  unfold ensure_available. apply safe_bind; [ apply safe_check_status | ].
  intros [ | ]; [ apply safe_ret | ].
  apply safe_bind; [ apply safe_log | intro ].
  apply safe_try. intro. apply safe_ret.
Qed.

(** X3. [check_status] and [ensure_available] never raise, and
    [ensure_available] only ever starts the browser: it sends no stop
    command, spends nothing of the restart budget and leaves the handle of
    the page as it was. *)
Theorem ensure_available_only_starts (s : Sys World) :
  (exists (up : bool) (s' : Sys World), check_status s = (Ok up, s'))
  /\ exists (ok : bool) (s' : Sys World),
       ensure_available s = (Ok ok, s')
       /\ restart_count s' = restart_count s
       /\ target_id s' = target_id s
       /\ restarts_performed s' = restarts_performed s.
Proof.
  split; [ apply safe_check_status | ].
  destruct (safe_ensure_available s) as (ok & s' & E). exists ok, s'.
  split; [ exact E | ].
  assert (K : keeps (client_is (restart_count s) (target_id s) (restarts_performed s))
                    (@ensure_available World host)).
  { apply keeps_ensure_available with (allowed := not_stop);
      gentle (restart_count s) (target_id s) (restarts_performed s). }
  specialize (K s (conj eq_refl (conj eq_refl eq_refl))). rewrite E in K.
  exact K.
Qed.

(** X4. [navigate] never raises. When it answers [True] the handle has been
    assigned; when it answers [False] the handle is the one of the page
    opened before, if there was one. *)
Theorem navigate_keeps_old_handle_on_failure (url : string) (s : Sys World) :
  exists (ok : bool) (s' : Sys World),
    navigate config url s = (Ok ok, s')
    /\ if ok then exists v : json, target_id s' = Some v
       else target_id s' = target_id s.
Proof.
  unfold navigate. rewrite bind_log.
  destruct (execute_action_run
              ["openclaw"; "browser"; "navigate"; "--json"; url]
              (add_trace s [Log INFO (Navigating url)]))
    as (reply & s1 & E & _ & Ht).
  unfold bind at 1. rewrite E.
  destruct reply as [[ | kv d] | ].
  - exists false, s1. now split.
  - eexists true, _. split; [ reflexivity | ]. now eexists.
  - exists false, s1. now split.
Qed.

Lemma raises_only_safe {A} (E : exn -> Prop) (m : M World A) :
  safe m -> raises_only E m.
Proof. intros H s. destruct (H s) as (a & s' & ->). exact I. Qed.

Lemma raises_only_raise {A} (E : exn -> Prop) (e : exn) :
  E e -> raises_only (World := World) (A := A) E (raise e).
Proof. intros H s. exact H. Qed.

Lemma raises_only_bind {A B} (E : exn -> Prop) (m : M World A)
    (k : A -> M World B) :
  raises_only E m -> (forall a, raises_only E (k a)) -> raises_only E (bind m k).
Proof.
  intros Hm Hk s. unfold bind. specialize (Hm s).
  destruct (m s) as [[a | e] s1]; [ apply Hk | exact Hm ].
Qed.

(** What [json.loads] raises besides [JSONDecodeError] is caught nowhere in
    [evaluate]. *)
Lemma loads_left_uncaught (text : string) (e : exn) :
  json_loads text = Raise e -> e <> JSONDecodeError -> left_uncaught e.
Proof. intros H N. split; [ exact N | now exists text ]. Qed.

Lemma decode_evaluate_string_raises (text : string) :
  raises_only (World := World) left_uncaught (decode_evaluate_string text).
Proof.
  unfold decode_evaluate_string.
  destruct (json_loads text) as [v | e] eqn:E1.
  - apply raises_only_bind; [ apply raises_only_safe, safe_log | intro ].
    destruct v; try apply raises_only_safe, safe_ret.
    destruct (PyStr.startswith_any _ _); [ | apply raises_only_safe, safe_ret ].
    destruct (json_loads s) as [v | e] eqn:E2;
      [ apply raises_only_safe, safe_log_ret | ].
    destruct e;
      first [ apply raises_only_safe, safe_log_ret
            | apply raises_only_raise, (loads_left_uncaught _ _ E2);
              discriminate ].
  - destruct e;
      first [ apply raises_only_safe, safe_log_ret
            | apply raises_only_raise, (loads_left_uncaught _ _ E1);
              discriminate ].
Qed.

Lemma handle_evaluate (t : option json) (js_code : string) :
  keeps (handle_is t) (evaluate config js_code).
Proof.
  apply keeps_evaluate with (allowed := any_event);
    first [ exact (fun s e _ H => H) | exact (fun s w H => H)
          | exact (handle_restart t) | reflexivity | intros; reflexivity ].
Qed.

Lemma evaluate_raises (js_code : string) (s : Sys World) :
  target_id s <> None ->
  match fst (evaluate config js_code s) with
  | Ok _ => True
  | Raise e => left_uncaught e
  end.
Proof.
  intro Hs. unfold evaluate. unfold bind at 1, get_target_id.
  destruct (target_id s) as [tid | ]; [ | contradiction ].
  match goal with
  | |- match fst (?m s) with _ => _ end =>
      cut (raises_only left_uncaught m); [ intro K; exact (K s) | ]
  end.
  destruct (negb (truthy tid)); [ apply raises_only_safe, safe_log_ret | ].
  apply raises_only_bind.
  - apply raises_only_safe. destruct tid;
      try (destruct (1 <=? _); [ apply safe_log_ret | apply safe_ret ]).
    apply safe_execute_attempts.
  - intros [[ | kv d] | ]; try apply raises_only_safe, safe_ret.
    apply raises_only_bind; [ apply raises_only_safe, safe_log | intro ].
    apply raises_only_bind; [ apply raises_only_safe, safe_log | intro ].
    destruct (dict_get "result" _); try apply raises_only_safe, safe_ret.
    + destruct (PyStr.startswith_any _ _);
        [ apply decode_evaluate_string_raises | apply raises_only_safe, safe_ret ].
    + apply raises_only_safe, safe_log_ret.
Qed.

(** X5. [evaluate] on a client that has never had a handle assigned raises
    [AttributeError] before anything is sent or logged: [__init__] does not
    create the field. Once a handle has been assigned, [evaluate] never
    changes it, whether it returns or raises, and the only exceptions that
    leave it are those [json.loads] raises on the text of a result besides
    [JSONDecodeError] (a [RecursionError] on a deeply nested text): the
    [except] clause of the decoding names [JSONDecodeError] alone. *)
Theorem evaluate_needs_a_navigate (js_code : string) (s : Sys World) :
  match target_id s with
  | None => evaluate config js_code s = (Raise AttributeError, s)
  | Some _ =>
      target_id (snd (evaluate config js_code s)) = target_id s
      /\ match fst (evaluate config js_code s) with
         | Ok _ => True
         | Raise e => left_uncaught e
         end
  end.
Proof.
  destruct (target_id s) as [tid | ] eqn:Ht.
  - split.
    + rewrite <- Ht. exact (handle_evaluate (target_id s) js_code s eq_refl).
    + apply evaluate_raises. now rewrite Ht.
  - unfold evaluate. unfold bind, get_target_id. now rewrite Ht.
Qed.

End Client.
(** ** The marker of a lost session *)

Section Marker.

Lemma lower_app (a b : string) :
  PyStr.lower (a ++ b) = (PyStr.lower a ++ PyStr.lower b)%string.
Proof. induction a as [ | c a IH]; cbn; [ reflexivity | now rewrite IH ]. Qed.

Lemma prefix_of_app (p r : string) : String.prefix p (p ++ r) = true.
Proof.
  induction p as [ | c p IH]; cbn; [ now destruct r | ].
  destruct (ascii_dec c c) as [ _ | N ]; [ exact IH | now elim N ].
Qed.

Lemma prefix_split (p s : string) :
  String.prefix p s = true -> exists r, s = (p ++ r)%string.
Proof.
  revert s. induction p as [ | a p IH]; intros s H.
  - now exists s.
  - destruct s as [ | b s]; cbn in H; [ discriminate | ].
    destruct (ascii_dec a b) as [-> | ]; [ | discriminate ].
    destruct (IH s H) as [r ->]. now exists r.
Qed.

Lemma contains_unfold (sub s : string) :
  PyStr.contains sub s
  = PyStr.startswith sub s
    || match s with
       | EmptyString => false
       | String _ r => PyStr.contains sub r
       end.
Proof. now destruct s. Qed.

(** [sub in s] holds exactly when [s] reads [pre ++ sub ++ post]. *)
Lemma contains_spec (sub s : string) :
  PyStr.contains sub s = true
  <-> exists pre post : string, s = (pre ++ sub ++ post)%string.
Proof.
  split.
  - induction s as [ | c s IH]; rewrite contains_unfold; intro H;
      apply orb_true_iff in H; destruct H as [H | H]; try discriminate.
    + destruct (prefix_split _ _ H) as [r ->]. now exists ""%string, r.
    + destruct (prefix_split _ _ H) as [r ->]. now exists ""%string, r.
    + destruct (IH H) as (pre & post & ->). now exists (String c pre), post.
  - intros (pre & post & ->). induction pre as [ | c pre IH].
    + rewrite contains_unfold. cbn [append]. unfold PyStr.startswith.
      now rewrite prefix_of_app.
    + rewrite contains_unfold. cbn [append]. rewrite IH. apply orb_true_r.
Qed.

(** X6. [_check_tab_not_found] answers [True] exactly when the two streams of
    the command, the error stream first and the output after it, put end to
    end and in lower case, read [tab not found] somewhere: in either stream,
    in any letter case, whatever the return code, and also across the seam
    of the two streams. *)
Theorem session_loss_marker (result : CompletedProcess) :
  _check_tab_not_found result = true
  <-> exists pre post : string,
        (PyStr.lower (stderr result) ++ PyStr.lower (stdout result)
         = pre ++ "tab not found" ++ post)%string.
Proof.
  unfold _check_tab_not_found. rewrite lower_app. apply contains_spec.
Qed.

End Marker.
(** ** Permalinks *)

Section Permalinks.

Context {World : Type} {host : Host World}.

Local Open Scope py_scope.

(** X7. The permalink of a post, as the page script builds it and with
    whatever follows the identifier, gives its identifier back: the profile
    name is made of word characters, the identifier of digits, and what
    follows does not start with a digit. *)
Theorem permalink_gives_its_identifier (site user tweet_id rest : string) :
  site = "x.com" \/ site = "twitter.com" ->
  PyStr.is_empty user = false ->
  PyStr.all_chars PyStr.is_word user = true ->
  PyStr.isdigit tweet_id = true ->
  ahead (fun c => negb (PyStr.is_digit c)) rest = true ->
  _extract_tweet_id (permalink site user tweet_id ++ rest) = Some tweet_id.
Proof. apply extract_tweet_id_permalink. Qed.

(** X8. Whatever the URL, an identifier that [_extract_tweet_id] returns is a
    non-empty string of digits. *)
Theorem extracted_identifier_is_a_number (url tweet_id : string) :
  _extract_tweet_id url = Some tweet_id -> PyStr.isdigit tweet_id = true.
Proof.
  unfold _extract_tweet_id.
  destruct (re_search "/status/" url) eqn:E.
  - intro H. inversion H. subst. exact (re_search_digits _ _ _ E).
  - apply re_search_digits.
Qed.

Lemma all_chars_app (p : ascii -> bool) (a b : string) :
  PyStr.all_chars p (a ++ b) = PyStr.all_chars p a && PyStr.all_chars p b.
Proof.
  induction a as [ | c a IH]; cbn; [ reflexivity | ].
  now rewrite IH, andb_assoc.
Qed.

Lemma all_chars_impl (p q : ascii -> bool) (s : string) :
  (forall c, p c = true -> q c = true) ->
  PyStr.all_chars p s = true -> PyStr.all_chars q s = true.
Proof.
  intro H. induction s as [ | c s IH]; cbn; [ reflexivity | ].
  intro Hs. apply andb_true_iff in Hs. destruct Hs as [Hc Hs].
  now rewrite (H c Hc), (IH Hs).
Qed.

Lemma startswith_needs (q : ascii -> bool) (p s : string) :
  PyStr.all_chars q p = false -> PyStr.all_chars q s = true ->
  PyStr.startswith p s = false.
Proof.
  intros Hp Hs. unfold PyStr.startswith.
  destruct (String.prefix p s) eqn:E; [ | reflexivity ].
  destruct (prefix_split p s E) as [r ->].
  rewrite all_chars_app, Hp in Hs. discriminate.
Qed.

Lemma sub_hosts_plain (s : string) :
  PyStr.all_chars no_dot s = true -> sub_hosts 0 s = s.
Proof.
  induction s as [ | c s IH]; [ reflexivity | ].
  intro H. cbn [sub_hosts].
  rewrite (startswith_needs no_dot "x.com" (String c s) eq_refl H).
  rewrite (startswith_needs no_dot "twitter.com" (String c s) eq_refl H).
  cbn in H. apply andb_true_iff in H. now rewrite (IH (proj2 H)).
Qed.

Lemma word_has_no_dot (c : ascii) : PyStr.is_word c = true -> no_dot c = true.
Proof.
  destruct c as [[ | ] [ | ] [ | ] [ | ] [ | ] [ | ] [ | ] [ | ]];
    first [ reflexivity | discriminate ].
Qed.

Lemma digit_is_word (c : ascii) : PyStr.is_digit c = true -> PyStr.is_word c = true.
Proof. unfold PyStr.is_word. now intros ->. Qed.

Lemma sub_hosts_permalink (site user tweet_id : string) :
  site = "x.com" \/ site = "twitter.com" ->
  PyStr.all_chars PyStr.is_word user = true ->
  PyStr.isdigit tweet_id = true ->
  sub_hosts 0 (permalink site user tweet_id)
  = permalink "api.fxtwitter.com" user tweet_id.
Proof.
  intros Hsite Hw Hd.
  unfold PyStr.isdigit in Hd. apply andb_true_iff in Hd. destruct Hd as [_ Hd].
  assert (Hplain : sub_hosts 0 (user ++ "/status/" ++ tweet_id)
                   = user ++ "/status/" ++ tweet_id).
  { apply sub_hosts_plain. rewrite !all_chars_app.
    rewrite (all_chars_impl _ _ user word_has_no_dot Hw).
    rewrite (all_chars_impl _ _ tweet_id
               (fun c H => word_has_no_dot c (digit_is_word c H)) Hd).
    reflexivity. }
  unfold permalink.
  destruct Hsite as [-> | ->]; cbn -[sub_hosts] in Hplain |- *;
    cbn [sub_hosts PyStr.startswith String.prefix append]; cbn -[sub_hosts];
    now rewrite Hplain.
Qed.

Lemma append_empty (s : string) : (s ++ "" = s)%string.
Proof. induction s as [ | c s IH]; cbn; [ reflexivity | now rewrite IH ]. Qed.

(** X9. The requests [fetch_post] makes for a permalink: the first goes to the
    same path on [api.fxtwitter.com]; a second one, if any, goes to the
    syndication address of the identifier; there is no third. *)
Theorem permalink_is_asked_of_the_two_sources (site user tweet_id : string)
  (s : Sys World) :
  site = "x.com" \/ site = "twitter.com" ->
  PyStr.is_empty user = false ->
  PyStr.all_chars PyStr.is_word user = true ->
  PyStr.isdigit tweet_id = true ->
  exists more : list string,
    gets (trace (snd (fetch_post (permalink site user tweet_id) s)))
    = (gets (trace s)
       ++ permalink "api.fxtwitter.com" user tweet_id :: more)%list
    /\ (more = [] \/ more = [syndication_url tweet_id]).
Proof.
  intros Hsite Hu Hw Hd.
  pose proof (extract_tweet_id_permalink site user tweet_id "" Hsite Hu Hw Hd eq_refl)
    as Hid.
  rewrite append_empty in Hid.
  unfold fetch_post. rewrite Hid.
  destruct tweet_id as [ | c tweet_id]; [ discriminate | ].
  destruct (fxtwitter_run (permalink site user (String c tweet_id)) s)
    as (primary & s1 & E1 & G1).
  rewrite (sub_hosts_permalink site user (String c tweet_id) Hsite Hw Hd) in G1.
  unfold bind at 1. rewrite E1.
  destruct (marked "tweet" primary) as [[d | ] | e].
  - exists []. split; [ | now left ].
    cbn [snd trace]. unfold bind, log, emit, ret. cbn [snd trace].
    now rewrite gets_app, G1, app_nil_r.
  - destruct (syndication_run (String c tweet_id) s1) as (secondary & s2 & E2 & G2).
    exists [syndication_url (String c tweet_id)]. split; [ | now right ].
    unfold bind at 1. rewrite E2.
    destruct (marked "text" secondary) as [[d | ] | e];
      unfold bind, log, emit, ret, raise; cbn [snd trace];
      rewrite ?gets_app, G2, G1, ?app_nil_r, <- app_assoc; reflexivity.
  - exists []. split; [ | now left ]. unfold raise. cbn [snd]. exact G1.
Qed.

End Permalinks.
(** ** What a collection returns *)

Section Collection.

Context {World : Type} {host : Host World}.
Variable config : Config.

Local Open Scope py_scope.

Lemma yields_then {A B} (R : A -> Prop) (Q : B -> Prop) (m : M World A)
  (k : A -> M World B) :
  yields R m -> (forall a, R a -> yields Q (k a)) -> yields Q (bind m k).
Proof.
  intros Hm Hk s. unfold bind. specialize (Hm s).
  destruct (m s) as [[a | e] s1]; [ now apply Hk | exact I ].
Qed.

Lemma yields_raise {A} (Q : A -> Prop) (e : exn) : yields (World := World) Q (raise e).
Proof. intro s. exact I. Qed.

Lemma yields_try_json {A} (Q : A -> Prop) (m h : M World A) :
  yields Q m -> yields Q h -> yields Q (try_except_json m h).
Proof.
  intros Hm Hh s. unfold try_except_json. specialize (Hm s).
  destruct (m s) as [[a | e] s1]; [ exact Hm | ].
  destruct e; try exact I. apply Hh.
Qed.

Lemma mem_In (u : string) (l : list string) : mem u l = true <-> In u l.
Proof.
  unfold mem. rewrite existsb_exists. split.
  - intros (x & Hx & E). apply String.eqb_eq in E. now subst.
  - intro H. exists u. split; [ exact H | apply String.eqb_refl ].
Qed.

Lemma NoDup_new (seen items : list string) :
  NoDup seen -> NoDup items ->
  NoDup (seen ++ filter (fun u => negb (mem u seen)) items).
Proof.
  intros Hs Hi. apply NoDup_app; [ exact Hs | now apply NoDup_filter | ].
  intros u Hu Hf. apply filter_In in Hf. destruct Hf as [_ Hf].
  apply negb_true_iff in Hf. apply mem_In in Hu. congruence.
Qed.

Lemma yields_at {A} (Q : A -> Prop) (m : M World A) (s : Sys World) :
  yields Q m -> match fst (m s) with Ok a => Q a | Raise _ => True end.
Proof. intro H. apply H. Qed.

Lemma new_urls_once (scroll_num : Z) (items : list string) (st : scroll_state) :
  NoDup items ->
  collected_once st ->
  yields (fun r => collected_once (snd r))
    (let new_urls := filter (fun u => negb (mem u (seen_ids st))) items in
     match new_urls with
     | _ :: _ =>
         log DEBUG (FoundNewUrls (List.length new_urls)) ;;
         ret (@Next unit,
              mkScroll (urls st ++ new_urls) (seen_ids st ++ new_urls)
                       0 (consecutive_errors st) (found_yesterday st))
     | [] =>
         let st1 := mkScroll (urls st) (seen_ids st) (no_new_count st + 1)
                             (consecutive_errors st) (found_yesterday st) in
         log DEBUG (NoNewPosts (no_new_count st1)) ;;
         if scroll_no_new_threshold config <=? no_new_count st1 then
           log INFO NoNewPostsStopping ;; ret (Break, st1)
         else if scroll_early_stop_on_yesterday config
                 && (scroll_num =? 1)
                 && negb (match urls st1 with [] => true | _ => false end)
         then
           old <- first_url_is_old st1 ;;
           if old : bool
           then ret (Break, mkScroll (urls st1) (seen_ids st1) (no_new_count st1)
                                     (consecutive_errors st1) true)
           else ret (Next, st1)
         else ret (Next, st1)
     end).
Proof.
  intros Hitems [Hseen Hnodup]. cbv zeta.
  pose proof (NoDup_new (seen_ids st) items) as Hnew.
  rewrite Hseen in Hnew at 1. specialize (Hnew Hnodup Hitems).
  destruct (filter _ items) as [ | u new_urls] eqn:Ef.
  - apply yields_bind. intro.
    destruct (_ <=? _); [ apply yields_bind; intro; now apply yields_ret | ].
    destruct (_ && _); [ | now apply yields_ret ].
    apply yields_bind. intros [ | ]; now apply yields_ret.
  - apply yields_bind. intro. apply yields_ret. cbn.
    split; [ now rewrite Hseen | rewrite <- Hseen; exact Hnew ].
Qed.

Lemma collect_page_once (scroll_num : Z) (result : json) (st : scroll_state) :
  (forall items, page_items result = Some items -> NoDup items) ->
  collected_once st ->
  yields (fun r => collected_once (snd r)) (collect_page config scroll_num result st).
Proof.
  intros Hpage Hst s0. unfold collect_page. unfold bind at 1.
  destruct result; try exact I; cbn [page_urls_of page_items] in *.
  - (* a string, decoded first *)
    destruct (json_loads s) as [v | ]; [ | exact I ].
    unfold ret at 1. destruct (iterate v) as [items | e]; [ | exact I ].
    apply yields_at. apply new_urls_once; [ now apply Hpage | exact Hst ].
  - (* a list *)
    unfold ret at 1. cbn [iterate].
    destruct (all_strings l) as [items | ]; [ | exact I ].
    apply yields_at. apply new_urls_once; [ now apply Hpage | exact Hst ].
Qed.

Lemma crawl_user_nonempty (username : string) :
  yields (fun l : list string => l <> []) (crawl_user config username).
Proof.
  unfold crawl_user. apply yields_bind. intro.
  apply yields_bind. intros [ | ]; [ | apply yields_raise ].
  apply yields_bind. intros [ | ]; [ | apply yields_raise ].
  apply yields_bind. intro. apply yields_bind. intro.
  apply yields_bind. intros [ | u l]; [ apply yields_raise | ].
  now apply yields_ret.
Qed.

(** X10. [crawl_user] never returns an empty list: a profile that shows no post
    makes it raise, and so does a browser that is not available or a page
    that cannot be opened. *)
Theorem crawl_user_returns_posts (username : string) (s s' : Sys World)
  (l : list string) :
  crawl_user config username s = (Ok l, s') -> l <> [].
Proof.
  intro E. pose proof (crawl_user_nonempty username s) as H. now rewrite E in H.
Qed.

Lemma retry_with_timeout_run (func : M World (list string)) (username : string)
  (timeout : Z) (s : Sys World) :
  exists (l : list string) (s' reached : Sys World) (evs : list event),
    _retry_with_timeout func username timeout s = (Ok l, s')
    /\ (l = [] \/ fst (func s) = Ok l)
    /\ s' = add_trace reached evs
    /\ (evs = [] \/ l = [] /\ exists e, evs = [Log ERROR (ExceptionLine e)])
    /\ ((exists w, reached = with_world (snd (func s)) w)
        \/ l = []
           /\ exists w done restarts handle,
                reached = standing s (with_world (snd (func s)) w)
                                   done restarts handle).
Proof.
  unfold _retry_with_timeout.
  destruct (func s) as [outcome s1]. cbn [fst snd].
  unfold bind at 1, on_world.
  destruct (join_race timeout (world s1)) as [r w].
  destruct r as [ | | done restarts handle], outcome as [l | e];
    unfold supervisor_returns; cbv iota beta; try destruct e;
    first
      [ eexists _, _, _, [Log ERROR (ExceptionLine _)];
        split; [ reflexivity | ];
        split; [ now left | ];
        split; [ reflexivity | ];
        split; [ right; split; [ reflexivity | now eexists ] | ];
        first [ left; exists w; reflexivity
              | right; split; [ reflexivity | ];
                exists w, done, restarts, handle; reflexivity ]
      | eexists _, _, (with_world s1 w), [];
        split; [ reflexivity | ];
        split; [ auto | ];
        split; [ now rewrite add_trace_nil | ];
        split; [ now left | left; exists w; reflexivity ] ].
Qed.


Hypothesis distinct : pages_are_distinct config.

Lemma scroll_pass_once (username : string) (scroll_num : Z) (st : scroll_state) :
  collected_once st ->
  yields (fun r => collected_once (snd r)) (scroll_pass config username scroll_num st).
Proof.
  intros Hst s. unfold scroll_pass. rewrite bind_log.
  set (s1 := add_trace s _). unfold bind at 1.
  destruct (evaluate config _get_scroll_js s1) as [[v | e] s2] eqn:Ev; [ | exact I ].
  pose proof (fun items => distinct _ _ _ _ items Ev) as Hpage.
  apply yields_at.
  apply yields_then with (R := fun r => collected_once (snd r)).
  - assert (Hkeep : forall n e b,
              collected_once (mkScroll (urls st) (seen_ids st) n e b))
      by (intros; exact Hst).
    destruct v; try (apply yields_ret; apply Hkeep);
      (apply yields_try_json;
        [ apply collect_page_once; [ exact Hpage | apply Hkeep ]
        | apply yields_bind; intro; apply yields_ret; apply Hkeep ]).
  - intros [f st'] H. cbn in H. destruct f; try now apply yields_ret.
    destruct (_ <=? _); [ apply yields_bind; intro; now apply yields_ret | ].
    destruct (found_yesterday st'); [ now apply yields_ret | ].
    destruct (_ <? _); [ | now apply yields_ret ].
    apply yields_bind. intro. apply yields_bind. intro.
    apply yields_bind. intro. now apply yields_ret.
Qed.

Lemma scroll_loop_once (remaining : nat) (username : string) (scroll_num : Z)
  (st : scroll_state) :
  collected_once st ->
  yields collected_once (scroll_loop config remaining username scroll_num st).
Proof.
  revert scroll_num st.
  induction remaining as [ | n IH]; intros scroll_num st Hst; cbn [scroll_loop].
  - now apply yields_ret.
  - apply yields_then with (R := fun r => collected_once (snd r));
      [ now apply scroll_pass_once | ].
    intros [f st'] H. cbn in H.
    destruct f; [ now apply IH | now apply yields_ret | now apply yields_ret ].
Qed.

Lemma scroll_and_collect_once (username : string) :
  yields (@NoDup string) (_scroll_and_collect config username).
Proof.
  unfold _scroll_and_collect.
  apply yields_then with (R := collected_once).
  - apply scroll_loop_once. split; [ reflexivity | constructor ].
  - intros st [_ H]. apply yields_bind. intro. now apply yields_ret.
Qed.

Lemma crawl_user_once (username : string) :
  yields (fun l => l <> [] /\ NoDup l) (crawl_user config username).
Proof.
  unfold crawl_user. apply yields_bind. intro.
  apply yields_bind. intros [ | ]; [ | apply yields_raise ].
  apply yields_bind. intros [ | ]; [ | apply yields_raise ].
  apply yields_bind. intro. apply yields_bind. intro.
  apply yields_then with (R := @NoDup string); [ apply scroll_and_collect_once | ].
  intros [ | u l] H; [ apply yields_raise | ].
  apply yields_ret. split; [ discriminate | exact H ].
Qed.

Lemma retry_loop_once (remaining : nat) (username : string) (attempt : Z) :
  yields (@NoDup string) (retry_loop config remaining username attempt).
Proof.
  revert attempt. induction remaining as [ | n IH]; intro attempt; cbn [retry_loop].
  - apply yields_bind. intro. apply yields_ret. constructor.
  - apply yields_then
      with (R := fun f => match f with Return l => NoDup l | _ => True end).
    + unfold retry_pass. apply yields_try.
      * apply yields_bind. intro.
        apply yields_then with (R := fun l => l <> [] /\ NoDup l);
          [ apply crawl_user_once | ].
        intros l [_ H]. now apply yields_ret.
      * intro e.
        assert (Hfail : yields
                  (fun f : flow (list string) =>
                     match f with Return l => NoDup l | _ => True end)
                  (log ERROR (AttemptFailed attempt e) ;;
                   if attempt <? max_retries config then
                     u <- on_world (random_uniform 1 3) ;;
                     let wait_time := (u * inject_Z attempt)%Q in
                     log WARN (RetryingIn wait_time) ;; sleep wait_time ;; ret Next
                   else ret Next)).
        { apply yields_bind. intro. destruct (_ <? _); [ | now apply yields_ret ].
          apply yields_bind. intro. apply yields_bind. intro.
          apply yields_bind. intro. now apply yields_ret. }
        destruct e; try exact Hfail.
        apply yields_bind. intro. apply yields_ret. constructor.
    + intros [ | | l] H; [ apply IH | apply IH | now apply yields_ret ].
Qed.

(** X12. When no page lists a URL twice, no list of URLs the crawl hands on
    lists a URL twice: not the list [_scroll_and_collect] returns, not the
    list [crawl_user] returns, and not the list [crawl_single_user] returns
    for the profile, however many passes and attempts it took and however
    the timer ended. *)
Theorem no_url_is_collected_twice (username : string) (s : Sys World) :
  (exists (l : list string) (s' : Sys World),
      crawl_single_user config username s = (Ok l, s') /\ NoDup l)
  /\ match fst (crawl_user config username s) with
     | Ok l => NoDup l
     | Raise _ => True
     end
  /\ match fst (_scroll_and_collect config username s) with
     | Ok l => NoDup l
     | Raise _ => True
     end.
Proof.
  split; [ | split ].
  - unfold crawl_single_user.
    destruct (retry_with_timeout_run (_retry_crawl_user config username) username
                (user_crawl_timeout config) s) as (l & s' & w & evs & E & H & _).
    exists l, s'. split; [ exact E | ].
    destruct H as [-> | H]; [ constructor | ].
    pose proof (retry_loop_once (Z.to_nat (max_retries config)) username 1 s) as Hy.
    unfold _retry_crawl_user in H. now rewrite H in Hy.
  - pose proof (crawl_user_once username s) as Hy.
    destruct (fst (crawl_user config username s)); [ apply Hy | exact I ].
  - apply scroll_and_collect_once.
Qed.

End Collection.
(** ** The work of a collection is bounded *)

Section Bounded.

Context {World : Type} {host : Host World}.
Variable config : Config.

Local Open Scope py_scope.

Local Abbreviation per_command := (Z.max 0 (browser_action_max_attempts config)).

Lemma scripts_add (s : Sys World) (e : event) :
  scripts_sent (add_trace s [e])
  = scripts_sent s + (if is_evaluate e then 1 else 0).
Proof.
  unfold scripts_sent, add_trace. cbn [trace].
  rewrite filter_app, length_app. cbn [filter].
  destruct (is_evaluate e); cbn [List.length]; lia.
Qed.

Lemma scripts_event (n : Z) (s : Sys World) (e : event) :
  not_evaluate e = true -> scripts_are n s -> scripts_are n (add_trace s [e]).
Proof.
  unfold not_evaluate, scripts_are. intros He H.
  rewrite scripts_add. destruct (is_evaluate e); [ discriminate | lia ].
Qed.

Local Ltac idle n :=
  first [ exact (scripts_event n) | exact (fun s w H => H)
        | exact (fun s v H => H) | assumption | exact I
        | reflexivity | intros; reflexivity ].

Lemma scripts_restart (n : Z) : keeps (scripts_are n) (_restart_browser config).
Proof. apply keeps_restart_when_free with (allowed := not_evaluate); idle n. Qed.

Lemma sends_none {A} (m : M World A) :
  (forall n, keeps (scripts_are n) m) -> sends_at_most 0 m.
Proof. intros H s. rewrite (H (scripts_sent s) s eq_refl). lia. Qed.

Lemma sends_bind {A B} (b1 b2 : Z) (m : M World A) (k : A -> M World B) :
  0 <= b2 ->
  sends_at_most b1 m -> (forall a, sends_at_most b2 (k a)) ->
  sends_at_most (b1 + b2) (bind m k).
Proof.
  intros Hb Hm Hk s. unfold bind. specialize (Hm s).
  destruct (m s) as [[a | e] s1]; cbn [snd] in *.
  - specialize (Hk a s1). lia.
  - lia.
Qed.

Lemma sends_more {A} (b b' : Z) (m : M World A) :
  b <= b' -> sends_at_most b m -> sends_at_most b' m.
Proof. intros Hb Hm s. specialize (Hm s). lia. Qed.

(** One attempt sends the command once. *)
Lemma scripts_attempt (attempt : Z) (cmd : list string) :
  sends_at_most 1 (try_except (attempt_body config attempt cmd) attempt_handler).
Proof.
  intro s. unfold attempt_body, _run_command.
  rewrite try_bind_assoc, try_bind_emit. cbv beta.
  set (n := scripts_sent (add_trace s [Cmd cmd 30])).
  assert (Hn : n <= scripts_sent s + 1).
  { unfold n. rewrite scripts_add. destruct (is_evaluate _); lia. }
  assert (H1 : scripts_are n (add_trace s [Cmd cmd 30])) by reflexivity.
  revert H1. generalize (add_trace s [Cmd cmd 30]). intros s1 H1.
  match goal with
  | |- scripts_sent (snd (try_except ?m ?h ?s0)) <= _ =>
      assert (K : keeps (scripts_are n) (try_except m h))
  end.
  { apply keeps_try.
    - apply keeps_bind.
      + apply keeps_bind; [ apply keeps_on_world; idle n | ].
        intros [p | | msg]; [ apply keeps_ret | apply keeps_raise | apply keeps_raise ].
      + intro result.
        apply keeps_handle_result with (allowed := not_evaluate);
          first [ exact (scripts_restart n) | idle n ].
    - intro e. apply keeps_attempt_handler with (allowed := not_evaluate); idle n. }
  rewrite (K s1 H1). exact Hn.
Qed.

Lemma scripts_execute_attempts (remaining : nat) (attempt : Z) (cmd : list string) :
  sends_at_most (Z.of_nat remaining) (execute_attempts config remaining attempt cmd).
Proof.
  revert attempt. induction remaining as [ | r IH]; intros attempt.
  - intro s. cbn. lia.
  - cbn [execute_attempts].
    replace (Z.of_nat (S r)) with (1 + Z.of_nat r) by lia.
    apply sends_bind; [ lia | apply scripts_attempt | ].
    intros [ | | v]; [ apply IH | apply IH | ].
    intro s. cbn. lia.
Qed.

Lemma scripts_execute_action (cmd : list string) :
  sends_at_most per_command
                (_execute_action config cmd).
Proof.
  apply sends_more
    with (b := Z.of_nat (Z.to_nat (browser_action_max_attempts config)));
    [ lia | apply scripts_execute_attempts ].
Qed.

Lemma scripts_evaluate (js_code : string) :
  sends_at_most per_command (evaluate config js_code).
Proof.
  unfold evaluate.
  replace per_command with (0 + (per_command + 0)) by lia.
  assert (Hpos : 0 <= per_command) by lia.
  apply sends_bind; [ lia | | intro tid ].
  { apply sends_none. intros n s H. unfold get_target_id.
    now destruct (target_id s). }
  destruct (negb (truthy tid)).
  { apply sends_more with (b := 0); [ lia | ]. apply sends_none. intro n.
    apply keeps_bind; [ | intro; apply keeps_ret ].
    apply keeps_log with (allowed := not_evaluate); idle n. }
  apply sends_bind; [ lia | | ].
  - destruct tid;
      try (apply sends_more with (b := 0); [ exact Hpos | ]; apply sends_none;
           intro n; destruct (1 <=? _); [ | apply keeps_ret ];
           apply keeps_bind; [ | intro; apply keeps_ret ];
           apply keeps_log with (allowed := not_evaluate); idle n).
    apply scripts_execute_action.
  - intro result. apply sends_none. intro n.
    destruct result as [[ | kv d] | ]; try apply keeps_ret.
    apply keeps_bind;
      [ apply keeps_log with (allowed := not_evaluate); idle n | intro ].
    apply keeps_bind;
      [ apply keeps_log with (allowed := not_evaluate); idle n | intro ].
    destruct (dict_get "result" _); try apply keeps_ret.
    + destruct (PyStr.startswith_any _ _); [ | apply keeps_ret ].
      apply keeps_decode_evaluate_string with (allowed := not_evaluate); idle n.
    + apply keeps_bind; [ | intro; apply keeps_ret ].
      apply keeps_log with (allowed := not_evaluate); idle n.
Qed.

Lemma scripts_scroll_pass (username : string) (scroll_num : Z) (st : scroll_state) :
  sends_at_most per_command (scroll_pass config username scroll_num st).
Proof.
  unfold scroll_pass.
  assert (Hpos : 0 <= per_command) by lia.
  replace per_command with (0 + (per_command + 0)) by lia.
  apply sends_bind; [ lia | | intro ].
  { apply sends_none. intro n. apply keeps_log with (allowed := not_evaluate); idle n. }
  apply sends_bind; [ lia | apply scripts_evaluate | intro result ].
  apply sends_none. intro n. apply keeps_bind.
  - assert (Hpage : forall st0 k, keeps (scripts_are n)
      (try_except_json (collect_page config scroll_num result st0)
                       (log ERROR FailedToParseUrls ;; ret k))).
    { intros st0 k. apply keeps_try_json.
      - apply keeps_collect_page with (allowed := not_evaluate); idle n.
      - apply keeps_bind; [ | intro; apply keeps_ret ].
        apply keeps_log with (allowed := not_evaluate); idle n. }
    destruct result; try apply Hpage. apply keeps_ret.
  - intros [f st']. destruct f; try apply keeps_ret.
    destruct (_ <=? _).
    { apply keeps_bind; [ | intro; apply keeps_ret ].
      apply keeps_log with (allowed := not_evaluate); idle n. }
    destruct (found_yesterday st'); [ apply keeps_ret | ].
    destruct (_ <? _); [ | apply keeps_ret ].
    apply keeps_bind.
    + apply keeps_press with (allowed := not_evaluate);
        first [ exact (scripts_restart n) | idle n ].
    + intro. apply keeps_bind; [ apply keeps_on_world; idle n | intro ].
      apply keeps_bind; [ | intro; apply keeps_ret ].
      apply keeps_sleep with (allowed := not_evaluate); idle n.
Qed.

Lemma scripts_scroll_loop (remaining : nat) (username : string) (scroll_num : Z)
  (st : scroll_state) :
  sends_at_most (Z.of_nat remaining * per_command)
                (scroll_loop config remaining username scroll_num st).
Proof.
  assert (Hpos : 0 <= per_command) by lia.
  revert scroll_num st.
  induction remaining as [ | n IH]; intros scroll_num st; cbn [scroll_loop].
  - intro s. cbn. lia.
  - replace (Z.of_nat (S n) * per_command)
      with (per_command + Z.of_nat n * per_command) by lia.
    apply sends_bind; [ nia | apply scripts_scroll_pass | ].
    intros [f st']. destruct f; [ apply IH | | ]; intro s; cbn; nia.
Qed.

(** X13. A collection is bounded work: whatever the page answers,
    [_scroll_and_collect] sends at most [scroll_max_attempts] times
    [browser_action_max_attempts] page scripts, twenty with the default
    configuration, and [evaluate] sends at most
    [browser_action_max_attempts] of them. *)
Theorem collection_is_bounded (username js_code : string) (s : Sys World) :
  scripts_sent (snd (_scroll_and_collect config username s))
  <= scripts_sent s
     + Z.max 0 (scroll_max_attempts config)
       * Z.max 0 (browser_action_max_attempts config)
  /\ scripts_sent (snd (evaluate config js_code s))
     <= scripts_sent s + Z.max 0 (browser_action_max_attempts config).
Proof.
  split.
  - unfold _scroll_and_collect, bind at 1.
    pose proof (scripts_scroll_loop (Z.to_nat (scroll_max_attempts config))
                  username 1 (mkScroll [] [] 0 0 false) s) as H.
    replace (Z.of_nat (Z.to_nat (scroll_max_attempts config)))
      with (Z.max 0 (scroll_max_attempts config)) in H by lia.
    destruct (scroll_loop _ _ _ _ _ s) as [[st | e] s1]; cbn [snd] in *;
      [ | exact H ].
    rewrite bind_log. unfold ret. cbn [snd]. rewrite scripts_add. cbn. lia.
  - apply scripts_evaluate.
Qed.

End Bounded.

(** ** Waiting for the page, and a run with nothing to do *)

Section Edges.

Context {World : Type} {host : Host World}.
Variable config : Config.
Variable format_as_markdown : dict -> string -> string -> result string.

Local Open Scope py_scope.

Lemma handle_wait_loop (t : option json) (passes : nat) (start_time : Q)
    (timeout : Z) :
  keeps (handle_is t) (wait_loop config passes start_time timeout).
Proof.
  apply keeps_wait_loop with (allowed := any_event);
    first [ exact (fun s e _ H => H) | exact (fun s w H => H)
          | exact (handle_restart config t) | reflexivity | intros; reflexivity ].
Qed.

(** X14. Once a handle has been assigned, the loop of
    [wait_for_content_loaded] leaves the handle as it was, whether it returns
    or raises, whatever the page answers, whatever the clock reads and
    however many passes the loop makes; and the only exceptions that leave it
    are those [evaluate] lets through: what [json.loads] raises on the text
    of a result besides [JSONDecodeError]. *)
Theorem waiting_keeps_the_handle (passes : nat) (start_time : Q)
  (timeout : Z) (s : Sys World) :
  target_id s <> None ->
  target_id (snd (wait_loop config passes start_time timeout s)) = target_id s
  /\ match fst (wait_loop config passes start_time timeout s) with
     | Ok _ => True
     | Raise e => left_uncaught e
     end.
Proof.
  intro Hs. split; [ exact (handle_wait_loop (target_id s) _ _ _ s eq_refl) | ].
  revert s Hs. induction passes as [ | n IH]; intros s Hs; cbn [wait_loop];
    unfold bind at 1, on_world; destruct (time_time (world s)) as [now w].
  - exact I.
  - destruct (Qltb _ _); [ | exact I ].
    set (s1 := mkSys w _ _ _ _ _).
    pose proof (evaluate_raises config content_loaded_js s1 Hs) as Hr.
    pose proof (handle_evaluate config (target_id s) content_loaded_js s1 eq_refl)
      as Ht.
    unfold bind at 1.
    destruct (evaluate config content_loaded_js s1) as [[v | e] s2];
      [ | exact Hr ].
    cbn [snd] in Ht.
    assert (Hnext : match fst ((sleep (scroll_check_interval config) ;;
                                wait_loop config n start_time timeout) s2) with
                    | Ok _ => True
                    | Raise e => left_uncaught e
                    end).
    { unfold sleep. rewrite bind_emit. apply IH. cbn. unfold handle_is in Ht.
      now rewrite Ht. }
    destruct v as [ | [ | ] | | | | | ]; try exact Hnext.
    exact I.
Qed.

(** X15. With no profile to crawl, because the list file is missing or names
    none, [crawl_all_users] returns the empty dictionary after two log lines:
    it sends no command and no request and creates neither result file. *)
Theorem nothing_to_crawl (crawl_order fetch_order : list nat) (s : Sys World) :
  fst (load s) = Ok [] ->
  exists line : event,
    crawl_all_users config format_as_markdown crawl_order fetch_order s
    = (Ok [], add_trace s [line; Log WARN NoUsersToCrawl]).
Proof.
  intro H. unfold crawl_all_users, bind at 1. unfold load in H |- *.
  destruct (read_users_file (world s)) as [text | ].
  - cbn in H. inversion H as [Hu]. rewrite Hu. cbn.
    exists (Log INFO (LoadedUsers 0)).
    unfold ret, add_trace. cbn. now rewrite <- app_assoc.
  - exists (Log WARN UsersFileNotFound).
    cbn. unfold ret, add_trace. cbn. now rewrite <- app_assoc.
Qed.

End Edges.
(** ** The list of profiles *)

Section Users.

Context {World : Type} {host : Host World} {file : UsersFile World}.

Local Open Scope py_scope.

Lemma rev_onto_app (a b : string) :
  PyStr.rev_onto a b = (PyStr.rev_onto a "" ++ b)%string.
Proof.
  revert b. induction a as [ | c a IH]; intro b; cbn; [ reflexivity | ].
  rewrite (IH (String c b)), (IH (String c "")), append_assoc. reflexivity.
Qed.

Lemma rev_rev_onto (u cur : string) :
  PyStr.rev (PyStr.rev_onto u cur) = (PyStr.rev cur ++ u)%string.
Proof.
  revert cur. induction u as [ | c u IH]; intro cur; cbn [PyStr.rev_onto].
  - now rewrite append_empty.
  - rewrite IH. unfold PyStr.rev. cbn [PyStr.rev_onto].
    rewrite (rev_onto_app cur (String c "")), append_assoc. reflexivity.
Qed.

Lemma rev_rev (u : string) : PyStr.rev (PyStr.rev u) = u.
Proof. unfold PyStr.rev at 2. now rewrite rev_rev_onto. Qed.

Lemma all_chars_rev_onto (p : ascii -> bool) (a b : string) :
  PyStr.all_chars p (PyStr.rev_onto a b) = PyStr.all_chars p a && PyStr.all_chars p b.
Proof.
  revert b. induction a as [ | c a IH]; intro b; cbn; [ reflexivity | ].
  rewrite IH. cbn. now destruct (p c), (PyStr.all_chars p a).
Qed.

Lemma drop_while_ahead (p : ascii -> bool) (s : string) :
  ahead (fun c => negb (p c)) s = true -> PyStr.drop_while p s = s.
Proof.
  destruct s as [ | c s]; cbn; [ reflexivity | ].
  intro H. apply negb_true_iff in H. now rewrite H.
Qed.

Lemma all_chars_ahead (p : ascii -> bool) (s : string) :
  PyStr.all_chars p s = true -> ahead p s = true.
Proof. destruct s as [ | c s]; cbn; [ reflexivity | ]. now destruct (p c). Qed.

Lemma plain_is_not_space (c : ascii) : is_plain c = true -> negb (PyStr.is_space c) = true.
Proof.
  destruct c as [[ | ] [ | ] [ | ] [ | ] [ | ] [ | ] [ | ] [ | ]];
    first [ reflexivity | discriminate ].
Qed.

Lemma strip_plain (u : string) :
  PyStr.all_chars is_plain u = true -> PyStr.strip u = u.
Proof.
  intro H. unfold PyStr.strip, PyStr.lstrip, PyStr.rstrip.
  pose proof (all_chars_impl _ _ u plain_is_not_space H) as Hu.
  rewrite (drop_while_ahead PyStr.is_space u (all_chars_ahead _ _ Hu)).
  rewrite drop_while_ahead; [ apply rev_rev | ].
  apply all_chars_ahead. unfold PyStr.rev. rewrite all_chars_rev_onto, Hu.
  reflexivity.
Qed.

Lemma plain_is_not_newline (c : ascii) (r : string) :
  is_plain c = true -> PyStr.startswith PyStr.nl (String c r) = false.
Proof.
  intro H. unfold PyStr.startswith, PyStr.nl. cbn [String.prefix].
  destruct (ascii_dec (ascii_of_nat 10) c) as [E | ]; [ | reflexivity ].
  subst c. discriminate H.
Qed.

Lemma render_cons (u : string) (users : list string) :
  UserManager.render (u :: users) = ((u ++ PyStr.nl) ++ UserManager.render users)%string.
Proof.
  unfold UserManager.render, PyStr.concat. cbn [map String.concat].
  destruct (map _ users) eqn:E; [ now rewrite append_empty | reflexivity ].
Qed.

Lemma plain_name_chars (u : string) :
  plain_name u = true ->
  PyStr.is_empty u = false
  /\ PyStr.all_chars is_plain u = true
  /\ PyStr.startswith "#" u = false.
Proof.
  unfold plain_name. intro H.
  apply andb_true_iff in H. destruct H as [H H3].
  apply andb_true_iff in H. destruct H as [H1 H2].
  apply negb_true_iff in H1, H3. now repeat split.
Qed.

Lemma plain_is_not_break (c : ascii) :
  is_plain c = true -> negb (PyStr.is_line_break c) = true.
Proof.
  destruct c as [[ | ] [ | ] [ | ] [ | ] [ | ] [ | ] [ | ] [ | ]];
    first [ reflexivity | discriminate ].
Qed.

Lemma break_is_space (c : ascii) :
  PyStr.is_line_break c = true -> PyStr.is_space c = true.
Proof.
  destruct c as [[ | ] [ | ] [ | ] [ | ] [ | ] [ | ] [ | ] [ | ]];
    first [ reflexivity | discriminate ].
Qed.

Lemma listable_spec (u : string) :
  listable u = true ->
  PyStr.is_empty u = false
  /\ ahead (fun c => negb (PyStr.is_space c)) u = true
  /\ ahead (fun c => negb (PyStr.is_space c)) (PyStr.rev u) = true
  /\ PyStr.all_chars (fun c => negb (PyStr.is_line_break c)) u = true
  /\ PyStr.startswith "#" u = false.
Proof.
  unfold listable. intro H.
  apply andb_true_iff in H. destruct H as [H H5].
  apply andb_true_iff in H. destruct H as [H H4].
  apply andb_true_iff in H. destruct H as [H H3].
  apply andb_true_iff in H. destruct H as [H1 H2].
  apply negb_true_iff in H1, H5. now repeat split.
Qed.

Lemma plain_name_listable (u : string) : plain_name u = true -> listable u = true.
Proof.
  intro H. destruct (plain_name_chars u H) as (H1 & H2 & H3).
  pose proof (all_chars_impl _ _ u plain_is_not_space H2) as Hs.
  unfold listable. rewrite H1, H3.
  rewrite (all_chars_ahead _ _ Hs).
  rewrite (all_chars_impl _ _ u plain_is_not_break H2).
  rewrite all_chars_ahead; [ reflexivity | ].
  unfold PyStr.rev. now rewrite all_chars_rev_onto, Hs.
Qed.

(** *** Lines *)

Lemma text_lines_nonempty (s : string) : PyStr.text_lines s <> [].
Proof.
  induction s as [ | c s IH]; cbn [PyStr.text_lines]; [ discriminate | ].
  destruct (PyStr.is_line_break c); [ discriminate | ].
  destruct (PyStr.text_lines s); [ now elim IH | discriminate ].
Qed.

(** A line without a line break, followed by one, is the first line. *)
Lemma text_lines_line (u rest : string) (c : ascii) :
  PyStr.all_chars (fun c => negb (PyStr.is_line_break c)) u = true ->
  PyStr.is_line_break c = true ->
  PyStr.text_lines (u ++ String c rest) = u :: PyStr.text_lines rest.
Proof.
  intros Hu Hc. induction u as [ | x u IH]; cbn [append PyStr.text_lines].
  - now rewrite Hc.
  - cbn in Hu. apply andb_true_iff in Hu. destruct Hu as [Hx Hu].
    apply negb_true_iff in Hx. rewrite Hx, (IH Hu). reflexivity.
Qed.

Lemma text_lines_no_break (s l : string) :
  In l (PyStr.text_lines s) ->
  PyStr.all_chars (fun c => negb (PyStr.is_line_break c)) l = true.
Proof.
  revert l. induction s as [ | c s IH]; intro l; cbn [PyStr.text_lines].
  - intros [<- | []]. reflexivity.
  - destruct (PyStr.is_line_break c) eqn:E.
    + intros [<- | H]; [ reflexivity | now apply IH ].
    + pose proof (text_lines_nonempty s) as Hne.
      destruct (PyStr.text_lines s) as [ | l0 ls]; [ now elim Hne | ].
      intros [<- | H].
      * cbn. rewrite E. cbn. apply IH. now left.
      * apply IH. now right.
Qed.

(** *** Stripping *)

Lemma drop_while_suffix (p : ascii -> bool) (s : string) :
  exists a : string, s = (a ++ PyStr.drop_while p s)%string.
Proof.
  induction s as [ | c s IH]; cbn [PyStr.drop_while]; [ now exists "" | ].
  destruct (p c); [ | now exists "" ].
  destruct IH as [a Ha]. exists (String c a). cbn. now rewrite <- Ha.
Qed.

Lemma drop_while_stops (p : ascii -> bool) (s : string) :
  ahead (fun c => negb (p c)) (PyStr.drop_while p s) = true.
Proof.
  induction s as [ | c s IH]; cbn [PyStr.drop_while]; [ reflexivity | ].
  destruct (p c) eqn:E; [ exact IH | ]. cbn. now rewrite E.
Qed.

Lemma all_chars_drop_while (q p : ascii -> bool) (s : string) :
  PyStr.all_chars q s = true -> PyStr.all_chars q (PyStr.drop_while p s) = true.
Proof.
  induction s as [ | c s IH]; cbn [PyStr.drop_while]; [ reflexivity | ].
  intro H. destruct (p c); [ | exact H ].
  cbn in H. apply andb_true_iff in H. now apply IH.
Qed.

Lemma all_chars_rev (q : ascii -> bool) (s : string) :
  PyStr.all_chars q (PyStr.rev s) = PyStr.all_chars q s.
Proof. unfold PyStr.rev. rewrite all_chars_rev_onto. cbn. apply andb_true_r. Qed.

Lemma rev_onto_append (a b acc : string) :
  PyStr.rev_onto (a ++ b) acc = PyStr.rev_onto b (PyStr.rev_onto a acc).
Proof.
  revert acc. induction a as [ | c a IH]; intro acc; cbn; [ reflexivity | apply IH ].
Qed.

Lemma rev_append (a b : string) :
  PyStr.rev (a ++ b) = (PyStr.rev b ++ PyStr.rev a)%string.
Proof.
  unfold PyStr.rev. rewrite rev_onto_append.
  now rewrite (rev_onto_app b (PyStr.rev_onto a "")).
Qed.

Lemma ahead_prefix (p : ascii -> bool) (a b : string) :
  ahead p (a ++ b) = true -> ahead p a = true.
Proof. destruct a; [ reflexivity | exact (fun H => H) ]. Qed.

(** What [strip] returns has no blank at either end. *)
Lemma strip_ends (x : string) :
  ahead (fun c => negb (PyStr.is_space c)) (PyStr.strip x) = true
  /\ ahead (fun c => negb (PyStr.is_space c)) (PyStr.rev (PyStr.strip x)) = true.
Proof.
  unfold PyStr.strip, PyStr.rstrip, PyStr.lstrip.
  set (y := PyStr.drop_while PyStr.is_space x).
  set (z := PyStr.drop_while PyStr.is_space (PyStr.rev y)).
  split.
  - destruct (drop_while_suffix PyStr.is_space (PyStr.rev y)) as [a Ha].
    fold z in Ha. apply (f_equal PyStr.rev) in Ha.
    rewrite rev_rev, rev_append in Ha.
    apply (ahead_prefix _ (PyStr.rev z) (PyStr.rev a)). rewrite <- Ha.
    apply drop_while_stops.
  - rewrite rev_rev. apply drop_while_stops.
Qed.

(** A text with no blank at either end is left as it is by [strip]. *)
Lemma strip_fixed (u : string) :
  ahead (fun c => negb (PyStr.is_space c)) u = true ->
  ahead (fun c => negb (PyStr.is_space c)) (PyStr.rev u) = true ->
  PyStr.strip u = u.
Proof.
  intros H1 H2. unfold PyStr.strip, PyStr.rstrip, PyStr.lstrip.
  rewrite (drop_while_ahead _ u H1), (drop_while_ahead _ _ H2). apply rev_rev.
Qed.

Lemma all_chars_strip (q : ascii -> bool) (x : string) :
  PyStr.all_chars q x = true -> PyStr.all_chars q (PyStr.strip x) = true.
Proof.
  intro H. unfold PyStr.strip, PyStr.rstrip, PyStr.lstrip.
  rewrite all_chars_rev. apply all_chars_drop_while.
  rewrite all_chars_rev. now apply all_chars_drop_while.
Qed.

(** *** The names of a text *)

(** Every name [load] keeps can be held by a line. *)
Lemma names_of_listable (text u : string) :
  In u (names_of text) -> listable u = true.
Proof.
  unfold names_of. intro H. apply filter_In in H. destruct H as [Hin Hkeep].
  apply in_map_iff in Hin. destruct Hin as (l & <- & Hl).
  apply andb_true_iff in Hkeep. destruct Hkeep as [H1 H2].
  destruct (strip_ends l) as [Ha Hb].
  unfold listable. rewrite H1, H2, Ha, Hb.
  rewrite (all_chars_strip _ l (text_lines_no_break text l Hl)). reflexivity.
Qed.

Lemma names_of_line (u rest : string) :
  listable u = true ->
  names_of ((u ++ PyStr.nl) ++ rest) = u :: names_of rest.
Proof.
  intro H. destruct (listable_spec u H) as (H1 & H2 & H3 & H4 & H5).
  unfold names_of. rewrite append_assoc. unfold PyStr.nl. cbn [append].
  rewrite (text_lines_line u rest (ascii_of_nat 10) H4 eq_refl). cbn [map filter].
  now rewrite (strip_fixed u H2 H3), H1, H5.
Qed.

Lemma names_of_render_then (users : list string) (rest : string) :
  forallb listable users = true ->
  names_of (UserManager.render users ++ rest) = (users ++ names_of rest)%list.
Proof.
  induction users as [ | u users IH]; intro H; [ reflexivity | ].
  cbn in H. apply andb_true_iff in H. destruct H as [Hu H].
  rewrite render_cons, append_assoc, (names_of_line u _ Hu), (IH H). reflexivity.
Qed.

Lemma names_of_render (users : list string) :
  forallb listable users = true -> names_of (UserManager.render users) = users.
Proof.
  intro H. rewrite <- (append_empty (UserManager.render users)).
  rewrite (names_of_render_then users "" H). apply app_nil_r.
Qed.

Lemma render_app (users : list string) (u : string) :
  UserManager.render (users ++ [u])
  = (UserManager.render users ++ (u ++ PyStr.nl))%string.
Proof.
  induction users as [ | x users IH].
  - cbn [app]. rewrite render_cons. change (UserManager.render []) with ""%string.
    cbn [append]. apply append_empty.
  - cbn [app]. rewrite !render_cons, IH, !append_assoc. reflexivity.
Qed.

(** The names [load] finds in a text. *)
Lemma load_reads (s : Sys World) :
  world (snd (load s)) = world s
  /\ fst (load s)
     = Ok match read_users_file (world s) with
          | None => []
          | Some text => names_of text
          end.
Proof.
  unfold load. destruct (read_users_file (world s)); now split.
Qed.

Lemma loaded_names_listable (s : Sys World) (users : list string) :
  fst (load s) = Ok users -> forallb listable users = true.
Proof.
  destruct (load_reads s) as [_ ->]. intro H. inversion H as [Hu].
  apply forallb_forall. intros u Hin.
  destruct (read_users_file (world s)) as [text | ]; [ | now elim Hin ].
  exact (names_of_listable text u Hin).
Qed.

Lemma load_after_save_then (users : list string) (s : Sys World) :
  fst (load (snd (UserManager._save users s)))
  = Ok (names_of (UserManager.render users)).
Proof.
  destruct (load_reads (snd (UserManager._save users s))) as [_ ->].
  unfold UserManager._save, bind, on_world, ret. cbn [snd world].
  now rewrite read_after_write.
Qed.

Lemma load_after_save (users : list string) (s : Sys World) :
  forallb listable users = true ->
  fst (load (snd (UserManager._save users s))) = Ok users.
Proof.
  intro H. now rewrite load_after_save_then, names_of_render.
Qed.

Lemma load_twice (s s' : Sys World) :
  world s' = world s -> fst (load s') = fst (load s).
Proof.
  intro H. destruct (load_reads s) as [_ ->], (load_reads s') as [_ ->].
  now rewrite H.
Qed.

Lemma load_returns (s : Sys World) :
  exists users, load s = (Ok users, snd (load s)).
Proof.
  unfold load. destruct (read_users_file (world s)); now eexists.
Qed.

Lemma plain_names_listable (users : list string) :
  forallb plain_name users = true -> forallb listable users = true.
Proof.
  intro H. apply forallb_forall. intros u Hin.
  apply plain_name_listable. now apply (proj1 (forallb_forall _ _) H).
Qed.

(** X16. A list of plain names written by [_save] is the list [load] reads
    back, in the same order. *)
Theorem saved_list_is_loaded_back (users : list string) (s : Sys World) :
  forallb plain_name users = true ->
  fst (load (snd (UserManager._save users s))) = Ok users.
Proof. intro H. now apply load_after_save, plain_names_listable. Qed.

Lemma names_of_one_line (u : string) :
  PyStr.all_chars (fun c => negb (PyStr.is_line_break c)) u = true ->
  names_of (u ++ PyStr.nl)
  = if negb (PyStr.is_empty (PyStr.strip u))
       && negb (PyStr.startswith "#" (PyStr.strip u))
    then [PyStr.strip u] else [].
Proof.
  intro H. unfold names_of, PyStr.nl.
  rewrite (text_lines_line u "" (ascii_of_nat 10) H eq_refl).
  cbn [PyStr.text_lines map filter].
  change (PyStr.strip "") with ""%string. cbn [PyStr.is_empty negb andb].
  now destruct (negb (PyStr.is_empty (PyStr.strip u))
                && negb (PyStr.startswith "#" (PyStr.strip u))).
Qed.

Lemma names_of_listable_line (u : string) :
  listable u = true -> names_of (u ++ PyStr.nl) = [u].
Proof.
  intro H. rewrite <- (append_empty (u ++ PyStr.nl)).
  now rewrite (names_of_line u "" H).
Qed.

(** X17. [add], for every name and whatever the list file holds. A name
    that [load] finds is left alone, with one warning, and nothing is
    written. Any other name is written as the last line, after the names
    that [load] found, which are written back without the comments and blank
    lines of the file, and [Added user] is logged, whatever the name. The
    next [load] finds the old names followed by what it keeps of the text
    written last: the name itself when it is not empty, has no blank at
    either end, holds no line break and does not start with [#]; and, for
    any name without a line break, the name without the blanks at its ends,
    or nothing when that is empty or starts with [#]. *)
Theorem add_appends_once (username : string) (users : list string) (s : Sys World) :
  fst (load s) = Ok users ->
  let s' := snd (UserManager.add username s) in
  fst (UserManager.add username s)
  = Ok (if mem username users then [(WARN, UserAlreadyExists username)]
        else [(INFO, SavedUsers (List.length (users ++ [username])));
              (INFO, AddedUser username)])
  /\ fst (load s')
     = Ok (if mem username users then users
           else (users ++ names_of (username ++ PyStr.nl))%list)
  /\ (listable username = true -> names_of (username ++ PyStr.nl) = [username])
  /\ (PyStr.all_chars (fun c => negb (PyStr.is_line_break c)) username = true ->
      names_of (username ++ PyStr.nl)
      = if negb (PyStr.is_empty (PyStr.strip username))
           && negb (PyStr.startswith "#" (PyStr.strip username))
        then [PyStr.strip username] else [])
  /\ if mem username users then world s' = world s
     else read_users_file (world s')
          = Some (UserManager.render (users ++ [username])).
Proof.
  intros Hload.
  pose proof (loaded_names_listable s users Hload) as Hlist.
  destruct (load_returns s) as [users' E]. pose proof Hload as Hl.
  rewrite E in Hl. cbn in Hl. inversion Hl. subst users'.
  destruct (load_reads s) as [Hw _].
  assert (Eadd : UserManager.add username s
                 = if mem username users
                   then (Ok [(WARN, UserAlreadyExists username)], snd (load s))
                   else (Ok [(INFO, SavedUsers (List.length (users ++ [username])));
                             (INFO, AddedUser username)],
                         snd (UserManager._save (users ++ [username]) (snd (load s))))).
  { unfold UserManager.add. unfold bind at 1. rewrite E.
    destruct (mem username users); reflexivity. }
  cbv zeta. rewrite Eadd.
  assert (Hrest : (listable username = true ->
                   names_of (username ++ PyStr.nl) = [username])
                  /\ (PyStr.all_chars (fun c => negb (PyStr.is_line_break c))
                                      username = true ->
                      names_of (username ++ PyStr.nl)
                      = if negb (PyStr.is_empty (PyStr.strip username))
                           && negb (PyStr.startswith "#" (PyStr.strip username))
                        then [PyStr.strip username] else [])).
  { split; [ apply names_of_listable_line | apply names_of_one_line ]. }
  destruct Hrest as [Hr1 Hr2].
  destruct (mem username users); cbn [fst snd].
  - split; [ reflexivity | ]. split; [ | now repeat split ].
    rewrite <- Hload. now apply load_twice.
  - split; [ reflexivity | ]. split; [ | split; [ exact Hr1 | split; [ exact Hr2 | ] ] ].
    + rewrite load_after_save_then, render_app.
      now rewrite (names_of_render_then users _ Hlist).
    + unfold UserManager._save, bind, on_world, ret. cbn [snd world].
      apply read_after_write.
Qed.

Lemma forallb_remove_first (username : string) (users : list string) :
  forallb listable users = true ->
  forallb listable (UserManager.remove_first username users) = true.
Proof.
  induction users as [ | u users IH]; cbn; [ reflexivity | ].
  intro H. apply andb_true_iff in H. destruct H as [Hu H].
  destruct (String.eqb username u); [ exact H | ].
  cbn. now rewrite Hu, (IH H).
Qed.

Lemma remove_first_absent (username : string) (users : list string) :
  mem username users = false -> UserManager.remove_first username users = users.
Proof.
  unfold mem. induction users as [ | u users IH]; cbn; [ reflexivity | ].
  intro H. apply orb_false_iff in H. destruct H as [Hu H].
  now rewrite Hu, (IH H).
Qed.

(** X18. [remove], for every name and whatever the list file holds. A name
    that [load] does not find leaves the file untouched, with one warning;
    the first line of a listed name goes, and only the first, so that a name
    listed twice is still listed once; the other names are written back in
    their order, without the comments and blank lines of the file, and the
    next [load] finds exactly them. *)
Theorem remove_drops_first_occurrence (username : string) (users : list string)
  (s : Sys World) :
  fst (load s) = Ok users ->
  let s' := snd (UserManager.remove username s) in
  fst (UserManager.remove username s)
  = Ok (if mem username users
        then [(INFO, SavedUsers
                       (List.length (UserManager.remove_first username users)));
              (INFO, RemovedUser username)]
        else [(WARN, UserNotFound username)])
  /\ fst (load s') = Ok (UserManager.remove_first username users)
  /\ if mem username users
     then read_users_file (world s')
          = Some (UserManager.render (UserManager.remove_first username users))
     else world s' = world s.
Proof.
  intros Hload.
  pose proof (loaded_names_listable s users Hload) as Hlist.
  destruct (load_returns s) as [users' E]. pose proof Hload as Hl.
  rewrite E in Hl. cbn in Hl. inversion Hl. subst users'.
  destruct (load_reads s) as [Hw _].
  assert (Erm : UserManager.remove username s
                = if mem username users
                  then (Ok [(INFO, SavedUsers
                                     (List.length
                                        (UserManager.remove_first username users)));
                            (INFO, RemovedUser username)],
                        snd (UserManager._save
                               (UserManager.remove_first username users)
                               (snd (load s))))
                  else (Ok [(WARN, UserNotFound username)], snd (load s))).
  { unfold UserManager.remove. unfold bind at 1. rewrite E.
    destruct (mem username users); reflexivity. }
  cbv zeta. rewrite Erm. destruct (mem username users) eqn:Hm; cbn [fst snd].
  - split; [ reflexivity | ]. split.
    + apply load_after_save. now apply forallb_remove_first.
    + unfold UserManager._save, bind, on_world, ret. cbn [snd world].
      apply read_after_write.
  - split; [ reflexivity | ]. split; [ | exact Hw ].
    rewrite (remove_first_absent _ _ Hm), <- Hload. now apply load_twice.
Qed.

End Users.
(** ** What is submitted for fetching *)

Section Submission.

Context {World : Type} {host : Host World}.
Variable config : Config.
Variable format_as_markdown : dict -> string -> string -> result string.

Local Open Scope py_scope.

Lemma layout_posts_infos (user : string) (total i : nat)
  (user_urls content : list string) (post_infos : list post_info) :
  map info_url (snd (layout_posts user total i user_urls content post_infos))
  = (map info_url post_infos ++ user_urls)%list
  /\ map info_index (snd (layout_posts user total i user_urls content post_infos))
     = (map info_index post_infos ++ seq i (List.length user_urls))%list
  /\ map info_user (snd (layout_posts user total i user_urls content post_infos))
     = (map info_user post_infos ++ map (fun _ => user) user_urls)%list.
Proof.
  revert i content post_infos.
  induction user_urls as [ | url rest IH]; intros i content post_infos;
    cbn [layout_posts].
  - cbn. now rewrite !app_nil_r.
  - destruct (IH (S i) (content ++ placeholder i url)%list
                 (post_infos ++ [mkInfo user url i total (List.length content)])%list)
      as (A & B & C).
    rewrite A, B, C, !map_app. cbn. now rewrite <- !app_assoc.
Qed.

Lemma layout_users_infos (d : results) (content : list string)
  (post_infos : list post_info) :
  map info_url (snd (layout_users d content post_infos))
  = (map info_url post_infos ++ flat_map snd d)%list
  /\ map info_index (snd (layout_users d content post_infos))
     = (map info_index post_infos
        ++ flat_map (fun kv => seq 1 (List.length (snd kv))) d)%list
  /\ map info_user (snd (layout_users d content post_infos))
     = (map info_user post_infos
        ++ flat_map (fun kv => map (fun _ => fst kv) (snd kv)) d)%list.
Proof.
  revert content post_infos.
  induction d as [ | [user user_urls] rest IH]; intros content post_infos;
    cbn [layout_users].
  - cbn. now rewrite !app_nil_r.
  - destruct user_urls as [ | url more].
    + destruct (IH content post_infos) as (A & B & C). now rewrite A, B, C.
    + set (user_urls := url :: more).
      destruct (layout_posts_infos user (List.length user_urls) 1 user_urls
                  (content ++ user_section_heading user (List.length user_urls))%list
                  post_infos) as (A & B & C).
      destruct (layout_posts _ _ _ _ _ _) as [content' post_infos'].
      cbn [snd] in A, B, C.
      destruct (IH content' post_infos') as (A' & B' & C').
      rewrite A', B', C', A, B, C. cbn [flat_map snd fst].
      now rewrite <- !app_assoc.
Qed.

Lemma length_flat_map_snd (d : results) :
  List.length (flat_map snd d) = total_posts_of d.
Proof.
  unfold total_posts_of. induction d as [ | [user user_urls] rest IH]; cbn;
    [ reflexivity | ].
  now rewrite length_app, IH.
Qed.

(** X19. What [save_markdown] submits for fetching: every URL of the results,
    once, profile after profile in the order of the dictionary and post after
    post in the order collected; the posts of a profile are numbered from 1;
    their number is the total the header of the document announces; and the
    place recorded for each post lies inside the list of items, so that the
    assignment made when its content arrives never falls outside it. *)
Theorem every_post_is_submitted_once (d : results) (timestamp : string) :
  let content := fst (layout_users d (md_header timestamp d) []) in
  let post_infos := snd (layout_users d (md_header timestamp d) []) in
  map info_url post_infos = flat_map snd d
  /\ map info_index post_infos
     = flat_map (fun kv => seq 1 (List.length (snd kv))) d
  /\ map info_user post_infos
     = flat_map (fun kv => map (fun _ => fst kv) (snd kv)) d
  /\ List.length post_infos = total_posts_of d
  /\ forall info, In info post_infos ->
       (section_start info < List.length content)%nat.
Proof.
  cbv zeta.
  destruct (layout_users_infos d (md_header timestamp d) []) as (A & B & C).
  cbn [map app] in A, B, C.
  split; [ exact A | ]. split; [ exact B | ]. split; [ exact C | ].
  split.
  - rewrite <- length_flat_map_snd, <- A. now rewrite length_map.
  - intros info Hin.
    assert (L : laid_out (fst (layout_users d (md_header timestamp d) []))
                         (snd (layout_users d (md_header timestamp d) []))).
    { apply layout_users_laid_out. intros i []. }
    destruct (L info Hin) as [H _].
    apply nth_error_Some. rewrite H. discriminate.
Qed.

End Submission.

(** ** The dictionary of results *)

Section Dictionary.

Context {World : Type} {host : Host World}.
Variable config : Config.

Local Open Scope py_scope.

Lemma results_set_new (key : string) (value : list string) (d : results) :
  ~ In key (map fst d) -> results_set key value d = (d ++ [(key, value)])%list.
Proof.
  induction d as [ | [k v] rest IH]; cbn; [ reflexivity | ].
  intro H. destruct (String.eqb k key) eqn:E.
  - apply String.eqb_eq in E. elim H. now left.
  - rewrite IH; [ reflexivity | ]. intro Hin. apply H. now right.
Qed.

Lemma results_set_keys (key : string) (value : list string) (d : results) :
  In key (map fst d) -> map fst (results_set key value d) = map fst d.
Proof.
  induction d as [ | [k v] rest IH]; cbn; [ now intros [] | ].
  intro H. destruct (String.eqb k key) eqn:E; [ reflexivity | ].
  cbn. rewrite IH; [ reflexivity | ].
  destruct H as [H | H]; [ | exact H ].
  subst k. now rewrite String.eqb_refl in E.
Qed.

Lemma results_set_distinct (key : string) (value : list string) (d : results) :
  NoDup (map fst d) ->
  NoDup (map fst (results_set key value d))
  /\ forall u, In u (map fst (results_set key value d)) <-> u = key \/ In u (map fst d).
Proof.
  intro H. destruct (in_dec string_dec key (map fst d)) as [Hin | Hout].
  - rewrite (results_set_keys key value d Hin). split; [ exact H | ].
    intro u. split; [ now right | ]. intros [-> | Hu]; assumption.
  - rewrite (results_set_new key value d Hout), map_app. cbn. split.
    + apply NoDup_app; [ exact H | repeat constructor; now intros [] | ].
      intros a Ha [<- | []]. contradiction.
    + intro u. rewrite in_app_iff. cbn. split.
      * intros [Hu | [<- | []]]; [ now right | now left ].
      * intros [-> | Hu]; [ right; now left | now left ].
Qed.

(** The scheduler, with the dictionary it builds. *)
Lemma handle_all_dictionary (order : list nat) (users : list string)
  (completed : nat) (all_results : results) (s : Sys World) :
  NoDup (map fst all_results) ->
  exists (all_results' : results) (s' : Sys World),
    handle_all config order users completed all_results s = (Ok all_results', s')
    /\ NoDup (map fst all_results')
    /\ forall u, In u (map fst all_results')
                 <-> In u (map fst all_results) \/ In u (picked users order).
Proof.
  revert completed all_results s.
  induction order as [ | k rest IH]; intros completed all_results s Hd;
    cbn [handle_all].
  - exists all_results, s. split; [ reflexivity | ]. split; [ exact Hd | ].
    intro u. cbn. tauto.
  - unfold picked. cbn [flat_map]. fold (picked users rest).
    destruct (nth_error users k) as [user | ].
    + destruct (handle_user_run config user (S completed) (List.length users)
                  all_results s) as (user_urls & s1 & _ & _ & E).
      unfold bind at 1. rewrite E.
      destruct (results_set_distinct user user_urls all_results Hd) as [Hd' Hk].
      match goal with
      | |- context [handle_all _ _ _ _ _ ?s0] =>
          destruct (IH (S completed) (results_set user user_urls all_results) s0 Hd')
            as (all_results' & s' & E' & Hn & Hin)
      end.
      exists all_results', s'. split; [ exact E' | ]. split; [ exact Hn | ].
      intro u. rewrite Hin, Hk. cbn. intuition congruence.
    + destruct (IH completed all_results s Hd) as (all_results' & s' & E' & Hn & Hin).
      exists all_results', s'. split; [ exact E' | ]. split; [ exact Hn | ].
      intro u. rewrite Hin. cbn. tauto.
Qed.

Lemma handle_all_in_order (order : list nat) (users : list string)
  (completed : nat) (all_results : results) (s : Sys World) :
  NoDup (map fst all_results ++ picked users order) ->
  exists (done : results) (s' : Sys World),
    handle_all config order users completed all_results s
    = (Ok (all_results ++ done)%list, s')
    /\ map fst done = picked users order
    /\ txt_file s' = (txt_file s ++ user_entries completed (List.length users) done)%list.
Proof.
  revert completed all_results s.
  induction order as [ | k rest IH]; intros completed all_results s Hd;
    cbn [handle_all].
  - exists [], s. cbn. now rewrite !app_nil_r.
  - unfold picked in Hd |- *. cbn [flat_map] in Hd |- *. fold (picked users rest) in *.
    destruct (nth_error users k) as [user | ].
    + destruct (handle_user_run config user (S completed) (List.length users)
                  all_results s) as (user_urls & s1 & _ & Htxt & E).
      unfold bind at 1. rewrite E.
      assert (Hnew : ~ In user (map fst all_results)).
      { cbn in Hd. apply NoDup_remove_2 in Hd. intro H. apply Hd.
        apply in_or_app. now left. }
      rewrite (results_set_new user user_urls all_results Hnew).
      destruct (IH (S completed) (all_results ++ [(user, user_urls)])%list
                   (add_trace (add_txt s1 (user_entry user user_urls (S completed)
                                                      (List.length users)))
                              [progress_line user user_urls (S completed)
                                             (List.length users)]))
        as (done & s' & E' & Hk & Ht).
      { rewrite map_app. cbn [map fst]. rewrite <- app_assoc. exact Hd. }
      exists ((user, user_urls) :: done), s'.
      rewrite E', <- app_assoc. split; [ reflexivity | ].
      split; [ cbn; now rewrite Hk | ].
      rewrite Ht. cbn [txt_file add_trace add_txt user_entries].
      now rewrite Htxt, <- app_assoc.
    + cbn [app] in Hd. exact (IH completed all_results s Hd).
Qed.

(** X20. The dictionary the scheduler builds holds each profile once, however
    often the list names it, and holds exactly the profiles that were
    handled: a profile listed twice is crawled and written to the text file
    twice and counted once in the dictionary. *)
Theorem results_hold_each_profile_once (order : list nat) (users : list string)
  (s : Sys World) :
  exists (all_results : results) (s' : Sys World),
    handle_all config order users 0 [] s = (Ok all_results, s')
    /\ NoDup (map fst all_results)
    /\ forall u, In u (map fst all_results) <-> In u (picked users order).
Proof.
  destruct (handle_all_dictionary order users 0 [] s (NoDup_nil _))
    as (all_results & s' & E & Hn & Hin).
  exists all_results, s'. split; [ exact E | ]. split; [ exact Hn | ].
  intro u. rewrite Hin. cbn. tauto.
Qed.

(** X21. When the profiles handled are all different, the dictionary lists them
    in the order in which their crawls completed, each with the URLs written
    for it to the text file at that moment: the dictionary and the text file
    tell the same story. *)
Theorem results_follow_completion_order (order : list nat) (users : list string)
  (s : Sys World) :
  NoDup (picked users order) ->
  exists (all_results : results) (s' : Sys World),
    handle_all config order users 0 [] s = (Ok all_results, s')
    /\ map fst all_results = picked users order
    /\ txt_file s'
       = (txt_file s ++ user_entries 0 (List.length users) all_results)%list.
Proof.
  intro H. exact (handle_all_in_order order users 0 [] s H).
Qed.

End Dictionary.

(** ** Lines that read as integers *)

Section IntegerLines.

Context {World : Type} {host : Host World}.

Local Open Scope py_scope.

Lemma startswith_cons (a b : ascii) (p s : string) :
  PyStr.startswith (String a p) (String b s) = Ascii.eqb a b && PyStr.startswith p s.
Proof.
  unfold PyStr.startswith. cbn [String.prefix].
  destruct (ascii_dec a b) as [-> | N].
  - now rewrite Ascii.eqb_refl.
  - destruct (Ascii.eqb a b) eqn:E; [ | reflexivity ].
    apply Ascii.eqb_eq in E. contradiction.
Qed.

Lemma startswith_empty (s : string) : PyStr.startswith "" s = true.
Proof. now destruct s. Qed.

Lemma int_body_digits (r : string) (after_digit : bool) (acc : Z) :
  PyStr.all_chars PyStr.is_digit r = true ->
  PyStr.is_empty r = false \/ after_digit = true ->
  PyStr.int_body after_digit acc r = Some (PyStr.digits_val acc r).
Proof.
  revert after_digit acc. induction r as [ | c r IH]; intros after_digit acc Hr Hne.
  - destruct Hne as [Hne | ->]; [ discriminate | reflexivity ].
  - cbn in Hr. apply andb_true_iff in Hr. destruct Hr as [Hc Hr].
    cbn [PyStr.int_body PyStr.digits_val]. rewrite Hc.
    apply IH; [ exact Hr | now right ].
Qed.

Lemma digit_is_plain (c : ascii) : PyStr.is_digit c = true -> is_plain c = true.
Proof.
  destruct c as [[ | ] [ | ] [ | ] [ | ] [ | ] [ | ] [ | ] [ | ]];
    first [ reflexivity | discriminate ].
Qed.

Lemma dashes_and_digits_are_plain (line : string) :
  PyStr.isdigit (PyStr.lstrip_char "-" line) = true ->
  PyStr.all_chars is_plain line = true.
Proof.
  unfold PyStr.isdigit, PyStr.lstrip_char.
  induction line as [ | c line IH]; cbn [PyStr.drop_while]; [ discriminate | ].
  destruct (Ascii.eqb "-" c) eqn:E.
  - apply Ascii.eqb_eq in E. subst c. intro H. cbn. now apply IH.
  - intro H. apply andb_true_iff in H. destruct H as [_ H].
    exact (all_chars_impl _ _ _ digit_is_plain H).
Qed.

Lemma split_go_no_newline (line cur : string) :
  PyStr.all_chars is_plain line = true ->
  PyStr.split_go PyStr.nl 0 cur line = [(PyStr.rev cur ++ line)%string].
Proof.
  revert cur. induction line as [ | c line IH]; intros cur H; cbn [PyStr.split_go].
  - now rewrite append_empty.
  - cbn in H. apply andb_true_iff in H. destruct H as [Hc H].
    rewrite (plain_is_not_newline c _ Hc), (IH _ H).
    unfold PyStr.rev. cbn [PyStr.rev_onto].
    rewrite (rev_onto_app cur (String c "")), append_assoc. reflexivity.
Qed.

(** The scan of a line that starts with a dash or a digit goes past the
    tests for decorations, JSON and booleans. *)
Lemma scan_reaches_the_integer_test (c : ascii) (r : string) (i : nat)
  (rest : list string) :
  PyStr.strip (String c r) = String c r ->
  c = "-"%char \/ PyStr.is_digit c = true ->
  PyStr.isdigit (PyStr.lstrip_char "-" (String c r)) = true ->
  scan_lines i (String c r :: rest)
  = match PyStr.py_int (String c r) with
    | Some z => Scalar (ok_result (JInt z))
    | None => IntRaises
    end.
Proof.
  intros Hstrip Hc Hguard. cbn [scan_lines]. rewrite Hstrip, Hguard.
  destruct Hc as [-> | Hc]; [ reflexivity | ].
  destruct c as [[ | ] [ | ] [ | ] [ | ] [ | ] [ | ] [ | ] [ | ]];
    first [ discriminate Hc | reflexivity ].
Qed.

Lemma py_int_of_line (c : ascii) (r : string) :
  PyStr.strip (String c r) = String c r ->
  PyStr.isdigit (PyStr.lstrip_char "-" (String c r)) = true ->
  (c = "-"%char \/ PyStr.is_digit c = true)
  /\ PyStr.py_int (String c r)
     = if PyStr.startswith "--" (String c r)
          || (PyStr.int_max_str_digits <? PyStr.digit_count (String c r))
       then None
       else if PyStr.startswith "-" (String c r)
            then Some (- PyStr.digits_val 0 r)
            else Some (PyStr.digits_val 0 (String c r)).
Proof.
  intros Hstrip Hguard. unfold PyStr.py_int, PyStr.int_digits. rewrite Hstrip.
  unfold PyStr.isdigit, PyStr.lstrip_char in Hguard. cbn [PyStr.drop_while] in Hguard.
  destruct (Ascii.eqb "-" c) eqn:E.
  - apply Ascii.eqb_eq in E. subst c. split; [ now left | ].
    destruct r as [ | c' r]; [ discriminate | ].
    cbn [PyStr.drop_while] in Hguard.
    rewrite !startswith_cons, !startswith_empty, Ascii.eqb_refl.
    change (PyStr.digit_count (String "-" (String c' r)))
      with (0 + PyStr.digit_count (String c' r)).
    rewrite Z.add_0_l.
    destruct (Ascii.eqb "-" c') eqn:E'.
    + apply Ascii.eqb_eq in E'. subst c'.
      destruct (_ <? _); reflexivity.
    + apply andb_true_iff in Hguard. destruct Hguard as [_ Hd].
      rewrite (int_body_digits (String c' r) false 0 Hd (or_introl eq_refl)).
      destruct (_ <? _); reflexivity.
  - apply andb_true_iff in Hguard. destruct Hguard as [_ Hd].
    pose proof Hd as Hd'. cbn in Hd'. apply andb_true_iff in Hd'.
    destruct Hd' as [Hc _]. split; [ now right | ].
    rewrite <- (int_body_digits (String c r) false 0 Hd (or_introl eq_refl)).
    rewrite !startswith_cons, E. cbn [andb orb].
    destruct (_ <? _);
      destruct c as [[ | ] [ | ] [ | ] [ | ] [ | ] [ | ] [ | ] [ | ]];
      first [ discriminate Hc | reflexivity ].
Qed.

(** X22. An output that is one line of dashes followed by digits, the
    lines that the test [lstrip('-').isdigit()] lets through: the parser
    raises [ValueError] exactly when the line starts with two dashes or
    holds more digits than [int] converts, 4300 by default; otherwise a line
    of digits gives its value, and a line of one dash and digits the opposite
    of the value of the digits. *)
Theorem integer_line_outcome (line : string) (s : Sys World) :
  PyStr.isdigit (PyStr.lstrip_char "-" line) = true ->
  _parse_output line s
  = if PyStr.startswith "--" line
       || (PyStr.int_max_str_digits <? PyStr.digit_count line)
    then (Raise ValueError, s)
    else if PyStr.startswith "-" line
         then (Ok (Some (ok_result
                           (JInt (- PyStr.digits_val 0 (PyStr.lstrip_char "-" line))))),
               s)
         else (Ok (Some (ok_result (JInt (PyStr.digits_val 0 line)))), s).
Proof.
  intro Hguard.
  pose proof (dashes_and_digits_are_plain line Hguard) as Hplain.
  pose proof (strip_plain line Hplain) as Hstrip.
  unfold _parse_output. rewrite Hstrip. unfold PyStr.split.
  rewrite (split_go_no_newline line "" Hplain). cbn [PyStr.rev PyStr.rev_onto append].
  destruct line as [ | c r]; [ discriminate Hguard | ].
  destruct (py_int_of_line c r Hstrip Hguard) as [Hc Hint].
  rewrite (scan_reaches_the_integer_test c r 0 [] Hstrip Hc Hguard), Hint.
  destruct (PyStr.startswith "--" (String c r)) eqn:E2; [ reflexivity | ].
  cbn [orb].
  destruct (PyStr.int_max_str_digits <? PyStr.digit_count (String c r));
    [ reflexivity | ].
  destruct (PyStr.startswith "-" (String c r)) eqn:E1; [ | reflexivity ].
  assert (Hr : PyStr.lstrip_char "-" (String c r) = r).
  { rewrite startswith_cons, startswith_empty, andb_true_r in E1.
    apply Ascii.eqb_eq in E1. subst c.
    unfold PyStr.lstrip_char. cbn [PyStr.drop_while]. rewrite Ascii.eqb_refl.
    destruct r as [ | c' r]; [ reflexivity | ].
    rewrite !startswith_cons, startswith_empty, Ascii.eqb_refl, andb_true_r in E2.
    cbn [andb] in E2. cbn [PyStr.drop_while]. now rewrite E2. }
  now rewrite Hr.
Qed.

End IntegerLines.

(** ** The report and the browser *)

Section Offline.

Context {World : Type} {host : Host World}.
Variable config : Config.
Variable format_as_markdown : dict -> string -> string -> result string.

Local Open Scope py_scope.

Lemma browser_event (n : Z) (t : option json) (cmds : list event)
  (s : Sys World) (e : event) :
  not_cmd e = true -> browser_is n t cmds s -> browser_is n t cmds (add_trace s [e]).
Proof.
  unfold not_cmd, browser_is. intros He (H1 & H2 & H3).
  cbn [restart_count target_id trace add_trace]. rewrite filter_app. cbn [filter].
  destruct (is_cmd e); [ discriminate | ].
  now rewrite app_nil_r.
Qed.

Lemma browser_save_markdown (n : Z) (t : option json) (cmds : list event)
  (d : results) (timestamp : string) (order : list nat) :
  keeps (browser_is n t cmds) (save_markdown format_as_markdown d timestamp order).
Proof.
  assert (Hlog : forall lv m, keeps (World := World) (browser_is n t cmds) (log lv m)).
  { intros lv m s H. now apply (browser_event n t cmds s (Log lv m)). }
  unfold save_markdown.
  destruct (layout_users d (md_header timestamp d) []) as [content post_infos].
  apply keeps_bind; [ apply Hlog | intro ].
  apply keeps_bind.
  - apply keeps_complete_all with (allowed := not_cmd);
      first [ exact (browser_event n t cmds) | exact (fun s w H => H)
            | reflexivity | intros; reflexivity ].
  - intro final. apply keeps_bind; [ intros s H; exact H | intro; apply Hlog ].
Qed.

Lemma requests_ret {A} (a : A) (b : nat) : requests_at_most (World := World) b (ret a).
Proof. intro s. cbn. lia. Qed.

Lemma requests_raise {A} (e : exn) (b : nat) :
  requests_at_most (World := World) b (@raise World A e).
Proof. intro s. cbn. lia. Qed.

Lemma requests_log (lv : level) (m : message) (b : nat) :
  requests_at_most (World := World) b (log lv m).
Proof.
  intro s. change (snd (log lv m s)) with (add_trace s [Log lv m]).
  unfold requests_made, add_trace. cbn [trace].
  rewrite gets_app, length_app. cbn. lia.
Qed.

Lemma requests_bind {A B} (b1 b2 : nat) (m : M World A) (k : A -> M World B) :
  requests_at_most b1 m -> (forall a, requests_at_most b2 (k a)) ->
  requests_at_most (b1 + b2) (bind m k).
Proof.
  intros Hm Hk s. unfold bind. specialize (Hm s).
  destruct (m s) as [[a | e] s1]; cbn [snd] in *.
  - specialize (Hk a s1). lia.
  - lia.
Qed.

Lemma requests_try {A} (b : nat) (m : M World A) (h : exn -> M World A) :
  requests_at_most b m -> (forall e, requests_at_most 0 (h e)) ->
  requests_at_most b (try_except m h).
Proof.
  intros Hm Hh s. unfold try_except. specialize (Hm s).
  destruct (m s) as [[a | e] s1]; cbn [snd] in *.
  - exact Hm.
  - specialize (Hh e s1). lia.
Qed.

Lemma requests_fetch_one {A} (url : string) (timeout : Z)
  (k : http_outcome -> M World A) :
  (forall resp, requests_at_most 0 (k resp)) ->
  requests_at_most 1 (emit (Get url timeout) ;;
                      resp <- on_world (requests_get url timeout) ;; k resp).
Proof.
  intros Hk s. rewrite bind_emit. unfold bind at 1, on_world.
  destruct (requests_get url timeout (world (add_trace s [Get url timeout])))
    as [resp w].
  specialize (Hk resp). specialize (Hk (mkSys w (restart_count s) (target_id s)
                                             (trace s ++ [Get url timeout])
                                             (txt_file s) (md_file s))).
  cbn [add_trace world restart_count target_id trace txt_file md_file].
  unfold requests_made in *. cbn [trace] in *.
  rewrite gets_app, length_app in Hk. cbn in Hk. lia.
Qed.

Lemma requests_fetch_post (url : string) : requests_at_most 2 (fetch_post url).
Proof.
  unfold fetch_post.
  assert (Hnone : requests_at_most (World := World) 2
                    (log WARN (CannotExtractTweetId url) ;; ret (@None fetched))).
  { change 2%nat with (2 + 0)%nat.
    apply requests_bind; [ apply requests_log | intro; apply requests_ret ]. }
  destruct (_extract_tweet_id url) as [[ | c tweet_id] | ]; try exact Hnone.
  change 2%nat with (1 + 1)%nat. apply requests_bind.
  - unfold _fetch_via_fxtwitter. apply requests_fetch_one.
    intros [code [d | ] | msg]; try destruct (_ =? _);
      first [ apply requests_ret
            | change 0%nat with (0 + 0)%nat; apply requests_bind;
              [ apply requests_log | intro; apply requests_ret ] ].
  - intro primary.
    destruct (marked "tweet" primary) as [[d | ] | e]; [ | | apply requests_raise ].
    + change 1%nat with (1 + 0)%nat.
      apply requests_bind; [ apply requests_log | intro; apply requests_ret ].
    + change 1%nat with (1 + 0)%nat. apply requests_bind.
      * unfold _fetch_via_syndication. apply requests_fetch_one.
        intros [code [d | ] | msg]; try destruct (_ =? _);
          first [ apply requests_ret
                | change 0%nat with (0 + 0)%nat; apply requests_bind;
                  [ apply requests_log | intro; apply requests_ret ] ].
      * intro secondary.
        destruct (marked "text" secondary) as [[d | ] | e];
          [ | | apply requests_raise ];
          (change 0%nat with (0 + 0)%nat;
           apply requests_bind; [ apply requests_log | intro; apply requests_ret ]).
Qed.

Lemma requests_complete_one (info : post_info) (completed all : nat)
  (content : list string) :
  requests_at_most 2 (complete_one format_as_markdown info completed all content).
Proof.
  unfold complete_one. apply requests_try.
  - change 2%nat with (2 + 0)%nat. apply requests_bind.
    + unfold fetch_content. change 2%nat with (2 + 0)%nat. apply requests_bind;
        [ apply requests_fetch_post | ].
      intros [f | ]; [ | apply requests_ret ].
      destruct (format_as_markdown _ _ _); [ apply requests_ret | apply requests_raise ].
    + intros [[ | c text] | ]; try apply requests_ret.
      change 0%nat with (0 + 0)%nat.
      apply requests_bind; [ apply requests_log | intro; apply requests_ret ].
  - intro e. change 0%nat with (0 + 0)%nat.
    apply requests_bind; [ apply requests_log | intro; apply requests_ret ].
Qed.

Lemma requests_complete_all (order : list nat) (post_infos : list post_info)
  (completed : nat) (content : list string) :
  requests_at_most (2 * List.length order)
    (complete_all format_as_markdown order post_infos completed content).
Proof.
  revert completed content.
  induction order as [ | k rest IH]; intros completed content; cbn [complete_all].
  - apply requests_ret.
  - replace (2 * List.length (k :: rest))%nat
      with (2 + 2 * List.length rest)%nat by (cbn [List.length]; lia).
    destruct (nth_error post_infos k).
    + apply requests_bind; [ apply requests_complete_one | intro; apply IH ].
    + intro s. specialize (IH completed content s). lia.
Qed.

(** X23. [save_markdown] works on the results alone: it never raises and
    writes the document, whatever the sources answer and whatever the
    rendering does; it sends no command to the browser and leaves the
    client and the text file as they were; and it makes at most two HTTP
    requests for each fetch that completes. *)
Theorem report_leaves_the_browser_alone (d : results) (timestamp : string)
  (order : list nat) (s : Sys World) :
  exists s' : Sys World,
    save_markdown format_as_markdown d timestamp order s = (Ok tt, s')
    /\ md_file s' <> None
    /\ txt_file s' = txt_file s
    /\ restart_count s' = restart_count s
    /\ target_id s' = target_id s
    /\ filter is_cmd (trace s') = filter is_cmd (trace s)
    /\ (requests_made s' <= requests_made s + 2 * List.length order)%nat.
Proof.
  destruct (save_markdown_run format_as_markdown d timestamp order s)
    as (s' & E & Htxt & Hmd).
  exists s'. split; [ exact E | ]. split; [ exact Hmd | ]. split; [ exact Htxt | ].
  pose proof (browser_save_markdown (restart_count s) (target_id s)
                (filter is_cmd (trace s)) d timestamp order s
                (conj eq_refl (conj eq_refl eq_refl))) as K.
  rewrite E in K. destruct K as (K1 & K2 & K3).
  split; [ exact K1 | ]. split; [ exact K2 | ]. split; [ exact K3 | ].
  assert (R : requests_at_most (2 * List.length order)
                (save_markdown format_as_markdown d timestamp order)).
  { unfold save_markdown.
    destruct (layout_users d (md_header timestamp d) []) as [content post_infos].
    replace (2 * List.length order)%nat
      with (0 + (2 * List.length order + (0 + 0)))%nat by lia.
    apply requests_bind; [ apply requests_log | intro ].
    apply requests_bind; [ apply requests_complete_all | intro final ].
    apply requests_bind; [ | intro; apply requests_log ].
    intro s0. unfold requests_made, write_md. cbn [snd trace]. lia. }
  specialize (R s). now rewrite E in R.
Qed.

End Offline.

(** * Runs on the scripted host *)

(** C1 (failing input). The heuristic is switched on and the first pass
    finds one URL whose identifier, 1, is below the clock minus 24 hours, so
    that the test of the script on that URL answers that it is old. The
    collector does not stop there: it scrolls on and returns the URL found on
    the second pass as well. *)
Theorem early_stop_does_not_fire :
  scroll_early_stop_on_yesterday default_config = true
  /\ fst (first_url_is_old
            (mkScroll [Scripted.first_post] [Scripted.first_post] 0 0 false)
            Scripted.growing_feed) = Ok true
  /\ fst (_scroll_and_collect default_config "a" Scripted.growing_feed)
     = Ok [Scripted.first_post; Scripted.second_post].
Proof. vm_compute. repeat split; reflexivity. Qed.

(** The restart budget on a short history, on a client that has spent its
    ten restarts and meets a lost session, and on a fresh client. *)
Lemma restart_budget_respected_witness :
  (let s := snd (run_history default_config
                   [CallNavigate "https://x.com/a"; CallPress "PageDown"]
                   (fresh Scripted.quiet)) in
   restarts_performed s = restart_count s /\ restarts_performed s <= 10)
  /\ _execute_action default_config ["openclaw"; "browser"; "press"; "PageDown"]
                     Scripted.spent_client
     = (Ok None,
        add_trace (with_world Scripted.spent_client Scripted.quiet)
          [Cmd ["openclaw"; "browser"; "press"; "PageDown"] 30;
           Log WARN DetectedTabNotFound; Log WARN (AlreadyRestarted 10)])
  /\ recoveries_attempted
       (snd (_execute_action default_config
               ["openclaw"; "browser"; "press"; "PageDown"]
               (Scripted.boot Scripted.quiet)))
     <= recoveries_attempted (Scripted.boot Scripted.quiet) + 1
  /\ commands_run ["openclaw"; "browser"; "press"; "PageDown"]
       (snd (_execute_action default_config
               ["openclaw"; "browser"; "press"; "PageDown"]
               (Scripted.boot Scripted.quiet)))
     <= commands_run ["openclaw"; "browser"; "press"; "PageDown"]
          (Scripted.boot Scripted.quiet) + 2.
Proof.
  destruct (restart_budget_respected (host := Scripted.host) default_config
              ltac:(cbn; lia) eq_refl) as (A & B & C & D).
  split; [ exact (A Scripted.quiet _) | ].
  split; [ | split; [ exact (C _ _) | apply D; reflexivity ] ].
  exact (B Scripted.spent_client _ Scripted.lost_session Scripted.quiet
           eq_refl eq_refl ltac:(cbn; lia)).
Defined.


(** The same run, step by step: what the loop had collected, what the
    supervisor returns, and the last line of the log. *)
Example slow_profile_run :
  fst (_retry_crawl_user default_config "alice" (Scripted.boot Scripted.slow_profile))
  = Ok [Scripted.first_post]
  /\ fst (crawl_single_user default_config "alice"
            (Scripted.boot Scripted.slow_profile)) = Ok []
  /\ attempts_started
       (trace (snd (crawl_single_user default_config "alice"
                      (Scripted.boot Scripted.slow_profile)))) = 1%nat
  /\ last (trace (snd (crawl_single_user default_config "alice"
                         (Scripted.boot Scripted.slow_profile)))) (Sleep 0)
     = Log ERROR (ExceptionLine (CrawlTimeoutError "alice" 120)).
Proof. vm_compute. repeat split; reflexivity. Qed.


(** The worker that is still running: the supervisor returns after the
    first three events of the worker and its own error line. *)
Example stuck_profile_run :
  fst (crawl_single_user default_config "alice"
         (Scripted.boot Scripted.stuck_profile)) = Ok []
  /\ map is_log
       (trace (snd (crawl_single_user default_config "alice"
                      (Scripted.boot Scripted.stuck_profile))))
     = [true; true; false; true]
  /\ last (trace (snd (crawl_single_user default_config "alice"
                         (Scripted.boot Scripted.stuck_profile)))) (Sleep 0)
     = Log ERROR (ExceptionLine (CrawlTimeoutError "alice" 120))
  /\ (List.length
        (trace (snd (_retry_crawl_user default_config "alice"
                       (Scripted.boot Scripted.stuck_profile)))) > 4)%nat.
Proof. vm_compute. repeat split; try reflexivity. lia. Qed.


(** C5 (failing input). One post of one profile. When its content comes
    back, the item written over the heading is followed by the three items
    left from submission: the line that says the content is being fetched,
    the URL line and the rule. When both sources fail, the section that says
    the content is unavailable is followed by the same three items. *)
Theorem placeholder_survives_the_fetch :
  md_file (snd (save_markdown Scripted.plain_body Scripted.alice_results "T" [0%nat]
                              (Scripted.boot Scripted.answering)))
  = Some (PyStr.concat
            (md_header "T" Scripted.alice_results
             ++ user_section_heading "alice" 1
             ++ [rendered "BODY"; fetching_line; url_line Scripted.alice_post;
                 rule_line])%list)
  /\ md_file (snd (save_markdown Scripted.plain_body Scripted.alice_results "T"
                                 [0%nat] (Scripted.boot Scripted.quiet)))
     = Some (PyStr.concat
               (md_header "T" Scripted.alice_results
                ++ user_section_heading "alice" 1
                ++ [unavailable 1 Scripted.alice_post; fetching_line;
                    url_line Scripted.alice_post; rule_line])%list).
Proof. vm_compute. split; reflexivity. Qed.

(** Two profiles, the second completing first: its crawl collects one post;
    the browser then stops answering and the crawl of the first profile
    fails. Both entries are written and the run is finalized. *)
Lemma scheduler_appends_every_profile_witness :
  exists (done : list (string * list string)) (all_results : results)
         (s2 s' : Sys Scripted.script) (finished : string),
    crawl_all_users default_config Scripted.plain_body [1%nat; 0%nat] []
                    (Scripted.boot Scripted.one_success)
    = (Ok all_results, s')
    /\ scheduled default_config ["alice"; "bob"] 2 0
                 (crawl_start default_config ["alice"; "bob"]
                    (add_trace (Scripted.boot Scripted.one_success)
                               [Log INFO (LoadedUsers 2)]))
                 [1%nat; 0%nat] done s2
    /\ map fst done = ["bob"; "alice"]
    /\ Permutation (map fst done) ["alice"; "bob"]
    /\ txt_file s'
       = (txt_file (crawl_start default_config ["alice"; "bob"]
                      (add_trace (Scripted.boot Scripted.one_success)
                                 [Log INFO (LoadedUsers 2)]))
          ++ entries_text 0 2 done
          ++ txt_footer finished (total_posts_of all_results))%list
    /\ md_file s' <> None.
Proof.
  destruct (scheduler_appends_every_profile (host := Scripted.host) default_config
              Scripted.plain_body) as [_ B].
  apply (B [1%nat; 0%nat] [] ["alice"; "bob"] (Scripted.boot Scripted.one_success)
           (add_trace (Scripted.boot Scripted.one_success)
                      [Log INFO (LoadedUsers 2)]));
    [ vm_compute; reflexivity | discriminate | apply perm_swap ].
Defined.

(** That run: what the crawl of each profile returns in the state its turn
    finds, and the result file chunk by chunk. *)
Example one_success_run :
  fst (crawl_single_user default_config "bob"
         (crawl_start default_config ["alice"; "bob"]
            (add_trace (Scripted.boot Scripted.one_success)
                       [Log INFO (LoadedUsers 2)])))
  = Ok [Scripted.first_post]
  /\ txt_file (snd (crawl_all_users default_config Scripted.plain_body
                      [1%nat; 0%nat] [] (Scripted.boot Scripted.one_success)))
     = ["# Crawl Results - 2027-01-15 08:00:00" ++ PyStr.nl;
        "# Total users: 2" ++ PyStr.nl;
        "# Started at: 2027-01-15 08:00:00" ++ PyStr.nl ++ PyStr.nl;
        "# @bob (1 posts) - [1/2]" ++ PyStr.nl;
        Scripted.first_post ++ PyStr.nl;
        PyStr.nl;
        "# @alice (0 posts) - [2/2]" ++ PyStr.nl;
        PyStr.nl;
        PyStr.nl ++ "# Completed at: 2027-01-15 08:00:00" ++ PyStr.nl;
        "# Total posts: 1" ++ PyStr.nl]
  /\ fst (crawl_all_users default_config Scripted.plain_body
            [1%nat; 0%nat] [] (Scripted.boot Scripted.one_success))
     = Ok [("bob", [Scripted.first_post]); ("alice", [])].
Proof. vm_compute. repeat split; reflexivity. Qed.

(** Two profiles on the quiet host, the second completing first: both crawls
    fail, and the file of the run, chunk by chunk. *)
Example two_profiles_run :
  txt_file (snd (crawl_all_users default_config Scripted.plain_body
                   [1%nat; 0%nat] [] (Scripted.boot Scripted.two_profiles)))
  = (txt_header "2027-01-15 08:00:00" ["alice"; "bob"]
     ++ user_entry "bob" [] 1 2
     ++ user_entry "alice" [] 2 2
     ++ txt_footer "2027-01-15 08:00:00" 0)%list.
Proof. vm_compute. reflexivity. Qed.

(** A [navigate] answered with a bare [true], then two calls of
    [evaluate]. *)
Lemma navigate_without_target_id_witness :
  navigate default_config "https://x.com/a" (Scripted.boot Scripted.bare_navigate)
  = (Ok true,
     mkSys Scripted.quiet 0 (Some JNull)
       [Log INFO (Navigating "https://x.com/a");
        Cmd ["openclaw"; "browser"; "navigate"; "--json"; "https://x.com/a"] 30]
       [] None)
  /\ evaluate_each default_config ["1 + 1"; "2 + 2"]
       (mkSys Scripted.quiet 0 (Some JNull)
          [Log INFO (Navigating "https://x.com/a");
           Cmd ["openclaw"; "browser"; "navigate"; "--json"; "https://x.com/a"] 30]
          [] None)
     = (Ok [JNull; JNull],
        mkSys Scripted.quiet 0 (Some JNull)
          [Log INFO (Navigating "https://x.com/a");
           Cmd ["openclaw"; "browser"; "navigate"; "--json"; "https://x.com/a"] 30;
           Log WARN NoTargetId; Log WARN NoTargetId]
          [] None).
Proof.
  assert (Hreply :
    _execute_action default_config
      ["openclaw"; "browser"; "navigate"; "--json"; "https://x.com/a"]
      (add_trace (Scripted.boot Scripted.bare_navigate)
                 [Log INFO (Navigating "https://x.com/a")])
    = (Ok (Some (ok_result (JBool true))),
       mkSys Scripted.quiet 0 None
         [Log INFO (Navigating "https://x.com/a");
          Cmd ["openclaw"; "browser"; "navigate"; "--json"; "https://x.com/a"] 30]
         [] None)) by (vm_compute; reflexivity).
  assert (Hreal : ok_result (JBool true) <> []) by discriminate.
  assert (Hkey : dict_lookup "targetId" (ok_result (JBool true)) = None)
    by reflexivity.
  destruct (navigate_without_target_id (host := Scripted.host) default_config
              "https://x.com/a" (Scripted.boot Scripted.bare_navigate) _ _
              Hreply Hreal Hkey) as [A B].
  specialize (B ["1 + 1"; "2 + 2"]).
  split.
  - etransitivity; [ exact A | vm_compute; reflexivity ].
  - etransitivity; [ | etransitivity; [ exact B | ] ]; vm_compute; reflexivity.
Defined.

(** The two sources on the scripted host: a URL without identifier sends
    no request; a primary source that answers 500 and a secondary source that
    answers with a text give the secondary payload. *)
Example fetch_post_runs :
  gets (trace (snd (fetch_post "https://x.com/alice/status/abc"
                               (Scripted.boot Scripted.answering)))) = []
  /\ fetch_post "https://x.com/alice/status/abc" (Scripted.boot Scripted.answering)
     = (Ok None,
        add_trace (Scripted.boot Scripted.answering)
          [Log WARN (CannotExtractTweetId "https://x.com/alice/status/abc")])
  /\ fst (fetch_post Scripted.alice_post
            (Scripted.boot
               (Scripted.mkScript []
                  [Response 500 None; Response 200 (Some (JObj [("text", JStr "hi")]))]
                  [] [] [] None "")))
     = Ok (Some (mkFetched [("text", JStr "hi")] "syndication")).
Proof. vm_compute. repeat split; reflexivity. Qed.


(** The same run: one request, to the primary source, and
    [AttributeError]. *)
Example text_payload_run :
  fst (fetch_post Scripted.alice_post (Scripted.boot Scripted.answering_with_text))
  = Raise AttributeError
  /\ gets (trace (snd (fetch_post Scripted.alice_post
                         (Scripted.boot Scripted.answering_with_text))))
     = ["https://api.fxtwitter.com/alice/status/1"].
Proof. vm_compute. split; reflexivity. Qed.


(** * Runs of the further properties *)

Lemma permalink_gives_its_identifier_witness :
  _extract_tweet_id (permalink "x.com" "alice" "1234567890" ++ "?s=20")
  = Some "1234567890".
Proof.
  apply (permalink_gives_its_identifier "x.com" "alice" "1234567890" "?s=20");
    [ now left | reflexivity | reflexivity | reflexivity | reflexivity ].
Defined.

Lemma extracted_identifier_is_a_number_witness : PyStr.isdigit "42" = true.
Proof.
  apply (extracted_identifier_is_a_number
           "https://twitter.com/bob/statuses/42/photo/1" "42").
  vm_compute. reflexivity.
Defined.

Lemma permalink_is_asked_of_the_two_sources_witness :
  exists more : list string,
    gets (trace (snd (fetch_post (permalink "x.com" "alice" "1")
                                 (Scripted.boot Scripted.quiet))))
    = (gets (trace (Scripted.boot Scripted.quiet))
       ++ permalink "api.fxtwitter.com" "alice" "1" :: more)%list
    /\ (more = [] \/ more = [syndication_url "1"]).
Proof.
  apply (permalink_is_asked_of_the_two_sources (host := Scripted.host)
           "x.com" "alice" "1" (Scripted.boot Scripted.quiet));
    [ now left | reflexivity | reflexivity | reflexivity ].
Defined.

(** On the steady host a page is either unreadable or the list of its one
    URL. *)
Lemma steady_pages_are_distinct :
  pages_are_distinct (host := Steady.host) default_config.
Proof.
  intros js_code s s' v items Hev Hitems.
  assert (Hv : v = JNull \/ v = JArr [JStr Scripted.first_post]).
  { revert Hev. unfold evaluate, bind at 1, get_target_id.
    destruct (target_id s) as [tid | ]; [ | discriminate ].
    destruct tid as [ | [ | ] | z | q | [ | c t] | [ | x l] | [ | x kv]];
      cbn [truthy negb PyStr.is_empty];
      try destruct (z =? 0); try destruct (Qeq_bool q 0); cbn [negb];
      intro H; vm_compute in H; inversion H;
      first [ left; reflexivity | right; reflexivity ]. }
  destruct Hv as [-> | ->]; [ discriminate | ].
  vm_compute in Hitems. inversion Hitems.
  repeat constructor. intros [].
Qed.

Lemma no_url_is_collected_twice_witness :
  (exists (l : list string) (s' : Sys unit),
      crawl_single_user default_config "a" (fresh tt) = (Ok l, s') /\ NoDup l)
  /\ match fst (crawl_user default_config "a" (fresh tt)) with
     | Ok l => NoDup l
     | Raise _ => True
     end
  /\ match fst (_scroll_and_collect default_config "a" (fresh tt)) with
     | Ok l => NoDup l
     | Raise _ => True
     end.
Proof.
  exact (no_url_is_collected_twice (host := Steady.host) default_config
           steady_pages_are_distinct "a" (fresh tt)).
Defined.

Lemma crawl_user_returns_posts_witness : [Scripted.first_post] <> [].
Proof.
  assert (H : crawl_user (host := Steady.host) default_config "a" (fresh tt)
              = (Ok [Scripted.first_post],
                 snd (crawl_user (host := Steady.host) default_config "a" (fresh tt))))
    by (vm_compute; reflexivity).
  exact (crawl_user_returns_posts (host := Steady.host) default_config "a"
           (fresh tt) _ _ H).
Defined.

Lemma saved_list_is_loaded_back_witness :
  fst (load (snd (UserManager._save ["alice"; "bob_2"]
                                    (Scripted.boot Scripted.quiet))))
  = Ok ["alice"; "bob_2"].
Proof.
  apply (saved_list_is_loaded_back (host := Scripted.host) ["alice"; "bob_2"]
           (Scripted.boot Scripted.quiet)).
  reflexivity.
Defined.

(** On the list of two profiles with its comment line: a new name, a name
    already listed, a name that reads as a comment, which is written and
    logged as added and which the next [load] skips, and a name with a blank
    in front, which the next [load] finds without it. *)
Lemma add_appends_once_witness :
  fst (load (snd (UserManager.add "carol" (Scripted.boot Scripted.two_profiles))))
  = Ok ["alice"; "bob"; "carol"]
  /\ fst (UserManager.add "bob" (Scripted.boot Scripted.two_profiles))
     = Ok [(WARN, UserAlreadyExists "bob")]
  /\ fst (UserManager.add "#x" (Scripted.boot Scripted.two_profiles))
     = Ok [(INFO, SavedUsers 3); (INFO, AddedUser "#x")]
  /\ fst (load (snd (UserManager.add "#x" (Scripted.boot Scripted.two_profiles))))
     = Ok ["alice"; "bob"]
  /\ fst (load (snd (UserManager.add " carol" (Scripted.boot Scripted.two_profiles))))
     = Ok ["alice"; "bob"; "carol"].
Proof.
  assert (Hload : fst (load (Scripted.boot Scripted.two_profiles))
                  = Ok ["alice"; "bob"]) by (vm_compute; reflexivity).
  destruct (add_appends_once (host := Scripted.host) "carol" _ _ Hload)
    as (_ & B1 & C1 & _).
  destruct (add_appends_once (host := Scripted.host) "bob" _ _ Hload)
    as (A2 & _).
  destruct (add_appends_once (host := Scripted.host) "#x" _ _ Hload)
    as (A3 & B3 & _ & D3 & _).
  destruct (add_appends_once (host := Scripted.host) " carol" _ _ Hload)
    as (_ & B4 & _ & D4 & _).
  split; [ rewrite B1; cbn [mem existsb String.eqb Ascii.eqb Bool.eqb orb];
           now rewrite (C1 eq_refl) | ].
  split; [ exact A2 | ]. split; [ exact A3 | ].
  split; [ rewrite B3; cbn [mem existsb String.eqb Ascii.eqb Bool.eqb orb];
           now rewrite (D3 eq_refl) | ].
  rewrite B4. cbn [mem existsb String.eqb Ascii.eqb Bool.eqb orb].
  now rewrite (D4 eq_refl).
Defined.

(** On a list whose lines end in different ways and that names a profile
    twice, with a blank inside the name: the first line of the name goes. *)
Lemma remove_drops_first_occurrence_witness :
  fst (load (Scripted.boot Scripted.mixed_list)) = Ok ["john doe"; "alice"; "john doe"]
  /\ fst (UserManager.remove "john doe" (Scripted.boot Scripted.mixed_list))
     = Ok [(INFO, SavedUsers 2); (INFO, RemovedUser "john doe")]
  /\ fst (load (snd (UserManager.remove "john doe"
                       (Scripted.boot Scripted.mixed_list))))
     = Ok ["alice"; "john doe"]
  /\ fst (UserManager.remove "bob" (Scripted.boot Scripted.mixed_list))
     = Ok [(WARN, UserNotFound "bob")].
Proof.
  assert (Hload : fst (load (Scripted.boot Scripted.mixed_list))
                  = Ok ["john doe"; "alice"; "john doe"]) by (vm_compute; reflexivity).
  destruct (remove_drops_first_occurrence (host := Scripted.host) "john doe" _ _ Hload)
    as (A1 & B1 & _).
  destruct (remove_drops_first_occurrence (host := Scripted.host) "bob" _ _ Hload)
    as (A2 & _).
  split; [ exact Hload | ]. split; [ exact A1 | ]. split; [ exact B1 | exact A2 ].
Defined.

Lemma results_follow_completion_order_witness :
  exists (all_results : results) (s' : Sys Scripted.script),
    handle_all default_config [1%nat; 0%nat] ["alice"; "bob"] 0 []
               (Scripted.boot Scripted.quiet)
    = (Ok all_results, s')
    /\ map fst all_results = picked ["alice"; "bob"] [1%nat; 0%nat]
    /\ txt_file s'
       = (txt_file (Scripted.boot Scripted.quiet)
          ++ user_entries 0 (List.length ["alice"; "bob"]) all_results)%list.
Proof.
  apply (results_follow_completion_order (host := Scripted.host) default_config
           [1%nat; 0%nat] ["alice"; "bob"] (Scripted.boot Scripted.quiet)).
  cbn. repeat constructor; cbn; intuition discriminate.
Defined.

Lemma waiting_keeps_the_handle_witness :
  target_id (snd (wait_loop default_config 3 0 5 Scripted.growing_feed))
  = target_id Scripted.growing_feed
  /\ match fst (wait_loop default_config 3 0 5 Scripted.growing_feed) with
     | Ok _ => True
     | Raise e => left_uncaught e
     end.
Proof.
  apply (waiting_keeps_the_handle (host := Scripted.host) default_config
           3 0 5 Scripted.growing_feed).
  discriminate.
Defined.

Lemma nothing_to_crawl_witness :
  exists line : event,
    crawl_all_users default_config Scripted.plain_body [] []
                    (Scripted.boot Scripted.quiet)
    = (Ok [], add_trace (Scripted.boot Scripted.quiet)
                        [line; Log WARN NoUsersToCrawl]).
Proof.
  apply (nothing_to_crawl (host := Scripted.host) default_config Scripted.plain_body
           [] [] (Scripted.boot Scripted.quiet)).
  reflexivity.
Defined.

Lemma integer_line_outcome_witness :
  _parse_output "-42" (Scripted.boot Scripted.quiet)
  = (Ok (Some (ok_result (JInt (-42)))), Scripted.boot Scripted.quiet)
  /\ _parse_output "---7" (Scripted.boot Scripted.quiet)
     = (Raise ValueError, Scripted.boot Scripted.quiet).
Proof.
  split.
  - exact (integer_line_outcome (host := Scripted.host) "-42"
             (Scripted.boot Scripted.quiet) eq_refl).
  - exact (integer_line_outcome (host := Scripted.host) "---7"
             (Scripted.boot Scripted.quiet) eq_refl).
Defined.

(** A line of 4301 digits and no dash passes the test and is refused by
    [int]; with one digit less it is converted. *)
Example long_integer_line :
  fst (_parse_output (Scripted.sevens 4301) (Scripted.boot Scripted.quiet))
  = Raise ValueError
  /\ exists z : Z,
       fst (_parse_output (Scripted.sevens 4300) (Scripted.boot Scripted.quiet))
       = Ok (Some (ok_result (JInt z))).
Proof.
  split; [ vm_compute; reflexivity | ].
  eexists. vm_compute. reflexivity.
Qed.
